(** * OUH AI inference service: watchdog, return service and supervisor

    A shallow embedding of the scheduling daemon
    ([ouh_ai_watchdog/main.py]), of the delivery daemon
    ([ouh_ai_returnservice/main.py]) and of the restart loop both share,
    followed by the properties of the design document checked against
    them.

    Conventions.  Python [str] values are [string]s, a character being a
    code point below 256; Python [int]s are [Z].  A shared scan directory
    is the list of its sub-directories in [iterdir] order.  Calls that
    leave the repository (pydicom, pynetdicom, rt_utils, [shutil.copy2],
    [os.mkdir] on a return share) are resolved by an oracle record; every
    outcome that the source distinguishes with an [except] clause is an
    outcome of the oracle. *)

From Stdlib Require Import ZArith List String Ascii Bool Lia Arith.
Import ListNotations.
Open Scope string_scope.
Open Scope Z_scope.

(* ================================================================== *)
(** * Python values and built-ins used by the daemons *)
(* ================================================================== *)

Module Py.

(** Exceptions that the modelled code raises or catches. *)
Inductive Exn :=
| IndexError | KeyError | ValueError | TypeError | AttributeError
| FileNotFoundError | PermissionError | FileExistsError | OSError
| ConnectionError | RuntimeError.

(** [isinstance(e, OSError)]: the classes [except OSError] (alias
    [IOError], [WindowsError]) catches. *)
Definition is_OSError (e : Exn) : bool :=
  match e with
  | FileNotFoundError | PermissionError | FileExistsError | OSError
  | ConnectionError => true
  | _ => false
  end.

Definition nat_of_char (c : ascii) : nat := nat_of_ascii c.

(** The double quote character. *)
Definition dquote : ascii := ascii_of_nat 34.

(** [str.lower] on one character: the letters [A] to [Z] and the
    capital letters of Latin-1, U+00C0 to U+00DE without the
    multiplication sign U+00D7. *)
Definition lower_char (c : ascii) : ascii :=
  let n := nat_of_char c in
  if orb (andb (Nat.leb 65 n) (Nat.leb n 90))
         (andb (andb (Nat.leb 192 n) (Nat.leb n 222)) (negb (Nat.eqb n 215)))
  then ascii_of_nat (n + 32) else c.

Fixpoint lower (s : string) : string :=
  match s with
  | EmptyString => EmptyString
  | String c r => String (lower_char c) (lower r)
  end.

(** [s.startswith(p)]. *)
Definition startswith (s p : string) : bool := String.prefix p s.

Fixpoint rev_string (s : string) : string :=
  match s with
  | EmptyString => EmptyString
  | String c r => rev_string r ++ String c EmptyString
  end.

(** [s.endswith(p)]. *)
Definition endswith (s p : string) : bool :=
  String.prefix (rev_string p) (rev_string s).

(** The characters [str.strip()] and [int()] treat as white space:
    those for which [str.isspace] holds, which below 256 are U+0009 to
    U+000D, U+001C to U+0020, U+0085 (next line) and U+00A0 (no-break
    space). *)
Definition is_space (c : ascii) : bool :=
  let n := nat_of_char c in
  orb (andb (Nat.leb 9 n) (Nat.leb n 13))
      (orb (andb (Nat.leb 28 n) (Nat.leb n 32))
           (orb (Nat.eqb n 133) (Nat.eqb n 160))).

Fixpoint lstrip (s : string) : string :=
  match s with
  | EmptyString => EmptyString
  | String c r => if is_space c then lstrip r else s
  end.

Definition rstrip (s : string) : string := rev_string (lstrip (rev_string s)).

(** [s.strip()]. *)
Definition strip (s : string) : string := rstrip (lstrip s).

(** [s.split(sep)] for a separator of one character: the pieces between
    the occurrences of [sep], never an empty list. *)
Fixpoint split (sep : ascii) (s : string) : list string :=
  match s with
  | EmptyString => [EmptyString]
  | String c r =>
      if Ascii.eqb c sep then EmptyString :: split sep r
      else match split sep r with
           | [] => [String c EmptyString]
           | piece :: rest => String c piece :: rest
           end
  end.

(** [s.split(sep, 1)]: cut at the first occurrence only. *)
Fixpoint split1 (sep : ascii) (s : string) : list string :=
  match s with
  | EmptyString => [EmptyString]
  | String c r =>
      if Ascii.eqb c sep then [EmptyString; r]
      else match split1 sep r with
           | [] => [String c EmptyString]
           | piece :: rest => String c piece :: rest
           end
  end.

(** [l[i]] for [i >= 0]. *)
Definition index {A} (l : list A) (i : nat) : Exn + A :=
  match nth_error l i with
  | Some x => inr x
  | None => inl IndexError
  end.

(** [l[-1]]. *)
Definition last_item {A} (l : list A) : Exn + A :=
  match rev l with
  | x :: _ => inr x
  | [] => inl IndexError
  end.

(** [s.replace(old, "")]: every occurrence of [old], scanning from the
    left and resuming after each occurrence removed.  [skip] counts the
    characters of a matched occurrence still to be dropped. *)
Fixpoint remove_all_from (old : string) (skip : nat) (s : string) : string :=
  match s with
  | EmptyString => EmptyString
  | String c r =>
      match skip with
      | S k => remove_all_from old k r
      | O =>
          if String.prefix old s
          then remove_all_from old (String.length old - 1) r
          else String c (remove_all_from old 0 r)
      end
  end.

Definition remove_all (old s : string) : string :=
  match old with
  | EmptyString => s
  | _ => remove_all_from old 0 s
  end.

(** [c * n] for a one-character string [c]; empty when [n <= 0]. *)
Fixpoint repeat_char (c : ascii) (n : nat) : string :=
  match n with
  | O => EmptyString
  | S k => String c (repeat_char c k)
  end.

Definition str_mul (c : ascii) (n : Z) : string := repeat_char c (Z.to_nat n).

Fixpoint take (n : nat) (s : string) : string :=
  match n, s with
  | O, _ => EmptyString
  | _, EmptyString => EmptyString
  | S k, String c r => String c (take k r)
  end.

Fixpoint drop (n : nat) (s : string) : string :=
  match n, s with
  | O, _ => s
  | _, EmptyString => EmptyString
  | S k, String _ r => drop k r
  end.

Definition len (s : string) : Z := Z.of_nat (String.length s).

(** [s[0:stop]] with Python's treatment of a negative or too large
    [stop]. *)
Definition slice_to (s : string) (stop : Z) : string :=
  let n := len s in
  let stop' := if stop <? 0 then Z.max 0 (stop + n) else Z.min stop n in
  take (Z.to_nat stop') s.

(** ** [int(s)] on text *)

Definition digit_of (c : ascii) : option Z :=
  let n := nat_of_char c in
  if andb (Nat.leb 48 n) (Nat.leb n 57) then Some (Z.of_nat (n - 48)) else None.

(** Digits with single underscores between them, accumulated from the
    left; [prev_digit] tells whether the previous character was a digit. *)
Fixpoint digits_value (acc : Z) (prev_digit : bool) (s : string) : option Z :=
  match s with
  | EmptyString => if prev_digit then Some acc else None
  | String c r =>
      match digit_of c with
      | Some d => digits_value (10 * acc + d) true r
      | None =>
          if andb (Ascii.eqb c "_"%char) prev_digit
          then digits_value acc false r
          else None
      end
  end.

(** [int(s)]: surrounding white space, an optional sign, decimal digits.
    [inl ValueError] is Python's [ValueError]. *)
Definition int (s : string) : Exn + Z :=
  let body := strip s in
  let parsed :=
    match body with
    | String "-"%char r => option_map Z.opp (digits_value 0 false r)
    | String "+"%char r => digits_value 0 false r
    | _ => digits_value 0 false body
    end in
  match parsed with
  | Some z => inr z
  | None => inl ValueError
  end.

(** ** [time.ctime] *)

Definition two_digits (n : Z) : string :=
  String (ascii_of_nat (48 + Z.to_nat (n / 10)))
    (String (ascii_of_nat (48 + Z.to_nat (n mod 10))) EmptyString).

(** [%2d]: blank padded. *)
Definition two_blank (n : Z) : string :=
  if n <? 10 then String " "%char (String (ascii_of_nat (48 + Z.to_nat n)) EmptyString)
  else two_digits n.

Fixpoint decimal_from (fuel : nat) (n : Z) (acc : string) : string :=
  match fuel with
  | O => acc
  | S k =>
      let acc' := String (ascii_of_nat (48 + Z.to_nat (n mod 10))) acc in
      if n / 10 =? 0 then acc' else decimal_from k (n / 10) acc'
  end.

(** Decimal text of a non-negative integer. *)
Definition decimal (n : Z) : string := decimal_from (S (Z.to_nat (Z.log2 n))) n EmptyString.

Definition day_name (d : Z) : string :=
  nth (Z.to_nat d) ["Sun"; "Mon"; "Tue"; "Wed"; "Thu"; "Fri"; "Sat"] "".

Definition month_name (m : Z) : string :=
  nth (Z.to_nat (m - 1))
    ["Jan"; "Feb"; "Mar"; "Apr"; "May"; "Jun";
     "Jul"; "Aug"; "Sep"; "Oct"; "Nov"; "Dec"] "".

(** Proleptic Gregorian date of a day count from 1970-01-01. *)
Definition civil_of_days (days : Z) : Z * Z * Z :=
  let z := days + 719468 in
  let era := z / 146097 in
  let doe := z - era * 146097 in
  let yoe := (doe - doe / 1460 + doe / 36524 - doe / 146096) / 365 in
  let doy := doe - (365 * yoe + yoe / 4 - yoe / 100) in
  let mp := (5 * doy + 2) / 153 in
  let d := doy - (153 * mp + 2) / 5 + 1 in
  let m := if mp <? 10 then mp + 3 else mp - 9 in
  let y := yoe + era * 400 + (if m <=? 2 then 1 else 0) in
  (y, m, d).

(** [time.ctime(t)] for a clock [utc_offset] seconds east of UTC: the
    24 characters [Www Mmm dd hh:mm:ss yyyy]; the fraction of a second of
    [t] is not printed, so [t] is given in whole seconds. *)
Definition ctime (utc_offset t : Z) : string :=
  let local := t + utc_offset in
  let days := local / 86400 in
  let secs := local mod 86400 in
  let '(y, m, d) := civil_of_days days in
  day_name ((days + 4) mod 7) ++ " " ++ month_name m ++ " " ++ two_blank d ++ " "
    ++ two_digits (secs / 3600) ++ ":" ++ two_digits (secs mod 3600 / 60) ++ ":"
    ++ two_digits (secs mod 60) ++ " " ++ decimal y.

(** [c in s], for a character [c]. *)
Fixpoint has_char (c : ascii) (s : string) : bool :=
  match s with
  | EmptyString => false
  | String a r => orb (Ascii.eqb a c) (has_char c r)
  end.

(** [s] holds white space only. *)
Fixpoint all_space (s : string) : bool :=
  match s with
  | EmptyString => true
  | String a r => andb (is_space a) (all_space r)
  end.

End Py.

(* ================================================================== *)
(** * Effects: state, exceptions *)
(* ================================================================== *)

Module Eff.

(** A computation over a world [W] returns or raises; in both cases the
    world it leaves behind is kept, as side effects made before a Python
    exception are. *)
Inductive Outcome (W A : Type) : Type :=
| Done (a : A) (w : W)
| Raised (e : Py.Exn) (w : W).

Arguments Done {W A} a w.
Arguments Raised {W A} e w.

Definition M (W A : Type) : Type := W -> Outcome W A.

Definition ret {W A} (a : A) : M W A := fun w => Done a w.

Definition bind {W A B} (c : M W A) (k : A -> M W B) : M W B :=
  fun w => match c w with
           | Done a w' => k a w'
           | Raised e w' => Raised e w'
           end.

Definition raise {W A} (e : Py.Exn) : M W A := fun w => Raised e w.

Definition get {W} : M W W := fun w => Done w w.

Definition put {W} (w : W) : M W unit := fun _ => Done tt w.

Definition modify {W} (f : W -> W) : M W unit := fun w => Done tt (f w).

(** [try: c except <classes>: h], the classes given as a predicate. *)
Definition try_except {W A} (c : M W A) (catches : Py.Exn -> bool)
    (h : Py.Exn -> M W A) : M W A :=
  fun w => match c w with
           | Done a w' => Done a w'
           | Raised e w' => if catches e then h e w' else Raised e w'
           end.

(** Lift a pure partial result. *)
Definition lift {W A} (r : Py.Exn + A) : M W A :=
  match r with
  | inr a => ret a
  | inl e => raise e
  end.

(** [for x in l: body], threading a value through the iterations. *)
Fixpoint for_each {W A B} (l : list A) (body : A -> B -> M W B) (b : B) : M W B :=
  match l with
  | [] => ret b
  | x :: r => bind (body x b) (for_each r body)
  end.

Definition any_exn (_ : Py.Exn) : bool := true.

(** The world a computation leaves behind, however it ended. *)
Definition final {W A} (o : Outcome W A) : W :=
  match o with
  | Done _ w => w
  | Raised _ w => w
  end.

(** A computation started in [w] ended in a world that [R] relates to
    [w], with a value of [Q] when it returned. *)
Definition ends {W A} (R : W -> W -> Prop) (Q : A -> Prop) (w : W)
    (o : Outcome W A) : Prop :=
  R w (final o) /\ match o with Done a _ => Q a | Raised _ _ => True end.

End Eff.

Notation "x <- c ;; k" := (Eff.bind c (fun x => k))
  (at level 61, c at next level, right associativity).
Notation "c ;;; k" := (Eff.bind c (fun _ => k))
  (at level 61, right associativity).

(* ================================================================== *)
(** * The scheduling daemon, [ouh_ai_watchdog/main.py] *)
(* ================================================================== *)

Module Watchdog.

Import Eff.

(** The fields of [WatchdogConfig] the worker reads. *)
Record WatchdogConfig := {
  scan_directory_str : string;
  scan_interval : Z;
  ai_config_filename : string;
  inference_script_path_str : string;
  max_restarts : Z;
  max_restart_window_sec : Z;
  dry_run : bool
}.

Inductive AiDirState :=
| ACTIVE | READY | ERROR | RECEIVING | HANDLED | INFERRED | UNKNOWN.

Definition AiDirState_eqb (a b : AiDirState) : bool :=
  match a, b with
  | ACTIVE, ACTIVE | READY, READY | ERROR, ERROR | RECEIVING, RECEIVING
  | HANDLED, HANDLED | INFERRED, INFERRED | UNKNOWN, UNKNOWN => true
  | _, _ => false
  end.

(** One sub-directory of the scan directory as the daemon can observe
    it: its name, the text of [error.txt] and the lines of the job's
    configuration file when those files exist, the modification time in
    seconds, and whether another process holds it open (Windows then
    refuses to rename it). *)
Record Folder := {
  name : string;
  error_txt : option string;
  ai_config : option (list string);
  st_mtime : Z;
  in_use : bool
}.

(** What the worker acts on: the scan directory in [iterdir] order, the
    offset of the local clock from UTC, the commands handed to
    [subprocess.Popen], and whether the host can spawn a process. *)
Record World := {
  dirs : list Folder;
  utc_offset : Z;
  launched : list (list string);
  can_spawn : bool
}.

Definition set_dirs (ds : list Folder) (w : World) : World :=
  {| dirs := ds; utc_offset := utc_offset w; launched := launched w;
     can_spawn := can_spawn w |}.

Definition find_dir (n : string) (ds : list Folder) : option Folder :=
  find (fun f => String.eqb (name f) n) ds.

Definition update_dir (n : string) (g : Folder -> Folder) (ds : list Folder)
  : list Folder :=
  map (fun f => if String.eqb (name f) n then g f else f) ds.

(** [Path.rename] on Windows: the source must exist and not be held by
    another process, the target must not exist. *)
Definition os_rename (src dst : string) (ds : list Folder)
  : Py.Exn + list Folder :=
  match find_dir src ds with
  | None => inl Py.FileNotFoundError
  | Some f =>
      if in_use f then inl Py.PermissionError
      else match find_dir dst ds with
           | Some _ => inl Py.FileExistsError
           | None =>
               inr (update_dir src
                      (fun f => {| name := dst; error_txt := error_txt f;
                                   ai_config := ai_config f;
                                   st_mtime := st_mtime f;
                                   in_use := in_use f |}) ds)
           end
  end.

(** [Path(dir, 'error.txt').write_text(text)]. *)
Definition write_error_file (n : string) (text : option string)
  : M World unit :=
  w <- get ;;
  match text with
  | None => raise Py.TypeError
  | Some t =>
      match find_dir n (dirs w) with
      | None => raise Py.FileNotFoundError
      | Some _ =>
          put (set_dirs
                 (update_dir n
                    (fun f => {| name := name f; error_txt := Some t;
                                 ai_config := ai_config f;
                                 st_mtime := st_mtime f;
                                 in_use := in_use f |}) (dirs w)) w)
      end
  end.

(** The attributes of an [AiDir] object.  [path] is the name of the
    directory inside the scan directory; [ai_config_path] and
    [error_file_path] are functions of it. *)
Record AiDir := {
  path : string;
  nicelevel : option Z;
  last_modified : option string;
  valid : bool;
  error : option string;
  write_error_to_file : bool;
  state : AiDirState
}.

Definition with_state (s : AiDirState) (d : AiDir) : AiDir :=
  {| path := path d; nicelevel := nicelevel d;
     last_modified := last_modified d; valid := valid d; error := error d;
     write_error_to_file := write_error_to_file d; state := s |}.

Definition with_valid (v : bool) (d : AiDir) : AiDir :=
  {| path := path d; nicelevel := nicelevel d;
     last_modified := last_modified d; valid := v; error := error d;
     write_error_to_file := write_error_to_file d; state := state d |}.

Definition with_error (e : option string) (d : AiDir) : AiDir :=
  {| path := path d; nicelevel := nicelevel d;
     last_modified := last_modified d; valid := valid d; error := e;
     write_error_to_file := write_error_to_file d; state := state d |}.

Definition with_write (b : bool) (d : AiDir) : AiDir :=
  {| path := path d; nicelevel := nicelevel d;
     last_modified := last_modified d; valid := valid d; error := error d;
     write_error_to_file := b; state := state d |}.

Definition with_path (p : string) (d : AiDir) : AiDir :=
  {| path := p; nicelevel := nicelevel d;
     last_modified := last_modified d; valid := valid d; error := error d;
     write_error_to_file := write_error_to_file d; state := state d |}.

Definition with_nicelevel (n : option Z) (d : AiDir) : AiDir :=
  {| path := path d; nicelevel := n;
     last_modified := last_modified d; valid := valid d; error := error d;
     write_error_to_file := write_error_to_file d; state := state d |}.

Definition with_last_modified (t : option string) (d : AiDir) : AiDir :=
  {| path := path d; nicelevel := nicelevel d;
     last_modified := t; valid := valid d; error := error d;
     write_error_to_file := write_error_to_file d; state := state d |}.

(** The [if/elif] chain of [AiDir.__post_init__]: the state from the name
    of the directory and the existence of [error.txt]. *)
Definition classify (dir_name : string) (error_file_exists : bool)
  : AiDirState :=
  let n := Py.lower dir_name in
  if error_file_exists then ERROR
  else if Py.startswith n "active_" then ACTIVE
  else if Py.startswith n "ready_" then READY
  else if Py.startswith n "error_" then ERROR
  else if Py.startswith n "receiving_" then RECEIVING
  else if Py.startswith n "handled_" then HANDLED
  else if Py.startswith n "inferred_" then INFERRED
  else UNKNOWN.

Definition error_file_exists (n : string) (ds : list Folder) : bool :=
  match find_dir n ds with
  | Some f => match error_txt f with Some _ => true | None => false end
  | None => false
  end.

Definition ai_config_exists (n : string) (ds : list Folder) : bool :=
  match find_dir n ds with
  | Some f => match ai_config f with Some _ => true | None => false end
  | None => false
  end.

Definition path_exists (n : string) (ds : list Folder) : bool :=
  match find_dir n ds with Some _ => true | None => false end.

(** [AiDir.pre_validate]. *)
Definition pre_validate (d : AiDir) (ds : list Folder) : AiDir :=
  if negb (path_exists (path d) ds) then
    with_write false (with_valid false
      (with_error (Some ("Path does not exist: " ++ path d)) d))
  else match state d with
       | ERROR => with_valid false d
       | UNKNOWN => with_write false (with_valid false d)
       | RECEIVING => with_write false (with_valid false d)
       | _ =>
           if negb (ai_config_exists (path d) ds) then
             with_write true (with_valid false
               (with_error (Some "E2_02 AI config file does not exist.") d))
           else with_valid true d
       end.

(** [AiDir(f, config)]: the dataclass defaults, then [__post_init__]. *)
Definition new_AiDir (f : string) (ds : list Folder) : AiDir :=
  pre_validate
    {| path := f; nicelevel := None; last_modified := None; valid := false;
       error := None; write_error_to_file := true;
       state := classify f (error_file_exists f ds) |} ds.

(** [AiDir.rename]. *)
Definition rename (d : AiDir) (new_name : string) : M World (bool * AiDir) :=
  w <- get ;;
  match os_rename (path d) new_name (dirs w) with
  | inl _ =>
      ret (false,
           with_state ERROR
             (with_error (Some "E2_01 Could not rename directory") d))
  | inr ds' =>
      put (set_dirs ds' w) ;;;
      ret (true, with_path new_name d)
  end.

(** [AiDir.activate]. *)
Definition activate (d : AiDir) : M World (bool * AiDir) :=
  rename d ("active_" ++ Py.remove_all "ready_" (path d)).

(** The loop of [AiDir.load] over the lines of the configuration file:
    the level read so far and the exception that ended the loop, if one
    did. *)
Fixpoint read_nicelevel (lines : list string) (cur : option Z)
  : option Z * option Py.Exn :=
  match lines with
  | [] => (cur, None)
  | line :: rest =>
      if Py.startswith (Py.lower (Py.strip line)) "nicelevel" then
        match Py.index (Py.split Py.dquote line) 1 with
        | inl e => (cur, Some e)
        | inr v =>
            match Py.int v with
            | inl e => (cur, Some e)
            | inr z => read_nicelevel rest (Some z)
            end
        end
      else read_nicelevel rest cur
  end.

Definition is_ValueError (e : Py.Exn) : bool :=
  match e with Py.ValueError => true | _ => false end.

(** [AiDir.load].  The [try] block ends at the first exception of the
    loop; [except ValueError] resumes after it with the level assigned so
    far, any other exception leaves the method. *)
Definition load (d : AiDir) : M World AiDir :=
  if negb (valid d) then ret d
  else
    w <- get ;;
    match find_dir (path d) (dirs w) with
    | Some f =>
        match ai_config f with
        | None => raise Py.FileNotFoundError
        | Some lines =>
            let '(lvl, exn) := read_nicelevel lines (nicelevel d) in
            let d1 := with_nicelevel lvl d in
            let after_try :=
              let d2 := match nicelevel d1 with
                        | None => with_nicelevel (Some 10) d1
                        | Some _ => d1
                        end in
              ret (with_valid true
                     (with_last_modified
                        (Some (Py.ctime (utc_offset w) (st_mtime f))) d2)) in
            match exn with
            | None => after_try
            | Some e => if is_ValueError e then after_try else raise e
            end
        end
    | None => raise Py.FileNotFoundError
    end.

(** [AiDir.handle_error]. *)
Definition handle_error (d : AiDir) : M World AiDir :=
  (if write_error_to_file d then write_error_file (path d) (error d)
   else ret tt) ;;;
  r <- rename d ("error_" ++ Py.remove_all "ready_" (path d)) ;;
  let '(ok, d') := r in
  if ok then ret d'
  else write_error_file (path d') (error d') ;;; ret d'.

(** The lists of an [AiSharedDir] object. *)
Record AiSharedDir := {
  receiving_dirs : list AiDir;
  ready_dirs : list AiDir;
  active_dirs : list AiDir;
  error_dirs : list AiDir;
  handled_dirs : list AiDir;
  inferred_dirs : list AiDir;
  unknown_dirs : list AiDir;
  ready_to_infer : option AiDir
}.

Definition empty_shared : AiSharedDir :=
  {| receiving_dirs := []; ready_dirs := []; active_dirs := [];
     error_dirs := []; handled_dirs := []; inferred_dirs := [];
     unknown_dirs := []; ready_to_infer := None |}.

Definition file_under (st : AiDirState) (d : AiDir) (s : AiSharedDir)
  : AiSharedDir :=
  let add (k : AiDirState) (l : list AiDir) :=
    if AiDirState_eqb st k then (l ++ [d])%list else l in
  {| receiving_dirs := add RECEIVING (receiving_dirs s);
     ready_dirs := add READY (ready_dirs s);
     active_dirs := add ACTIVE (active_dirs s);
     error_dirs := add ERROR (error_dirs s);
     handled_dirs := add HANDLED (handled_dirs s);
     inferred_dirs := add INFERRED (inferred_dirs s);
     unknown_dirs := add UNKNOWN (unknown_dirs s);
     ready_to_infer := ready_to_infer s |}.

(** [AiSharedDir.scan]: every entry of the world is a directory. *)
Definition scan : M World AiSharedDir :=
  w <- get ;;
  ret (fold_left
         (fun s f => let d := new_AiDir (name f) (dirs w) in
                     file_under (state d) d s)
         (dirs w) empty_shared).

(** The sort key [(x.nicelevel, x.last_modified)]; both attributes are
    set by [load] on every directory that reaches the sort. *)
Definition sort_key (d : AiDir) : Z * string :=
  (match nicelevel d with Some n => n | None => 0 end,
   match last_modified d with Some t => t | None => EmptyString end).

(** Python's order on pairs of an [int] and a [str]. *)
Definition key_leb (a b : Z * string) : bool :=
  if fst a <? fst b then true
  else if fst b <? fst a then false
  else String.leb (snd a) (snd b).

Fixpoint insert_by_key (x : AiDir) (l : list AiDir) : list AiDir :=
  match l with
  | [] => [x]
  | y :: r =>
      if key_leb (sort_key x) (sort_key y) then x :: l
      else y :: insert_by_key x r
  end.

(** [sorted(l, key=...)]: the stable sort. *)
Definition sorted (l : list AiDir) : list AiDir :=
  fold_right insert_by_key [] l.

Definition has_active (s : AiSharedDir) : bool :=
  match active_dirs s with [] => false | _ => true end.

Definition has_ready (s : AiSharedDir) : bool :=
  match ready_dirs s with [] => false | _ => true end.

Definition is_ready (d : AiDir) : bool := AiDirState_eqb (state d) READY.

(** [AiSharedDir.load_ready]. *)
Definition load_ready (s : AiSharedDir) : M World AiSharedDir :=
  acc <- for_each (ready_dirs s)
           (fun d (acc : list AiDir * list AiDir) =>
              d1 <- load d ;;
              if andb (valid d1) (is_ready d1)
              then ret ((fst acc ++ [d1])%list, snd acc)
              else d2 <- handle_error d1 ;; ret (fst acc, (snd acc ++ [d2])%list))
           ([], error_dirs s) ;;
  let '(really_ready, errors) := acc in
  ret {| receiving_dirs := receiving_dirs s;
         ready_dirs := really_ready;
         active_dirs := active_dirs s;
         error_dirs := errors;
         handled_dirs := handled_dirs s;
         inferred_dirs := inferred_dirs s;
         unknown_dirs := unknown_dirs s;
         ready_to_infer :=
           match really_ready with
           | [] => ready_to_infer s
           | _ => hd_error (sorted really_ready)
           end |}.

(** [subprocess.Popen(command, ...)]. *)
Definition popen (command : list string) : M World unit :=
  w <- get ;;
  if can_spawn w then
    put {| dirs := dirs w; utc_offset := utc_offset w;
           launched := (launched w ++ [command])%list; can_spawn := can_spawn w |}
  else raise Py.OSError.

(** One round of the [while] loop of [watchdog_worker] in which the scan
    interval has elapsed. *)
Definition poll (config : WatchdogConfig) : M World unit :=
  d <- scan ;;
  if has_active d then ret tt
  else if has_ready d then
    d' <- load_ready d ;;
    match ready_to_infer d' with
    | None => ret tt
    | Some r =>
        a <- activate r ;;
        let '(ok, r') := a in
        if ok then
          if dry_run config then ret tt
          else popen ["python"; inference_script_path_str config;
                      "--folder"; scan_directory_str config ++ "\" ++ path r']
        else _ <- handle_error r' ;; ret tt
    end
  else ret tt.

(** How [watchdog_worker] returns: the stop event was set, or an
    exception reached [except Exception] and ended the loop. *)
Inductive WorkerExit :=
| Stopped
| Crashed (e : Py.Exn) (rounds_completed : nat).

(** [watchdog_worker], for a stop event set after [rounds] polls. *)
Fixpoint worker_from (config : WatchdogConfig) (completed rounds : nat)
    (w : World) : WorkerExit * World :=
  match rounds with
  | O => (Stopped, w)
  | S k =>
      match poll config w with
      | Done _ w' => worker_from config (S completed) k w'
      | Raised e w' => (Crashed e completed, w')
      end
  end.

Definition watchdog_worker (config : WatchdogConfig) (rounds : nat)
    (w : World) : WorkerExit * World :=
  worker_from config 0 rounds w.

(** The first directory of a list whose sort key no other directory of
    the list beats. *)
Fixpoint first_least (l : list AiDir) : option AiDir :=
  match l with
  | [] => None
  | x :: r =>
      match first_least r with
      | None => Some x
      | Some m => if key_leb (sort_key x) (sort_key m) then Some x else Some m
      end
  end.

(** The classification as the design document words it: an error marker
    wins; otherwise the first prefix of the table the lower-cased name
    starts with gives the state; no prefix gives [UNKNOWN]. *)
Definition prefix_table : list (string * AiDirState) :=
  [("ready_", READY); ("active_", ACTIVE); ("error_", ERROR);
   ("receiving_", RECEIVING); ("handled_", HANDLED); ("inferred_", INFERRED)].

Definition state_by_prefix (dir_name : string) (marker : bool) : AiDirState :=
  if marker then ERROR
  else match find (fun e => Py.startswith (Py.lower dir_name) (fst e))
               prefix_table with
       | Some (_, st) => st
       | None => UNKNOWN
       end.

(** ** Notions used to state what a round does *)

(** The names [classify] can take for a ready job. *)
Definition is_ready_name (n : string) : bool :=
  Py.startswith (Py.lower n) "ready_".

(** The [AiDir] objects a scan makes of a listing, in listing order. *)
Definition found (ds : list Folder) : list AiDir :=
  map (fun f => new_AiDir (name f) ds) ds.

Definition in_state (st : AiDirState) (l : list AiDir) : list AiDir :=
  filter (fun d => AiDirState_eqb (state d) st) l.

(** [w'] is [w] with directories changed in place: a directory that
    changed had a name of [Src], and has a name of [Src] or of [Dst]
    afterwards.  No directory comes or goes, clock and host stay. *)
Definition reshapes (Src Dst : string -> Prop) (w w' : World) : Prop :=
  utc_offset w' = utc_offset w /\ can_spawn w' = can_spawn w /\
  exists h, dirs w' = map h (dirs w) /\
            forall f, h f = f \/
                      (Src (name f) /\ (Src (name (h f)) \/ Dst (name (h f)))).

(** The same, and no process was started. *)
Definition quiet (Src Dst : string -> Prop) (w w' : World) : Prop :=
  reshapes Src Dst w w' /\ launched w' = launched w.

(** The command [watchdog_worker] builds for the activated directory
    [n]. *)
Definition command (config : WatchdogConfig) (n : string) : list string :=
  ["python"; inference_script_path_str config; "--folder";
   scan_directory_str config ++ "\" ++ n].

(** The directory [f] under the name [n], as [Path.rename] leaves it. *)
Definition named (n : string) (f : Folder) : Folder :=
  {| name := n; error_txt := error_txt f; ai_config := ai_config f;
     st_mtime := st_mtime f; in_use := in_use f |}.

End Watchdog.

(* ================================================================== *)
(** * The restart loop of both daemons *)
(* ================================================================== *)

(** The [while True] loops at the end of [ouh_ai_watchdog/main.py] and
    of [ouh_ai_returnservice/main.py] are the same code.  Times are
    [datetime] values counted in microseconds, as is the window. *)
Module Supervisor.

(** [timedelta(seconds=max_restart_window_sec)]. *)
Definition max_restart_window (max_restart_window_sec : Z) : Z :=
  1000000 * max_restart_window_sec.

(** What one pass through [if worker is None or not worker.is_alive()]
    decides. *)
Inductive Decision :=
| ShutDown
| Restart (backoff_time : Z) (restarts : list Z).

(** The list comprehension that keeps the recent restarts. *)
Definition recent (window current_time : Z) (restarts : list Z) : list Z :=
  filter (fun restart_time => current_time - restart_time <? window) restarts.

(** The body of the [if], for the clock reading [current_time]. *)
Definition on_worker_dead (max_restarts window current_time : Z)
    (restarts : list Z) : Decision :=
  let restarts1 := recent window current_time restarts in
  if Z.of_nat (List.length restarts1) >=? max_restarts then ShutDown
  else
    let restarts2 := (restarts1 ++ [current_time])%list in
    Restart (Z.min (2 ^ Z.of_nat (List.length restarts2)) 60) restarts2.

(** What the supervisor saw at one check: the number of restarts left
    after the clean-up and, when it restarted the worker, the seconds it
    slept before doing so. *)
Record Check := {
  seen : Z;
  backoff : option Z
}.

(** The loop, driven by the successive clock readings at which the
    worker is found dead: the checks made, and whether the loop was left
    through [break]. *)
Fixpoint supervise (max_restarts window : Z) (deaths : list Z)
    (restarts : list Z) : list Check * bool :=
  match deaths with
  | [] => ([], false)
  | current_time :: later =>
      let n := Z.of_nat (List.length (recent window current_time restarts)) in
      match on_worker_dead max_restarts window current_time restarts with
      | ShutDown => ([{| seen := n; backoff := None |}], true)
      | Restart b restarts' =>
          let '(checks, broke) := supervise max_restarts window later restarts' in
          ({| seen := n; backoff := Some b |} :: checks, broke)
      end
  end.

(** Consecutive clock readings more than [window] apart. *)
Fixpoint spaced (window : Z) (deaths : list Z) : Prop :=
  match deaths with
  | t1 :: ((t2 :: _) as later) => window < t2 - t1 /\ spaced window later
  | _ => True
  end.

End Supervisor.

(* ================================================================== *)
(** * The delivery daemon, [ouh_ai_returnservice/main.py] *)
(* ================================================================== *)

Module ReturnService.

Import Eff.

(** The fields of [ReturnserviceConfig] the worker reads. *)
Record ReturnserviceConfig := {
  scan_directory_str : string;
  ai_config_filename : string;
  error_file : string;
  ae_title : string;
  return_dicom_str : string;
  return_directory_str : string;
  days_before_deletion : Z;
  do_archive : bool;
  archive_directory_str : string
}.

(** Where a file of a job directory lies: directly in it, in
    [dcmoutput] or in [dcminput]. *)
Inductive Place := InRoot | InDcmOutput | InDcmInput.

Record File := {
  job : string;
  place : Place;
  fname : string
}.

Definition in_dcmoutput (f : File) : bool :=
  match place f with InDcmOutput => true | _ => false end.

(** One sub-directory of the scan directory: the lines of the job's
    configuration file and of its error file when they exist, the
    listings of [dcmoutput] and [dcminput] when those folders exist, the
    files lying directly in it, its modification time in seconds and
    whether another process holds it open. *)
Record Folder := {
  name : string;
  ai_config : option (list string);
  error_lines : option (list string);
  dcmoutput : option (list string);
  dcminput : option (list string);
  root_files : list string;
  st_mtime : Z;
  in_use : bool
}.

Definition renamed (new_name : string) (f : Folder) : Folder :=
  {| name := new_name; ai_config := ai_config f;
     error_lines := error_lines f; dcmoutput := dcmoutput f;
     dcminput := dcminput f; root_files := root_files f;
     st_mtime := st_mtime f; in_use := in_use f |}.

(** [f] with the listing [l] of the files lying directly in it and the
    modification time [mtime]. *)
Definition with_root (l : list string) (mtime : Z) (f : Folder) : Folder :=
  {| name := name f; ai_config := ai_config f;
     error_lines := error_lines f; dcmoutput := dcmoutput f;
     dcminput := dcminput f; root_files := l;
     st_mtime := mtime; in_use := in_use f |}.

(** The file [x] is written directly into [f] at time [now].  A new
    entry refreshes the modification time of the directory; writing
    over a file that is there changes neither the listing nor that
    time. *)
Definition create_root_file (x : string) (now : Z) (f : Folder) : Folder :=
  if existsb (String.eqb x) (root_files f) then f
  else with_root (root_files f ++ [x])%list now f.

(** The file [x] lying directly in [f] is removed at time [now]. *)
Definition remove_root_file (x : string) (now : Z) (f : Folder) : Folder :=
  with_root (filter (fun y => negb (String.eqb y x)) (root_files f)) now f.

(** The entries of a job directory, as [shutil.rmtree] walks them. *)
Inductive Entry :=
| ConfigFile
| ErrorFile
| RootFile (n : string)
| OutputFolder
| OutputFile (n : string)
| InputFolder
| InputFile (n : string).

Definition kept_file {A} (keeps : Entry -> bool) (e : Entry) (x : option A)
  : option A :=
  if keeps e then x else None.

Definition kept_listing (keeps : Entry -> bool) (folder : Entry)
    (file : string -> Entry) (l : option (list string))
  : option (list string) :=
  match l with
  | Some files =>
      if keeps folder then Some (filter (fun n => keeps (file n)) files)
      else None
  | None => None
  end.

Definition is_none {A} (x : option A) : bool :=
  match x with None => true | Some _ => false end.

(** No entry lying directly in [f] is taken away by [keeps]. *)
Definition root_kept (keeps : Entry -> bool) (f : Folder) : bool :=
  andb (orb (is_none (ai_config f)) (keeps ConfigFile))
    (andb (orb (is_none (error_lines f)) (keeps ErrorFile))
       (andb (forallb (fun n => keeps (RootFile n)) (root_files f))
          (andb (orb (is_none (dcmoutput f)) (keeps OutputFolder))
                (orb (is_none (dcminput f)) (keeps InputFolder))))).

(** What is left of [f] when the entries that [keeps] does not hold are
    removed at time [now]: the directory itself stays; its modification
    time is refreshed when an entry lying directly in it went. *)
Definition left_of (keeps : Entry -> bool) (now : Z) (f : Folder) : Folder :=
  {| name := name f;
     ai_config := kept_file keeps ConfigFile (ai_config f);
     error_lines := kept_file keeps ErrorFile (error_lines f);
     dcmoutput := kept_listing keeps OutputFolder OutputFile (dcmoutput f);
     dcminput := kept_listing keeps InputFolder InputFile (dcminput f);
     root_files := filter (fun n => keeps (RootFile n)) (root_files f);
     st_mtime := if root_kept keeps f then st_mtime f else now;
     in_use := in_use f |}.

(** A [pathlib] path outside the scan directory, by the two views the
    code takes of it: [str(p)] and [p.name]. *)
Record Path := {
  path_str : string;
  path_name : string
}.

(** [Path(base, child)] for a [child] of one component, on Windows. *)
Definition join_path (base child : string) : Path :=
  {| path_str := base ++ "\" ++ child; path_name := child |}.

(** What the worker does to the outside, in order.  [Associate] records
    a call of [ae.associate] and whether it returned an established
    association. *)
Inductive Event :=
| Log (message : string)
| Mkdir (dir : string)
| Copy (f : File) (dest : string)
| Archive (f : File)
| Associate (ip : string) (port : Z) (aet : string) (established : bool)
| CStore (ip : string) (port : Z) (aet : string) (f : File)
| Release (ip : string) (port : Z) (aet : string).

Inductive AssocOutcome :=
| AssocRaises (e : Py.Exn)
| AssocEstablished
| AssocRejected.

Definition is_established (o : AssocOutcome) : bool :=
  match o with AssocEstablished => true | _ => false end.

Inductive StoreOutcome :=
| StoreStatus (truthy : bool)
| StoreRaises (e : Py.Exn).

(** The answers of the libraries and of the hosts the worker talks to.
    [None] in an optional exception means that the call returned. *)
Record Oracle := {
  (** [dcmread(f).PatientID] *)
  patient_id : File -> Py.Exn + string;
  (** [os.mkdir(dir)] *)
  mkdir : string -> option Py.Exn;
  (** [shutil.copy2(f, dest)] *)
  copy2 : File -> string -> option Py.Exn;
  (** [AE.associate(ip, port, ae_title=aet)] *)
  associate : string -> Z -> string -> AssocOutcome;
  (** [dcmread(f, force=True)] and [dcmread(str(f))] *)
  dcmread : File -> option Py.Exn;
  (** [assoc.send_c_store(dataset of f)] *)
  send_c_store : string -> Z -> string -> File -> StoreOutcome;
  (** [json.loads(text)] returned a value that is true in a condition *)
  json_true : string -> bool;
  (** [config.archive_directory.exists()] *)
  archive_directory_exists : bool;
  (** the body of [archive_struct] ran without an exception *)
  archive_copies : File -> bool;
  (** [RTStructBuilder.create_new], [add_roi] and [save] all succeeded *)
  error_struct_saved : string -> option string -> bool;
  (** the digits [adjust_rtstruct_dicom_information] puts in the new
      SOP instance UID, or the exception of its [dcmread] or [save_as] *)
  sop_instance_digits : File -> Py.Exn + string;
  (** [shutil.rmtree] on a directory, given by its name, that another
      process holds: the entries still there when the call is refused *)
  rmtree_keeps : string -> Entry -> bool
}.

(** The scan directory, the directories that exist on the return
    shares, the clock in seconds, and the events so far. *)
Record World := {
  dirs : list Folder;
  return_shares : list string;
  clock : Z;
  trace : list Event
}.

Definition set_dirs (ds : list Folder) (w : World) : World :=
  {| dirs := ds; return_shares := return_shares w; clock := clock w;
     trace := trace w |}.

Definition emit (e : Event) : M World unit :=
  modify (fun w => {| dirs := dirs w; return_shares := return_shares w;
                      clock := clock w; trace := (trace w ++ [e])%list |}).

Definition add_share (dir : string) : M World unit :=
  modify (fun w => {| dirs := dirs w;
                      return_shares := (return_shares w ++ [dir])%list;
                      clock := clock w; trace := trace w |}).

Definition find_dir (n : string) (ds : list Folder) : option Folder :=
  find (fun f => String.eqb (name f) n) ds.

Definition update_dir (n : string) (g : Folder -> Folder) (ds : list Folder)
  : list Folder :=
  map (fun f => if String.eqb (name f) n then g f else f) ds.

Definition remove_dir (n : string) (ds : list Folder) : list Folder :=
  filter (fun f => negb (String.eqb (name f) n)) ds.

(** [Path.rename] on Windows. *)
Definition os_rename (src dst : string) (ds : list Folder)
  : Py.Exn + list Folder :=
  match find_dir src ds with
  | None => inl Py.FileNotFoundError
  | Some f =>
      if in_use f then inl Py.PermissionError
      else match find_dir dst ds with
           | Some _ => inl Py.FileExistsError
           | None => inr (update_dir src (renamed dst) ds)
           end
  end.

(** [shutil.rmtree].  It removes the entries one by one and the
    directory last; on a directory that another process holds it is
    refused on the way with [PermissionError], and what it removed until
    then is gone: [keeps] tells the entries that are left. *)
Definition rmtree (keeps : Entry -> bool) (n : string) : M World unit :=
  w <- get ;;
  match find_dir n (dirs w) with
  | None => raise Py.FileNotFoundError
  | Some f =>
      if in_use f
      then put (set_dirs
                  (update_dir n (left_of keeps (clock w)) (dirs w)) w) ;;;
           raise Py.PermissionError
      else put (set_dirs (remove_dir n (dirs w)) w)
  end.

(** ** Dictionaries in insertion order *)

Definition Dict := list (string * string).
Definition Groups := list (string * Dict).

Fixpoint dict_get {V} (k : string) (d : list (string * V)) : Py.Exn + V :=
  match d with
  | [] => inl Py.KeyError
  | (k', v) :: r => if String.eqb k' k then inr v else dict_get k r
  end.

Fixpoint dict_set {V} (k : string) (v : V) (d : list (string * V))
  : list (string * V) :=
  match d with
  | [] => [(k, v)]
  | (k', v') :: r =>
      if String.eqb k' k then (k, v) :: r else (k', v') :: dict_set k v r
  end.

Definition values {V} (d : list (string * V)) : list V := map snd d.

(** [d[number][value] = v], creating [d[number]] on [KeyError]. *)
Definition set_nested (number value v : string) (d : Groups) : Groups :=
  match dict_get number d with
  | inr inner => dict_set number (dict_set value v inner) d
  | inl _ => dict_set number [(value, v)] d
  end.

(** [pathlib]'s [stem]: the name up to its last dot, unless that dot is
    the first or the last character. *)
Fixpoint rfind_dot (s : string) : option nat :=
  match s with
  | EmptyString => None
  | String c r =>
      match rfind_dot r with
      | Some i => Some (S i)
      | None => if Ascii.eqb c "."%char then Some O else None
      end
  end.

Definition stem (n : string) : string :=
  match rfind_dot n with
  | Some i =>
      if andb (Nat.ltb 0 i) (Nat.ltb i (String.length n - 1))
      then Py.take i n else n
  | None => n
  end.

(** The attributes of an [AiDir] object; [path] is the name of the
    directory inside the scan directory. *)
Record AiDir := {
  path : string;
  valid : bool;
  transmission_failed : bool;
  return_dicom_node_dict : option Groups;
  return_directory_dict : option Groups;
  error_message : option string
}.

Definition new_AiDir (f : string) : AiDir :=
  {| path := f; valid := false; transmission_failed := false;
     return_dicom_node_dict := None; return_directory_dict := None;
     error_message := None |}.

Definition with_path (p : string) (d : AiDir) : AiDir :=
  {| path := p; valid := valid d;
     transmission_failed := transmission_failed d;
     return_dicom_node_dict := return_dicom_node_dict d;
     return_directory_dict := return_directory_dict d;
     error_message := error_message d |}.

Definition with_valid (v : bool) (d : AiDir) : AiDir :=
  {| path := path d; valid := v;
     transmission_failed := transmission_failed d;
     return_dicom_node_dict := return_dicom_node_dict d;
     return_directory_dict := return_directory_dict d;
     error_message := error_message d |}.

(** [self.transmission_failed = True]. *)
Definition failed (d : AiDir) : AiDir :=
  {| path := path d; valid := valid d; transmission_failed := true;
     return_dicom_node_dict := return_dicom_node_dict d;
     return_directory_dict := return_directory_dict d;
     error_message := error_message d |}.

Definition with_returns (nodes dirs_ : Groups) (d : AiDir) : AiDir :=
  {| path := path d; valid := valid d;
     transmission_failed := transmission_failed d;
     return_dicom_node_dict := Some nodes;
     return_directory_dict := Some dirs_;
     error_message := error_message d |}.

Definition with_error_message (m : string) (d : AiDir) : AiDir :=
  {| path := path d; valid := valid d;
     transmission_failed := transmission_failed d;
     return_dicom_node_dict := return_dicom_node_dict d;
     return_directory_dict := return_directory_dict d;
     error_message := Some m |}.

(** [AiDir.censor_pt_id]. *)
Definition censor_pt_id (return_dir : Path) : string :=
  let return_dir_namev1 := path_str return_dir in
  let return_dir_name :=
    Py.slice_to return_dir_namev1
      (Py.len return_dir_namev1 - Py.len (path_name return_dir) / 2) in
  return_dir_name
    ++ Py.str_mul "*"%char (Py.len return_dir_namev1 - Py.len return_dir_name).

(** [AiDir.parse_string_for_variable_name]. *)
Definition parse_string_for_variable_name (input_string : string)
  : Py.Exn + (string * string) :=
  let line_name := Py.strip input_string in
  match Py.index (Py.split ":"%char line_name) 0 with
  | inl e => inl e
  | inr line_name =>
      match Py.last_item (Py.split "_"%char line_name),
            Py.index (Py.split "_"%char line_name) 0 with
      | inr number, inr value => inr (number, value)
      | inl e, _ => inl e
      | _, inl e => inl e
      end
  end.

(** [AiDir.parse_string_for_value]. *)
Definition parse_string_for_value (input_string : string) : Py.Exn + string :=
  match Py.index (Py.split1 ":"%char input_string) 1 with
  | inl e => inl e
  | inr value =>
      inr (Py.strip (Py.remove_all (String Py.dquote EmptyString) value))
  end.

(** The name [renaming_to_handled_error] gives a directory, [None] when
    it leaves the directory alone. *)
Definition handled_error_name (n : string) : option string :=
  if Py.startswith (stem n) "handled_error" then None
  else if Py.startswith (stem n) "inferred"
  then Some ("handled_error_" ++ Py.remove_all "inferred_" n)
  else Some ("handled_error_" ++ Py.remove_all "error_" n).

(** [AiDir.renaming_to_handled_error]: every exception of the rename is
    caught and logged. *)
Definition renaming_to_handled_error (d : AiDir) : M World AiDir :=
  match handled_error_name (path d) with
  | None => ret d
  | Some new_name =>
      w <- get ;;
      match os_rename (path d) new_name (dirs w) with
      | inr ds' => put (set_dirs ds' w) ;;; ret (with_path new_name d)
      | inl _ => ret d
      end
  end.

Definition is_dcm (file : string) : bool := Py.endswith file ".dcm".

(** The messages of [initiate_sending_struct]: no [dcmoutput] folder,
    no [.dcm] file in it, more than one. *)
Definition no_folder_message : string :=
  "ERROR 4.01 No RTStruct generated from inference".

Definition no_struct_message : string :=
  "ERROR 4.01 No RTStruct found after inference".

Definition too_many_message : string :=
  "ERROR 4.02 Too many RTStructs found after inference".

Section Worker.

Variable config : ReturnserviceConfig.
Variable oracle : Oracle.

(** [AiDir.delete_sent_folder]: every exception of [rmtree] is caught
    and logged. *)
Definition delete_sent_folder (d : AiDir) : M World unit :=
  try_except (rmtree (rmtree_keeps oracle (path d)) (path d)) any_exn
    (fun _ => ret tt).

(** The loop of [AiDir.get_all_returns] over the lines of the
    configuration file. *)
Fixpoint collect_returns (lines : list string) (nodes dirs_ : Groups)
  : Py.Exn + (Groups * Groups) :=
  match lines with
  | [] => inr (nodes, dirs_)
  | line :: rest =>
      if Py.startswith line (return_dicom_str config) then
        match parse_string_for_variable_name line,
              parse_string_for_value line with
        | inr (number, value), inr v =>
            collect_returns rest (set_nested number value v nodes) dirs_
        | inl e, _ => inl e
        | _, inl e => inl e
        end
      else if Py.startswith line (return_directory_str config) then
        match parse_string_for_variable_name line,
              parse_string_for_value line with
        | inr (number, value), inr v =>
            collect_returns rest nodes (set_nested number value v dirs_)
        | inl e, _ => inl e
        | _, inl e => inl e
        end
      else collect_returns rest nodes dirs_
  end.

(** [AiDir.get_all_returns]. *)
Definition get_all_returns (lines : list string) (d : AiDir)
  : Py.Exn + AiDir :=
  match collect_returns lines [] [] with
  | inl e => inl e
  | inr (nodes, dirs_) => inr (with_returns nodes dirs_ d)
  end.

Definition is_empty {V} (d : option (list V)) : bool :=
  match d with
  | Some (_ :: _) => false
  | _ => true
  end.

(** [AiDir.load]. *)
Definition load (d : AiDir) : M World AiDir :=
  w <- get ;;
  match find_dir (path d) (dirs w) with
  | None => ret (with_valid false d)
  | Some f =>
      match ai_config f with
      | None =>
          d1 <- renaming_to_handled_error d ;; ret (with_valid false d1)
      | Some lines =>
          d1 <- lift (get_all_returns lines d) ;;
          if andb (is_empty (return_dicom_node_dict d1))
                  (is_empty (return_directory_dict d1))
          then d2 <- renaming_to_handled_error d1 ;; ret (with_valid false d2)
          else ret (with_valid true d1)
      end
  end.

(** [AiDir.copy_file_to_dir]. *)
Definition copy_file_to_dir (file_path : File) (return_dir : Path)
    (scan : bool) (d : AiDir) : M World AiDir :=
  let return_dir_censored := censor_pt_id return_dir in
  emit (Log ("Copying " ++ fname file_path ++ " to " ++ return_dir_censored)) ;;;
  emit (Copy file_path (path_str return_dir)) ;;;
  match copy2 oracle file_path (path_str return_dir) with
  | None =>
      (if scan then ret tt
       else emit (Log ("Successfully copied RTStruct to "
                         ++ return_dir_censored))) ;;;
      ret d
  | Some Py.FileNotFoundError =>
      emit (Log ("FileNotFoundError. Possibly invalid return directory. "
                   ++ "Failed to copy " ++ fname file_path ++ " to "
                   ++ return_dir_censored)) ;;;
      ret (failed d)
  | Some _ =>
      emit (Log ("Failed to copy " ++ fname file_path ++ " to "
                   ++ return_dir_censored ++ ".")) ;;;
      ret (failed d)
  end.

(** [os.listdir(self.dcm_scan_path)] filtered on [.dcm]. *)
Definition scan_files (w : World) (d : AiDir) : Py.Exn + list string :=
  match find_dir (path d) (dirs w) with
  | Some f => match dcminput f with
              | Some files => inr (filter is_dcm files)
              | None => inl Py.FileNotFoundError
              end
  | None => inl Py.FileNotFoundError
  end.

(** [AiDir.copy_scan_to_dir]. *)
Definition copy_scan_to_dir (return_dir : Path) (d : AiDir) : M World AiDir :=
  let return_dir_censored := censor_pt_id return_dir in
  w <- get ;;
  match scan_files w d with
  | inl _ =>
      emit (Log ("Error when attempting to load in dcm files from "
                   ++ path d ++ "\dcminput. Cannot copy scan to "
                   ++ return_dir_censored ++ ".")) ;;;
      ret (failed d)
  | inr dicom_files =>
      d1 <- for_each dicom_files
              (fun dcm d0 =>
                 copy_file_to_dir
                   {| job := path d; place := InDcmInput; fname := dcm |}
                   return_dir true d0) d ;;
      emit (Log ("Finished copying scan to " ++ return_dir_censored)) ;;;
      ret d1
  end.

(** The three keys of a network return address and the association made
    with them; [inl] is an exception of the [try] block of [send_struct]
    or [send_scan] raised before [ae.associate] is called. *)
Definition node_address (prefix : string) (return_address : Dict)
  : Py.Exn + (string * Z * string) :=
  match dict_get (prefix ++ "IP") return_address with
  | inl e => inl e
  | inr ip =>
      match dict_get (prefix ++ "Port") return_address with
      | inl e => inl e
      | inr port_text =>
          match Py.int port_text with
          | inl e => inl e
          | inr port =>
              match dict_get (prefix ++ "AET") return_address with
              | inl e => inl e
              | inr aet => inr (ip, port, aet)
              end
          end
      end
  end.

(** [AiDir.send_struct]. *)
Definition send_struct (struct_path : File) (return_address : Dict)
    (d : AiDir) : M World AiDir :=
  match node_address (return_dicom_str config) return_address with
  | inl _ => ret (failed d)
  | inr (ip, port, aet) =>
      emit (Associate ip port aet
              (is_established (associate oracle ip port aet))) ;;;
      match associate oracle ip port aet with
      | AssocRaises _ => ret (failed d)
      | AssocRejected => ret (failed d)
      | AssocEstablished =>
          match dcmread oracle struct_path with
          | Some e =>
              if Py.is_OSError e
              then emit (Release ip port aet) ;;; ret (failed d)
              else raise e
          | None =>
              emit (CStore ip port aet struct_path) ;;;
              match send_c_store oracle ip port aet struct_path with
              | StoreRaises e => raise e
              | StoreStatus true => emit (Release ip port aet) ;;; ret d
              | StoreStatus false =>
                  emit (Release ip port aet) ;;; ret (failed d)
              end
          end
      end
  end.

(** [AiDir.send_scan]: the keys of the address are spelled out in the
    source. *)
Definition send_scan (return_address : Dict) (d : AiDir) : M World AiDir :=
  match node_address "ReturnDicomNode" return_address with
  | inl _ => ret (failed d)
  | inr (ip, port, aet) =>
      emit (Associate ip port aet
              (is_established (associate oracle ip port aet))) ;;;
      match associate oracle ip port aet with
      | AssocRaises _ => ret (failed d)
      | AssocRejected => ret (failed d)
      | AssocEstablished =>
          w <- get ;;
          match scan_files w d with
          | inl _ => emit (Release ip port aet) ;;; ret (failed d)
          | inr dicom_files =>
              d1 <- for_each dicom_files
                      (fun dcm d0 =>
                         let dcm_path :=
                           {| job := path d; place := InDcmInput;
                              fname := dcm |} in
                         match dcmread oracle dcm_path with
                         | Some e => raise e
                         | None =>
                             emit (CStore ip port aet dcm_path) ;;;
                             match send_c_store oracle ip port aet dcm_path with
                             | StoreStatus true => ret d0
                             | StoreStatus false => ret (failed d0)
                             | StoreRaises _ => ret (failed d0)
                             end
                         end) d ;;
              emit (Release ip port aet) ;;;
              ret d1
          end
      end
  end.

(** [json.loads(group[key].lower())] under [try ... except: False]. *)
Definition send_scan_flag (key : string) (group : Dict) : bool :=
  match dict_get key group with
  | inr text => json_true oracle (Py.lower text)
  | inl _ => false
  end.

(** The body of the first loop of [send_struct_to_all_returns]. *)
Definition send_to_directory (struct_path : File) (return_dir_dict : Dict)
    (d : AiDir) : M World AiDir :=
  patient <- lift (patient_id oracle struct_path) ;;
  return_directory_v1 <-
    lift (dict_get (return_directory_str config) return_dir_dict) ;;
  let return_directory := join_path return_directory_v1 patient in
  w <- get ;;
  made <-
    (if existsb (String.eqb (path_str return_directory)) (return_shares w)
     then ret true
     else
       emit (Mkdir (path_str return_directory)) ;;;
       match mkdir oracle (path_str return_directory) with
       | None => add_share (path_str return_directory) ;;; ret true
       | Some Py.FileNotFoundError =>
           emit (Log ("FileNotFoundError: could not create folder for DCM "
                        ++ "file(s) in " ++ return_directory_v1)) ;;;
           ret false
       | Some e => raise e
       end) ;;
  if negb made then ret (failed d)
  else
    d1 <- copy_file_to_dir struct_path return_directory false d ;;
    if send_scan_flag (return_directory_str config ++ "SendScan")
         return_dir_dict
    then copy_scan_to_dir return_directory d1
    else ret d1.

(** The body of the second loop of [send_struct_to_all_returns]. *)
Definition send_to_node (struct_path : File) (return_dicom_node : Dict)
    (d : AiDir) : M World AiDir :=
  d1 <- send_struct struct_path return_dicom_node d ;;
  if send_scan_flag (return_dicom_str config ++ "SendScan") return_dicom_node
  then send_scan return_dicom_node d1
  else ret d1.

Definition groups_of (g : option Groups) : M World (list Dict) :=
  match g with
  | Some groups => ret (values groups)
  | None => raise Py.AttributeError
  end.

(** The two loops of [send_struct_to_all_returns]. *)
Definition fan_out (struct_path : File) (d : AiDir) : M World AiDir :=
  directories <- groups_of (return_directory_dict d) ;;
  d1 <- for_each directories (send_to_directory struct_path) d ;;
  nodes <- groups_of (return_dicom_node_dict d1) ;;
  for_each nodes (send_to_node struct_path) d1.

(** [AiDir.send_struct_to_all_returns]. *)
Definition send_struct_to_all_returns (struct_path : File) (error : bool)
    (d : AiDir) : M World AiDir :=
  d1 <- fan_out struct_path d ;;
  if error then ret d1
  else if transmission_failed d1 then renaming_to_handled_error d1
  else delete_sent_folder d1 ;;; ret d1.

(** [AiDir.archive_struct]: whatever happens inside is caught. *)
Definition archive_struct (struct_path : File) : M World unit :=
  if archive_copies oracle struct_path then emit (Archive struct_path)
  else ret tt.

(** [AiDir.create_error_struct]: the path of the placeholder written
    to the job directory, or [None]. *)
Definition create_error_struct (d : AiDir) : M World (option File) :=
  w <- get ;;
  match find_dir (path d) (dirs w) with
  | None => ret None
  | Some f =>
      if error_struct_saved oracle (path d) (error_message d) then
        put (set_dirs
               (update_dir (path d)
                  (create_root_file "rtstruct_temp.dcm" (clock w))
                  (dirs w)) w) ;;;
        ret (Some {| job := path d; place := InRoot;
                     fname := "rtstruct_temp.dcm" |})
      else ret None
  end.

(** [AiDir.adjust_rtstruct_dicom_information]: the structure set is
    saved under its new name, then [os.remove] takes the old file
    away. *)
Definition adjust_rtstruct_dicom_information (filepath : File)
  : M World File :=
  digits <- lift (sop_instance_digits oracle filepath) ;;
  let new_name :=
    "rtstruct_" ++ "1.2.826.0.1.3680043.9.7225." ++ Py.take 30 digits
      ++ ".dcm" in
  w <- get ;;
  put (set_dirs
         (update_dir (job filepath) (create_root_file new_name (clock w))
            (dirs w)) w) ;;;
  w1 <- get ;;
  match find_dir (job filepath) (dirs w1) with
  | Some f =>
      if existsb (String.eqb (fname filepath)) (root_files f)
      then put (set_dirs
                  (update_dir (job filepath)
                     (remove_root_file (fname filepath) (clock w1))
                     (dirs w1)) w1)
      else raise Py.FileNotFoundError
  | None => raise Py.FileNotFoundError
  end ;;;
  ret {| job := job filepath; place := InRoot; fname := new_name |}.

(** [AiDir.handle_error]. *)
Definition handle_error (d : AiDir) : M World AiDir :=
  w <- get ;;
  match find_dir (path d) (dirs w) with
  | Some {| dcminput := Some _ |} =>
      error_struct_path <- create_error_struct d ;;
      d1 <- match error_struct_path with
            | Some p =>
                p' <- adjust_rtstruct_dicom_information p ;;
                send_struct_to_all_returns p' true d
            | None => ret d
            end ;;
      renaming_to_handled_error d1
  | _ => renaming_to_handled_error d
  end.

(** [AiDir.initiate_sending_struct]. *)
Definition initiate_sending_struct (d : AiDir) : M World AiDir :=
  w <- get ;;
  match find_dir (path d) (dirs w) with
  | Some {| dcmoutput := Some files |} =>
      match filter is_dcm files with
      | [struct] =>
          let struct_path :=
            {| job := path d; place := InDcmOutput; fname := struct |} in
          (if andb (do_archive config) (archive_directory_exists oracle)
           then archive_struct struct_path else ret tt) ;;;
          send_struct_to_all_returns struct_path false d
      | [] => handle_error (with_error_message no_struct_message d)
      | _ => handle_error (with_error_message too_many_message d)
      end
  | _ => handle_error (with_error_message no_folder_message d)
  end.

(** [AiDir.set_error_message]. *)
Definition set_error_message (d : AiDir) : M World (bool * AiDir) :=
  w <- get ;;
  match find_dir (path d) (dirs w) with
  | Some {| error_lines := Some (first :: _) |} =>
      ret (true, with_error_message first d)
  | _ => d1 <- renaming_to_handled_error d ;; ret (false, d1)
  end.

(** [AiSharedDir.delete_old_folder]; ages are compared in whole
    seconds. *)
Definition delete_old_folder (f : string) : M World unit :=
  w <- get ;;
  match find_dir f (dirs w) with
  | None => raise Py.FileNotFoundError
  | Some folder =>
      if days_before_deletion config * 86400 <? clock w - st_mtime folder
      then try_except (rmtree (rmtree_keeps oracle f) f) any_exn
             (fun _ => ret tt)
      else ret tt
  end.

Definition is_inferred_name (n : string) : bool :=
  Py.startswith (Py.lower n) "inferred_".

Definition is_error_name (n : string) : bool :=
  Py.startswith (Py.lower n) "error_".

Definition is_handled_error_name (n : string) : bool :=
  Py.startswith (Py.lower n) "handled_error".

(** The body of the loop of [AiSharedDir.scan_directory] for one entry
    of the listing. *)
Definition visit (f : string) : M World unit :=
  w <- get ;;
  match find_dir f (dirs w) with
  | None => ret tt
  | Some _ =>
      (if is_inferred_name f then
         d <- load (new_AiDir f) ;;
         if valid d then _ <- initiate_sending_struct d ;; ret tt else ret tt
       else ret tt) ;;;
      (if is_error_name f then
         d <- load (new_AiDir f) ;;
         if valid d then
           r <- set_error_message d ;;
           if fst r then _ <- handle_error (snd r) ;; ret tt else ret tt
         else ret tt
       else ret tt) ;;;
      (if is_handled_error_name f then delete_old_folder f else ret tt)
  end.

(** [AiSharedDir.scan_directory], over the listing taken when the loop
    starts. *)
Definition scan_directory : M World unit :=
  w <- get ;;
  for_each (map name (dirs w)) (fun f _ => visit f) tt.

(** How [returnservice_worker] returns: the stop event was set, or an
    exception reached [except Exception] and ended the loop. *)
Inductive WorkerExit :=
| Stopped
| Crashed (e : Py.Exn) (rounds_completed : nat).

(** [returnservice_worker], for a stop event set after [rounds] scans. *)
Fixpoint worker_from (completed rounds : nat) (w : World)
  : WorkerExit * World :=
  match rounds with
  | O => (Stopped, w)
  | S k =>
      match scan_directory w with
      | Done _ w' => worker_from (S completed) k w'
      | Raised e w' => (Crashed e completed, w')
      end
  end.

Definition returnservice_worker (rounds : nat) (w : World)
  : WorkerExit * World :=
  worker_from 0 rounds w.

(** ** When the transmission to a destination succeeds *)

(** [shutil.copy2(f, dest)] returns. *)
Definition copied (f : File) (dest : string) : bool :=
  is_none (copy2 oracle f dest).

(** Every source image of the job is copied to [dest]. *)
Definition scan_copied (w : World) (d : AiDir) (dest : string) : bool :=
  match scan_files w d with
  | inr files =>
      forallb (fun dcm =>
                 copied {| job := path d; place := InDcmInput; fname := dcm |}
                   dest) files
  | inl _ => false
  end.

(** The folder [dir] of a return share is there or [os.mkdir] makes
    it. *)
Definition folder_there (w : World) (dir : string) : bool :=
  orb (existsb (String.eqb dir) (return_shares w)) (is_none (mkdir oracle dir)).

(** The transmission to the return share of the group [g] succeeds: the
    patient folder is there or is made, the structure set is copied into
    it and, when the share asks for the scan, so is every source
    image. *)
Definition share_succeeds (struct_path : File) (w : World) (d : AiDir)
    (g : Dict) : bool :=
  match patient_id oracle struct_path,
        dict_get (return_directory_str config) g with
  | inr patient, inr return_directory_v1 =>
      let dir := path_str (join_path return_directory_v1 patient) in
      andb (folder_there w dir)
        (andb (copied struct_path dir)
           (if send_scan_flag (return_directory_str config ++ "SendScan") g
            then scan_copied w d dir else true))
  | _, _ => false
  end.

(** The file [f] is read and the receiver answers its store with a
    status that is true in a condition. *)
Definition stored (ip : string) (port : Z) (aet : string) (f : File) : bool :=
  andb (is_none (dcmread oracle f))
       (match send_c_store oracle ip port aet f with
        | StoreStatus true => true
        | _ => false
        end).

(** The structure set reaches the receiver of the group [g]. *)
Definition struct_stored (struct_path : File) (g : Dict) : bool :=
  match node_address (return_dicom_str config) g with
  | inr (ip, port, aet) =>
      andb (is_established (associate oracle ip port aet))
           (stored ip port aet struct_path)
  | inl _ => false
  end.

(** Every source image of the job reaches the receiver of the group
    [g]. *)
Definition scan_stored (w : World) (d : AiDir) (g : Dict) : bool :=
  match node_address "ReturnDicomNode" g with
  | inr (ip, port, aet) =>
      andb (is_established (associate oracle ip port aet))
           (match scan_files w d with
            | inr files =>
                forallb (fun dcm =>
                           stored ip port aet
                             {| job := path d; place := InDcmInput;
                                fname := dcm |}) files
            | inl _ => false
            end)
  | inl _ => false
  end.

(** The transmission to the network receiver of the group [g]
    succeeds: the structure set and, when the receiver asks for the
    scan, every source image is stored on it. *)
Definition node_succeeds (struct_path : File) (w : World) (d : AiDir)
    (g : Dict) : bool :=
  andb (struct_stored struct_path g)
       (if send_scan_flag (return_dicom_str config ++ "SendScan") g
        then scan_stored w d g else true).

(** The transmission succeeds to every return share and every network
    receiver of the job. *)
Definition all_succeed (struct_path : File) (w : World) (d : AiDir)
    (shares nodes : Groups) : bool :=
  andb (forallb (share_succeeds struct_path w d) (values shares))
       (forallb (node_succeeds struct_path w d) (values nodes)).

End Worker.

(** The file an event copies or stores, if it moves one. *)
Definition transmitted (e : Event) : option File :=
  match e with
  | Copy f _ => Some f
  | CStore _ _ _ f => Some f
  | _ => None
  end.

Definition moves_a_file (e : Event) : bool :=
  match transmitted e with Some _ => true | None => false end.

Definition is_associate (e : Event) : bool :=
  match e with Associate _ _ _ _ => true | _ => false end.

(** The calls of [ae.associate] in a trace. *)
Definition associations (t : list Event) : list Event := filter is_associate t.

(** Reading a trace, the association that is established and not yet
    released. *)
Inductive Link :=
| Closed
| Opened (ip : string) (port : Z) (aet : string).

Definition same_node (ip : string) (port : Z) (aet : string)
    (ip' : string) (port' : Z) (aet' : string) : bool :=
  andb (String.eqb ip ip') (andb (Z.eqb port port') (String.eqb aet aet')).

(** One event: an association is asked for only while none is open;
    while one is open nothing happens but stores on it, then its
    release. *)
Definition link_step (l : Link) (e : Event) : option Link :=
  match l, e with
  | Closed, Associate ip port aet established =>
      Some (if established then Opened ip port aet else Closed)
  | Closed, CStore _ _ _ _ => None
  | Closed, Release _ _ _ => None
  | Closed, _ => Some Closed
  | Opened ip port aet, CStore ip' port' aet' _ =>
      if same_node ip port aet ip' port' aet' then Some l else None
  | Opened ip port aet, Release ip' port' aet' =>
      if same_node ip port aet ip' port' aet' then Some Closed else None
  | Opened _ _ _, _ => None
  end.

Fixpoint link_run (l : Link) (t : list Event) : option Link :=
  match t with
  | [] => Some l
  | e :: r =>
      match link_step l e with
      | Some l' => link_run l' r
      | None => None
      end
  end.

(** Every established association of the trace carried stores only and
    was released right after the last of them. *)
Definition associations_released (t : list Event) : bool :=
  match link_run Closed t with
  | Some Closed => true
  | _ => false
  end.

(** The events of one session: the call of [associate], its outcome,
    the files stored, the release. *)
Definition session (ip : string) (port : Z) (aet : string)
    (established : bool) (files : list File) : list Event :=
  Associate ip port aet established
  :: (if established
      then map (CStore ip port aet) files ++ [Release ip port aet]
      else [])%list.

(** 1 if the group holds the three keys of a network address under
    [prefix] and a port that [int] accepts, else 0. *)
Definition resolves (prefix : string) (return_address : Dict) : nat :=
  match node_address prefix return_address with
  | inr _ => 1%nat
  | inl _ => 0%nat
  end.

(** A folder without regard to the files lying directly in it and to
    its modification time. *)
Definition shell (f : Folder) : Folder := with_root [] 0 f.

(** Whether Windows lets the directory [f] take the name [new]. *)
Definition can_rename (f : Folder) (new : string) (ds : list Folder) : bool :=
  andb (negb (in_use f))
       (match find_dir new ds with None => true | Some _ => false end).

(** [w'] comes after [w] by writes into the directory [n] at time
    [now]: files lying directly in it came or went, and its modification
    time is the old one or [now]; nothing else changed. *)
Definition written_to (n : string) (now : Z) (w w' : World) : Prop :=
  trace w' = trace w /\ clock w' = clock w /\
  return_shares w' = return_shares w /\
  exists g, dirs w' = update_dir n g (dirs w) /\
            (forall x, shell (g x) = shell x) /\
            (forall x, st_mtime (g x) = st_mtime x \/ st_mtime (g x) = now).

(** A trace that moves files of [P] only. *)
Definition moves_only (P : File -> Prop) (t : list Event) : Prop :=
  Forall (fun e => forall f, transmitted e = Some f -> P f) t.

(** [w'] comes after [w] by events alone: the scan directory and the
    clock are the same, the trace has grown by events that move files
    of [P] only. *)
Definition extends (P : File -> Prop) (w w' : World) : Prop :=
  dirs w' = dirs w /\ clock w' = clock w /\
  exists t, trace w' = (trace w ++ t)%list /\ moves_only P t.

(** The outcome of a computation started in [w]: it returned a value
    of [Q], or it raised; either way the world only grew. *)
Definition run_ok (P : File -> Prop) {A} (w : World) (Q : A -> Prop)
    (o : Outcome World A) : Prop :=
  match o with
  | Done a w' => extends P w w' /\ Q a
  | Raised _ w' => extends P w w'
  end.

(** The flag of a job is only ever raised. *)
Definition flagged (d d' : AiDir) : Prop := d' = d \/ d' = failed d.

(** [d] after a step that went well or not. *)
Definition mark (ok : bool) (d : AiDir) : AiDir :=
  if ok then d else failed d.

(** The worlds a transmission started in [w0] passes through: the scan
    directory and the clock are those of [w0]; the folders on the return
    shares are those of [w0] and folders that [os.mkdir] made. *)
Definition underway (oracle : Oracle) (w0 w : World) : Prop :=
  dirs w = dirs w0 /\ clock w = clock w0 /\
  (forall x, In x (return_shares w0) -> In x (return_shares w)) /\
  (forall x, In x (return_shares w) ->
             In x (return_shares w0) \/ mkdir oracle x = None).

(** A step of a transmission ended: it returned the job marked by
    [ok], in a world [Inv] holds of, or it raised, and then [ok] is
    false. *)
Definition settles (ok : bool) (Inv : World -> Prop) (d : AiDir)
    (o : Outcome World AiDir) : Prop :=
  match o with
  | Done d' w' => d' = mark ok d /\ Inv w'
  | Raised _ _ => ok = false
  end.

(** The event [e] was made between [w] and [w']. *)
Definition made_since (w w' : World) (e : Event) : Prop :=
  exists t, trace w' = (trace w ++ t)%list /\ In e t.

(** What a round for a return share leaves in the trace: the call of
    [os.mkdir] for the patient folder or the copy of the structure set
    into it. *)
Definition share_reached (config : ReturnserviceConfig) (oracle : Oracle)
    (struct_path : File) (g : Dict) (w w' : World) : Prop :=
  exists patient v1,
    patient_id oracle struct_path = inr patient /\
    dict_get (return_directory_str config) g = inr v1 /\
    (made_since w w' (Mkdir (path_str (join_path v1 patient))) \/
     made_since w w'
       (Copy struct_path (path_str (join_path v1 patient)))).

(** What a round for a network receiver leaves in the trace: the call
    of [ae.associate], when the group holds a complete address. *)
Definition node_reached (config : ReturnserviceConfig) (g : Dict)
    (w w' : World) : Prop :=
  forall ip port aet,
    node_address (return_dicom_str config) g = inr (ip, port, aet) ->
    exists established, made_since w w' (Associate ip port aet established).

(** The trace of [w'] is that of [w] followed by events that move no
    file of [dcmoutput]. *)
Definition nothing_from_dcmoutput (w w' : World) : Prop :=
  exists t, trace w' = (trace w ++ t)%list /\
            moves_only (fun x => in_dcmoutput x = false) t.


(** ** Notions used to state what the worker does *)

(** [d[number][value]]. *)
Definition nested_get (number value : string) (d : Groups)
  : Py.Exn + string :=
  match dict_get number d with
  | inr inner => dict_get value inner
  | inl e => inl e
  end.

(** A line of a job's configuration file that [get_all_returns]
    reads. *)
Definition is_return_line (config : ReturnserviceConfig) (line : string)
  : bool :=
  orb (Py.startswith line (return_dicom_str config))
      (Py.startswith line (return_directory_str config)).

(** The names [scan_directory] acts on. *)
Definition is_own_name (n : string) : bool :=
  orb (is_inferred_name n) (orb (is_error_name n) (is_handled_error_name n)).

(** [w'] still holds every directory of [w] whose name is not one of
    [Own], as it was. *)
Definition keeps (Own : string -> Prop) (w w' : World) : Prop :=
  forall g, In g (dirs w) -> ~ Own (name g) -> In g (dirs w').

(** ** The folder [archive_struct] archives to *)

(** [f'{i:02d}'] for [i >= 0]. *)
Definition fmt_02d (i : Z) : string :=
  if i <? 10 then "0" ++ Py.decimal i else Py.decimal i.

(** [struct_archive_directory_base_name]: the day as [%Y%m%d] and the
    patient ID, [Unknown] when the ID is [None] or empty. *)
Definition struct_archive_directory_base_name (today : string)
    (patient_id : option string) : string :=
  today ++ "_" ++ match patient_id with
                  | None | Some EmptyString => "Unknown"
                  | Some p => p
                  end.

(** The [while] loop of [archive_struct] over the names that exist in
    the archive directory: [p] is the candidate, [i] the number the next
    candidate gets; [fuel] bounds the number of tests. *)
Fixpoint archive_loop (exists_ : string -> bool) (base : string)
    (fuel : nat) (i : Z) (p : string) : option string :=
  match fuel with
  | O => None
  | S k =>
      if exists_ p
      then archive_loop exists_ base k (i + 1) (base ++ "_" ++ fmt_02d i)
      else Some p
  end.

(** The name of the folder [archive_struct] creates. *)
Definition struct_archive_path (exists_ : string -> bool) (today : string)
    (patient_id : option string) (fuel : nat) : option string :=
  let base := struct_archive_directory_base_name today patient_id in
  archive_loop exists_ base fuel 1 (base ++ "_" ++ fmt_02d 1).


End ReturnService.

(* ================================================================== *)
(** * Concrete scan directories and hosts *)
(* ================================================================== *)

Module Scenario.

(** [text] between double quotes. *)
Definition quoted (text : string) : string :=
  String Py.dquote (text ++ String Py.dquote EmptyString).

(** ** For the watchdog *)

Definition watchdog_config : Watchdog.WatchdogConfig :=
  {| Watchdog.scan_directory_str := "D:\shared";
     Watchdog.scan_interval := 5;
     Watchdog.ai_config_filename := "aiconfig.txt";
     Watchdog.inference_script_path_str := "D:\inference\main.py";
     Watchdog.max_restarts := 5;
     Watchdog.max_restart_window_sec := 360;
     Watchdog.dry_run := false |}.

(** A job directory whose configuration file gives [level] between
    quotes, last modified at [mtime]. *)
Definition ready_job (n level : string) (mtime : Z) : Watchdog.Folder :=
  {| Watchdog.name := n;
     Watchdog.error_txt := None;
     Watchdog.ai_config :=
       Some ["ModelName:" ++ quoted "Prostate"; "NiceLevel:" ++ quoted level];
     Watchdog.st_mtime := mtime;
     Watchdog.in_use := false |}.

Definition watchdog_world (ds : list Watchdog.Folder) : Watchdog.World :=
  {| Watchdog.dirs := ds; Watchdog.utc_offset := 0;
     Watchdog.launched := []; Watchdog.can_spawn := true |}.

(** Priorities [10, 1, 1]; the second job was modified on Friday
    7 November 2025 at 10:00 UTC, the third one day earlier, on Thursday
    6 November at 10:00. *)
Definition three_ready : Watchdog.World :=
  watchdog_world
    [ready_job "ready_A" "10" 1762335000;
     ready_job "ready_B" "1" 1762509600;
     ready_job "ready_C" "1" 1762423200].

(** One ready job whose level is written without quotes. *)
Definition unquoted_level : Watchdog.World :=
  watchdog_world
    [{| Watchdog.name := "ready_A";
        Watchdog.error_txt := None;
        Watchdog.ai_config :=
          Some ["ModelName:" ++ quoted "Prostate"; "NiceLevel:5"];
        Watchdog.st_mtime := 0;
        Watchdog.in_use := false |}].

(** ** For the return service *)

Definition return_config : ReturnService.ReturnserviceConfig :=
  {| ReturnService.scan_directory_str := "D:\shared";
     ReturnService.ai_config_filename := "aiconfig.txt";
     ReturnService.error_file := "error.txt";
     ReturnService.ae_title := "OUH_AI";
     ReturnService.return_dicom_str := "ReturnDicomNode";
     ReturnService.return_directory_str := "ReturnDirectory";
     ReturnService.days_before_deletion := 30;
     ReturnService.do_archive := false;
     ReturnService.archive_directory_str := "" |}.

(** Hosts and libraries that never fail. *)
Definition all_fine : ReturnService.Oracle :=
  {| ReturnService.patient_id := fun _ => inr "0101701234";
     ReturnService.mkdir := fun _ => None;
     ReturnService.copy2 := fun _ _ => None;
     ReturnService.associate := fun _ _ _ => ReturnService.AssocEstablished;
     ReturnService.dcmread := fun _ => None;
     ReturnService.send_c_store :=
       fun _ _ _ _ => ReturnService.StoreStatus true;
     ReturnService.json_true := fun text => String.eqb text "true";
     ReturnService.archive_directory_exists := false;
     ReturnService.archive_copies := fun _ => true;
     ReturnService.error_struct_saved := fun _ _ => true;
     ReturnService.sop_instance_digits := fun _ => inr "314159265358979";
     ReturnService.rmtree_keeps := fun _ _ => true |}.

(** As [all_fine], for structure sets of the patient [7]. *)
Definition patient_seven : ReturnService.Oracle :=
  {| ReturnService.patient_id := fun _ => inr "7";
     ReturnService.mkdir := ReturnService.mkdir all_fine;
     ReturnService.copy2 := ReturnService.copy2 all_fine;
     ReturnService.associate := ReturnService.associate all_fine;
     ReturnService.dcmread := ReturnService.dcmread all_fine;
     ReturnService.send_c_store := ReturnService.send_c_store all_fine;
     ReturnService.json_true := ReturnService.json_true all_fine;
     ReturnService.archive_directory_exists := false;
     ReturnService.archive_copies := ReturnService.archive_copies all_fine;
     ReturnService.error_struct_saved :=
       ReturnService.error_struct_saved all_fine;
     ReturnService.sop_instance_digits :=
       ReturnService.sop_instance_digits all_fine;
     ReturnService.rmtree_keeps := ReturnService.rmtree_keeps all_fine |}.

(** As [all_fine]; [rmtree] on a directory that is held removes the
    configuration file and is refused at the next entry. *)
Definition refused_after_config : ReturnService.Oracle :=
  {| ReturnService.patient_id := ReturnService.patient_id all_fine;
     ReturnService.mkdir := ReturnService.mkdir all_fine;
     ReturnService.copy2 := ReturnService.copy2 all_fine;
     ReturnService.associate := ReturnService.associate all_fine;
     ReturnService.dcmread := ReturnService.dcmread all_fine;
     ReturnService.send_c_store := ReturnService.send_c_store all_fine;
     ReturnService.json_true := ReturnService.json_true all_fine;
     ReturnService.archive_directory_exists := false;
     ReturnService.archive_copies := ReturnService.archive_copies all_fine;
     ReturnService.error_struct_saved :=
       ReturnService.error_struct_saved all_fine;
     ReturnService.sop_instance_digits :=
       ReturnService.sop_instance_digits all_fine;
     ReturnService.rmtree_keeps :=
       fun _ e => match e with
                  | ReturnService.ConfigFile => false
                  | _ => true
                  end |}.

(** As [all_fine], but the return share refuses every copy. *)
Definition share_down : ReturnService.Oracle :=
  {| ReturnService.patient_id := ReturnService.patient_id all_fine;
     ReturnService.mkdir := ReturnService.mkdir all_fine;
     ReturnService.copy2 := fun _ _ => Some Py.PermissionError;
     ReturnService.associate := ReturnService.associate all_fine;
     ReturnService.dcmread := ReturnService.dcmread all_fine;
     ReturnService.send_c_store := ReturnService.send_c_store all_fine;
     ReturnService.json_true := ReturnService.json_true all_fine;
     ReturnService.archive_directory_exists := false;
     ReturnService.archive_copies := ReturnService.archive_copies all_fine;
     ReturnService.error_struct_saved :=
       ReturnService.error_struct_saved all_fine;
     ReturnService.sop_instance_digits :=
       ReturnService.sop_instance_digits all_fine;
     ReturnService.rmtree_keeps := ReturnService.rmtree_keeps all_fine |}.

(** As [all_fine], but the store on the receiver at 10.0.0.1 raises,
    as [send_c_store] does when the receiver accepted no presentation
    context for the data set. *)
Definition first_store_raises : ReturnService.Oracle :=
  {| ReturnService.patient_id := ReturnService.patient_id all_fine;
     ReturnService.mkdir := ReturnService.mkdir all_fine;
     ReturnService.copy2 := ReturnService.copy2 all_fine;
     ReturnService.associate := ReturnService.associate all_fine;
     ReturnService.dcmread := ReturnService.dcmread all_fine;
     ReturnService.send_c_store :=
       fun ip _ _ _ =>
         if String.eqb ip "10.0.0.1"
         then ReturnService.StoreRaises Py.ValueError
         else ReturnService.StoreStatus true;
     ReturnService.json_true := ReturnService.json_true all_fine;
     ReturnService.archive_directory_exists := false;
     ReturnService.archive_copies := ReturnService.archive_copies all_fine;
     ReturnService.error_struct_saved :=
       ReturnService.error_struct_saved all_fine;
     ReturnService.sop_instance_digits :=
       ReturnService.sop_instance_digits all_fine;
     ReturnService.rmtree_keeps := ReturnService.rmtree_keeps all_fine |}.

Definition to_one_share : list string :=
  ["ModelName:" ++ quoted "Prostate";
   "ReturnDirectory_1:" ++ quoted "\\srv\returns"].

Definition to_one_node_with_scan : list string :=
  ["ModelName:" ++ quoted "Prostate";
   "ReturnDicomNodeIP_1:" ++ quoted "10.0.0.1";
   "ReturnDicomNodePort_1:" ++ quoted "104";
   "ReturnDicomNodeAET_1:" ++ quoted "PACS";
   "ReturnDicomNodeSendScan_1:" ++ quoted "True"].

Definition to_two_nodes : list string :=
  ["ModelName:" ++ quoted "Prostate";
   "ReturnDicomNodeIP_1:" ++ quoted "10.0.0.1";
   "ReturnDicomNodePort_1:" ++ quoted "104";
   "ReturnDicomNodeAET_1:" ++ quoted "PACS";
   "ReturnDicomNodeIP_2:" ++ quoted "10.0.0.2";
   "ReturnDicomNodePort_2:" ++ quoted "104";
   "ReturnDicomNodeAET_2:" ++ quoted "PLANNING"].

(** A job directory with the given configuration lines and listing of
    [dcmoutput], and two source images. *)
Definition job_folder (n : string) (lines output : list string)
  : ReturnService.Folder :=
  {| ReturnService.name := n;
     ReturnService.ai_config := Some lines;
     ReturnService.error_lines := None;
     ReturnService.dcmoutput := Some output;
     ReturnService.dcminput := Some ["ct1.dcm"; "ct2.dcm"];
     ReturnService.root_files := [];
     ReturnService.st_mtime := 0;
     ReturnService.in_use := false |}.

Definition return_world (ds : list ReturnService.Folder)
  : ReturnService.World :=
  {| ReturnService.dirs := ds; ReturnService.return_shares := [];
     ReturnService.clock := 3600; ReturnService.trace := [] |}.

(** The scan directory forty days after its directories were last
    modified. *)
Definition forty_days_later (ds : list ReturnService.Folder)
  : ReturnService.World :=
  {| ReturnService.dirs := ds; ReturnService.return_shares := [];
     ReturnService.clock := 40 * 86400; ReturnService.trace := [] |}.

(** A finished job to be copied to one return share. *)
Definition one_share : ReturnService.World :=
  return_world
    [job_folder "inferred_1.2.840.7" to_one_share ["rtstruct.dcm"]].

(** The same job, its directory held open by another process. *)
Definition one_share_held : ReturnService.World :=
  return_world
    [{| ReturnService.name := "inferred_1.2.840.7";
        ReturnService.ai_config := Some to_one_share;
        ReturnService.error_lines := None;
        ReturnService.dcmoutput := Some ["rtstruct.dcm"];
        ReturnService.dcminput := Some ["ct1.dcm"; "ct2.dcm"];
        ReturnService.root_files := [];
        ReturnService.st_mtime := 0;
        ReturnService.in_use := true |}].

(** The [AiDir] object of that job after [load]. *)
Definition loaded_for_share : ReturnService.AiDir :=
  {| ReturnService.path := "inferred_1.2.840.7";
     ReturnService.valid := true;
     ReturnService.transmission_failed := false;
     ReturnService.return_dicom_node_dict := Some [];
     ReturnService.return_directory_dict :=
       Some [("1", [("ReturnDirectory", "\\srv\returns")])];
     ReturnService.error_message := None |}.

(** The same job without any structure set in [dcmoutput]. *)
Definition empty_output : ReturnService.World :=
  return_world [job_folder "inferred_1.2.840.7" to_one_share []].

(** A finished job next to the quarantined directory of an earlier run
    of the same job. *)
Definition resubmitted : ReturnService.World :=
  return_world
    [job_folder "inferred_1.2.840.7" to_one_share ["rtstruct.dcm"];
     job_folder "handled_error_1.2.840.7" to_one_share ["rtstruct.dcm"]].

(** The same, the finished job having produced no structure set. *)
Definition resubmitted_empty : ReturnService.World :=
  return_world
    [job_folder "inferred_1.2.840.7" to_one_share [];
     job_folder "handled_error_1.2.840.7" to_one_share ["rtstruct.dcm"]].

(** A finished job to be sent, with its source images, to one network
    receiver. *)
Definition one_node_with_scan : ReturnService.World :=
  return_world
    [job_folder "inferred_1.2.840.7" to_one_node_with_scan ["rtstruct.dcm"]].

(** A finished job to be sent to two network receivers. *)
Definition two_nodes : ReturnService.World :=
  return_world
    [job_folder "inferred_1.2.840.7" to_two_nodes ["rtstruct.dcm"]].

End Scenario.

(* ================================================================== *)
(** * Facts about the built-ins *)
(* ================================================================== *)

Section PyFacts.

(** Two prefixes of one string are prefixes of each other, one way or
    the other. *)
Lemma prefix_comparable (p q s : string) :
  String.prefix p s = true -> String.prefix q s = true ->
  String.prefix p q = true \/ String.prefix q p = true.
Proof.
  revert p q; induction s as [|c s IH]; intros p q Hp Hq.
  - destruct p; [|discriminate]. left; destruct q; reflexivity.
  - destruct p as [|a p]; [left; destruct q; reflexivity|].
    destruct q as [|b q]; [right; reflexivity|].
    simpl in *.
    destruct (ascii_dec a c); [subst a|discriminate].
    destruct (ascii_dec b c); [subst b|discriminate].
    destruct (ascii_dec c c); [|congruence].
    apply IH; assumption.
Qed.

Lemma prefix_refl (s : string) : String.prefix s s = true.
Proof.
  induction s as [|c s IH]; simpl; [reflexivity|].
  destruct (ascii_dec c c); congruence.
Qed.

Lemma prefix_app (p r : string) : String.prefix p (p ++ r) = true.
Proof.
  induction p as [|c p IH]; simpl; [destruct r; reflexivity|].
  destruct (ascii_dec c c); congruence.
Qed.

Lemma prefix_split (p s : string) :
  String.prefix p s = true -> exists r, s = p ++ r.
Proof.
  revert s; induction p as [|c p IH]; intros s H.
  - exists s; reflexivity.
  - destruct s as [|a s]; [discriminate|]. simpl in H.
    destruct (ascii_dec c a); [subst a|discriminate].
    destruct (IH _ H) as [r ->]. exists r; reflexivity.
Qed.

Lemma length_app (a b : string) :
  String.length (a ++ b) = (String.length a + String.length b)%nat.
Proof. induction a as [|c a IH]; simpl; [reflexivity|]. now rewrite IH. Qed.

Lemma take_app (p r : string) (j : nat) :
  Py.take (String.length p + j) (p ++ r) = p ++ Py.take j r.
Proof. induction p as [|c p IH]; simpl; [reflexivity|]. now rewrite IH. Qed.

Lemma length_take (j : nat) (s : string) :
  String.length (Py.take j s) = Nat.min j (String.length s).
Proof.
  revert s; induction j as [|j IH]; intros [|c s]; simpl; try reflexivity.
  now rewrite IH.
Qed.

Lemma length_repeat_char (c : ascii) (n : nat) :
  String.length (Py.repeat_char c n) = n.
Proof. induction n as [|n IH]; simpl; [reflexivity|]. now rewrite IH. Qed.

Lemma prefix_take (p s : string) (i : nat) :
  String.prefix p (Py.take i s) = true -> String.prefix p s = true.
Proof.
  revert p s; induction i as [|i IH]; intros p s H.
  - destruct p; [destruct s; reflexivity|]. destruct s; discriminate.
  - destruct s as [|c s]; [exact H|].
    destruct p as [|a p]; [reflexivity|]. simpl in *.
    destruct (ascii_dec a c); [|discriminate]. apply IH; assumption.
Qed.

(** Removing occurrences never lengthens a string. *)
Lemma length_remove_all_from (old : string) (s : string) (skip : nat) :
  (String.length (Py.remove_all_from old skip s) <= String.length s)%nat.
Proof.
  revert skip; induction s as [|c s IH]; intros skip;
    cbn [Py.remove_all_from String.length]; [lia|].
  destruct skip as [|k].
  - destruct (String.prefix old (String c s)).
    + specialize (IH (String.length old - 1)%nat). lia.
    + cbn [String.length]. specialize (IH 0%nat). lia.
  - specialize (IH k). lia.
Qed.

Lemma length_remove_all (old s : string) :
  (String.length (Py.remove_all old s) <= String.length s)%nat.
Proof.
  unfold Py.remove_all. destruct old; [lia|]. apply length_remove_all_from.
Qed.

Lemma append_assoc (a b c : string) : (a ++ b) ++ c = a ++ b ++ c.
Proof.
  induction a as [|x a IH]; cbn [append]; [reflexivity|]. now rewrite IH.
Qed.

Lemma append_inj_l (p a b : string) : p ++ a = p ++ b -> a = b.
Proof.
  induction p as [|c p IH]; simpl; intros H; [exact H|].
  injection H as H. auto.
Qed.

End PyFacts.

(* ================================================================== *)
(** * The watchdog: classification of job directories *)
(* ================================================================== *)

Section Classification.

Import Watchdog.

Lemma pre_validate_state (d : AiDir) (ds : list Folder) :
  state (pre_validate d ds) = state d.
Proof.
  unfold pre_validate.
  destruct (negb (path_exists (path d) ds)); [reflexivity|].
  destruct (state d) eqn:E; simpl; try assumption;
    destruct (negb (ai_config_exists (path d) ds)); simpl; assumption.
Qed.

Lemma new_AiDir_state (f : string) (ds : list Folder) :
  state (new_AiDir f ds) = classify f (error_file_exists f ds).
Proof. unfold new_AiDir. rewrite pre_validate_state. reflexivity. Qed.

(** Distinct prefixes of the table never match the same name. *)
Ltac clash H1 H2 :=
  destruct (prefix_comparable _ _ _ H1 H2) as [K|K]; vm_compute in K;
  discriminate K.

Lemma classify_by_prefix (n : string) (marker : bool) :
  classify n marker = state_by_prefix n marker.
Proof.
  unfold classify, state_by_prefix, prefix_table, Py.startswith.
  destruct marker; [reflexivity|]. simpl.
  destruct (String.prefix "ready_" (Py.lower n)) eqn:Hr;
  destruct (String.prefix "active_" (Py.lower n)) eqn:Ha;
  destruct (String.prefix "error_" (Py.lower n)) eqn:He;
  destruct (String.prefix "receiving_" (Py.lower n)) eqn:Hc;
  destruct (String.prefix "handled_" (Py.lower n)) eqn:Hh;
  destruct (String.prefix "inferred_" (Py.lower n)) eqn:Hi;
  try reflexivity;
  try (clash Hr Ha); try (clash Ha He); try (clash Ha Hc);
  try (clash Ha Hh); try (clash Ha Hi).
Qed.

End Classification.

Section ClassificationClaim.

Import Watchdog.

Ltac split_prefixes n :=
  destruct (String.prefix "ready_" (Py.lower n)) eqn:Hr;
  destruct (String.prefix "active_" (Py.lower n)) eqn:Ha;
  destruct (String.prefix "error_" (Py.lower n)) eqn:He;
  destruct (String.prefix "receiving_" (Py.lower n)) eqn:Hc;
  destruct (String.prefix "handled_" (Py.lower n)) eqn:Hh;
  destruct (String.prefix "inferred_" (Py.lower n)) eqn:Hi.

Ltac clash2 :=
  match goal with
  | H1 : String.prefix ?p ?s = true, H2 : String.prefix ?q ?s = true |- _ =>
      lazymatch p with
      | q => fail
      | _ => destruct (prefix_comparable _ _ _ H1 H2) as [K|K];
             vm_compute in K; discriminate K
      end
  end.

Lemma classify_table_entry (n p : string) (s : AiDirState) :
  In (p, s) prefix_table -> Py.startswith (Py.lower n) p = true ->
  classify n false = s.
Proof.
  unfold prefix_table, Py.startswith; intros Hin Hp.
  unfold classify, Py.startswith.
  simpl in Hin.
  repeat (destruct Hin as [Hin|Hin];
          [injection Hin as <- <-; split_prefixes n;
           try reflexivity; try discriminate; clash2|]).
  contradiction.
Qed.

Lemma classify_no_entry (n : string) :
  (forall p s, In (p, s) prefix_table -> Py.startswith (Py.lower n) p = false) ->
  classify n false = UNKNOWN.
Proof.
  intros H. unfold classify.
  rewrite (H "active_" ACTIVE), (H "ready_" READY), (H "error_" ERROR),
    (H "receiving_" RECEIVING), (H "handled_" HANDLED),
    (H "inferred_" INFERRED); simpl; auto 10.
Qed.

(** C5.  The state the watchdog derives for a sub-directory of the scan
    directory is a function of the lower-cased directory name and of the
    existence of the error marker alone: with a marker the state is
    [ERROR] whatever the name; without one, each of the prefixes
    [ready_], [active_], [error_], [receiving_], [handled_] and
    [inferred_] gives its own state, any other name gives [UNKNOWN]; two
    directories, in any two scan directories and with any contents, whose
    names agree up to case and that agree on the marker get the same
    state. *)
Theorem C5_state_from_prefix_and_marker :
  forall (ds : list Folder) (f : string),
    state (new_AiDir f ds) = state_by_prefix f (error_file_exists f ds) /\
    (error_file_exists f ds = true -> state (new_AiDir f ds) = ERROR) /\
    (error_file_exists f ds = false ->
     forall p s, In (p, s) prefix_table ->
       Py.startswith (Py.lower f) p = true -> state (new_AiDir f ds) = s) /\
    (error_file_exists f ds = false ->
     (forall p s, In (p, s) prefix_table ->
        Py.startswith (Py.lower f) p = false) ->
     state (new_AiDir f ds) = UNKNOWN) /\
    (forall ds' f', Py.lower f' = Py.lower f ->
       error_file_exists f' ds' = error_file_exists f ds ->
       state (new_AiDir f' ds') = state (new_AiDir f ds)).
Proof.
  intros ds f. rewrite new_AiDir_state.
  split; [apply classify_by_prefix|].
  split; [intros ->; reflexivity|].
  split; [intros -> p s Hin Hp; eapply classify_table_entry; eauto|].
  split; [intros -> H; apply classify_no_entry; exact H|].
  intros ds' f' Hl Hm. rewrite new_AiDir_state, Hm.
  unfold classify. rewrite Hl. reflexivity.
Qed.

(** A directory named [READY_Job7] without marker is ready, whatever its
    configuration file holds. *)
Lemma C5_witness :
  state (new_AiDir "READY_Job7"
           [{| name := "READY_Job7"; error_txt := None;
               ai_config := Some ["anything"]; st_mtime := 12;
               in_use := false |}]) = READY.
Proof.
  refine (proj1 (proj2 (proj2
    (C5_state_from_prefix_and_marker
       [{| name := "READY_Job7"; error_txt := None;
           ai_config := Some ["anything"]; st_mtime := 12;
           in_use := false |}] "READY_Job7"))) _ "ready_" READY _ _).
  - reflexivity.
  - simpl; auto.
  - reflexivity.
Defined.

End ClassificationClaim.

(* ================================================================== *)
(** * The restart loop *)
(* ================================================================== *)

Section RestartLoop.

Import Supervisor.

Lemma recent_none (window now : Z) (restarts : list Z) :
  (forall t, In t restarts -> window <= now - t) ->
  recent window now restarts = [].
Proof.
  induction restarts as [|t r IH]; intros H; [reflexivity|].
  simpl. replace (now - t <? window) with false.
  - apply IH. intros; apply H; right; assumption.
  - symmetry; apply Z.ltb_ge. apply H; left; reflexivity.
Qed.

Lemma recent_all (window now : Z) (restarts : list Z) :
  (forall t, In t restarts -> now - t < window) ->
  recent window now restarts = restarts.
Proof.
  induction restarts as [|t r IH]; intros H; [reflexivity|].
  simpl. replace (now - t <? window) with true.
  - f_equal. apply IH. intros; apply H; right; assumption.
  - symmetry; apply Z.ltb_lt. apply H; left; reflexivity.
Qed.

Lemma recent_within (window now : Z) (restarts : list Z) (t : Z) :
  In t (recent window now restarts) -> now - t < window.
Proof.
  unfold recent. intros H. apply filter_In in H. destruct H as [_ H].
  apply Z.ltb_lt; assumption.
Qed.

(** Restarts further apart than the window: every check sees an empty
    list and the loop is not left. *)
Lemma spaced_never_breaks (window : Z) (deaths restarts : list Z) :
  spaced window deaths ->
  (forall t1, hd_error deaths = Some t1 ->
     forall t, In t restarts -> window <= t1 - t) ->
  snd (supervise 5 window deaths restarts) = false /\
  Forall (fun c => seen c = 0) (fst (supervise 5 window deaths restarts)).
Proof.
  revert restarts; induction deaths as [|t1 later IH]; intros restarts Hs Hold.
  - simpl; split; [reflexivity|constructor].
  - simpl. unfold on_worker_dead.
    rewrite (recent_none window t1 restarts) by (apply Hold; reflexivity).
    simpl.
    destruct (IH [t1]) as [Hb Hf].
    + destruct later; simpl in *; [exact I|tauto].
    + intros t2 Ht2 t [<-|[]]. destruct later as [|t2' l]; [discriminate|].
      simpl in Ht2; injection Ht2 as ->. simpl in Hs. lia.
    + destruct (supervise 5 window later [t1]) as [checks broke].
      simpl in *. split; [assumption|]. constructor; [reflexivity|assumption].
Qed.

(** What a restart decides. *)
Lemma restart_backoff (max_restarts window now : Z) (restarts : list Z)
    (b : Z) (restarts' : list Z) :
  on_worker_dead max_restarts window now restarts = Restart b restarts' ->
  restarts' = (recent window now restarts ++ [now])%list /\
  b = Z.min (2 ^ Z.of_nat (List.length restarts')) 60 /\
  Z.of_nat (List.length (recent window now restarts)) < max_restarts /\
  (0 < window -> forall t, In t restarts' -> now - t < window).
Proof.
  unfold on_worker_dead.
  destruct (Z.of_nat (List.length (recent window now restarts)) >=? max_restarts)
    eqn:E; [discriminate|].
  intros H; injection H as <- <-.
  repeat split; try reflexivity.
  - rewrite Z.geb_leb in E.
    apply Z.leb_gt in E. exact E.
  - intros Hw t Hin. apply in_app_or in Hin. destruct Hin as [Hin|[<-|[]]].
    + eapply recent_within; eauto.
    + lia.
Qed.

(** C9.  With [max_restarts = 5]: when consecutive restarts are more
    than the rolling window apart, every check finds fewer restarts than
    the limit (none at all) and the shutdown path is not taken; five
    restarts followed by a sixth failure of the worker, all inside one
    window, end in the shutdown path at that sixth check; and whenever
    the supervisor restarts the worker it first sleeps [min(2^n, 60)]
    seconds, [n] being the number of restarts then inside the window,
    the one being made included. *)
Theorem C9_restart_window_and_backoff :
  forall window : Z,
    (forall deaths, spaced window deaths ->
       snd (supervise 5 window deaths []) = false /\
       Forall (fun c => seen c < 5) (fst (supervise 5 window deaths []))) /\
    (forall t1 t2 t3 t4 t5 t6,
       t1 <= t2 <= t3 -> t3 <= t4 <= t5 -> t5 <= t6 -> t6 - t1 < window ->
       supervise 5 window [t1; t2; t3; t4; t5; t6] [] =
       ([{| seen := 0; backoff := Some 2 |};
         {| seen := 1; backoff := Some 4 |};
         {| seen := 2; backoff := Some 8 |};
         {| seen := 3; backoff := Some 16 |};
         {| seen := 4; backoff := Some 32 |};
         {| seen := 5; backoff := None |}], true)) /\
    (forall max_restarts now restarts b restarts',
       0 < window ->
       on_worker_dead max_restarts window now restarts = Restart b restarts' ->
       b = Z.min (2 ^ Z.of_nat (List.length restarts')) 60 /\
       restarts' = (recent window now restarts ++ [now])%list /\
       (forall t, In t restarts' -> now - t < window)).
Proof.
  intros window. split; [|split].
  - intros deaths Hs.
    destruct (spaced_never_breaks window deaths [] Hs) as [Hb Hf].
    + intros ? _ ? [].
    + split; [assumption|].
      eapply Forall_impl; [|exact Hf]. simpl; intros c ->; lia.
  - intros t1 t2 t3 t4 t5 t6 H12 H34 H56 Hw.
    unfold supervise, on_worker_dead, recent; simpl.
    repeat match goal with
           | |- context [?a - ?b <? window] =>
               replace (a - b <? window) with true
                 by (symmetry; apply Z.ltb_lt; lia); simpl
           end.
    reflexivity.
  - intros max_restarts now restarts b restarts' Hw H.
    destruct (restart_backoff _ _ _ _ _ _ H) as (H1 & H2 & _ & H4).
    auto.
Qed.

(** Restarts ten minutes apart with a window of six minutes. *)
Lemma C9_witness :
  snd (Supervisor.supervise 5 360000000
         [0; 600000000; 1200000000; 1800000000; 2400000000; 3000000000] [])
  = false.
Proof.
  refine (proj1 (proj1 (C9_restart_window_and_backoff 360000000)
    [0; 600000000; 1200000000; 1800000000; 2400000000; 3000000000] _)).
  simpl. repeat split; lia.
Defined.

End RestartLoop.

(* ================================================================== *)
(** * The return service: names and log text *)
(* ================================================================== *)

Section Names.

Import ReturnService.

Lemma rfind_dot_app (p r : string) :
  rfind_dot p = None ->
  rfind_dot (p ++ r) = option_map (Nat.add (String.length p)) (rfind_dot r).
Proof.
  induction p as [|c p IH]; simpl; intros H.
  - destruct (rfind_dot r); reflexivity.
  - destruct (rfind_dot p) eqn:E; [discriminate|].
    destruct (Ascii.eqb c ".") eqn:Ec; [discriminate|].
    rewrite IH by reflexivity.
    destruct (rfind_dot r); simpl; [reflexivity|]. reflexivity.
Qed.

(** A prefix without dots is seen the same on a name and on its stem. *)
Lemma stem_startswith (n p : string) :
  rfind_dot p = None ->
  Py.startswith (stem n) p = Py.startswith n p.
Proof.
  intros Hp. unfold Py.startswith.
  destruct (String.prefix p n) eqn:E.
  - destruct (prefix_split _ _ E) as [r ->].
    unfold stem. rewrite rfind_dot_app by assumption.
    destruct (rfind_dot r) as [j|]; simpl; [|apply prefix_app].
    destruct (_ && _)%bool; [|apply prefix_app].
    rewrite take_app. apply prefix_app.
  - unfold stem. destruct (rfind_dot n) as [i|]; [|assumption].
    destruct (_ && _)%bool; [|assumption].
    destruct (String.prefix p (Py.take i n)) eqn:E'; [|reflexivity].
    apply prefix_take in E'. congruence.
Qed.

Lemma handled_error_name_None (n : string) :
  Py.startswith n "handled_error" = true -> handled_error_name n = None.
Proof.
  intros H. unfold handled_error_name.
  rewrite stem_startswith by reflexivity. now rewrite H.
Qed.

Lemma handled_error_name_prefix (n new : string) :
  handled_error_name n = Some new ->
  Py.startswith new "handled_error_" = true.
Proof.
  unfold handled_error_name.
  destruct (Py.startswith (stem n) "handled_error"); [discriminate|].
  destruct (Py.startswith (stem n) "inferred"); intros H; injection H as <-;
    unfold Py.startswith; exact (prefix_app "handled_error_" _).
Qed.

Lemma startswith_longer (n : string) :
  Py.startswith n "handled_error_" = true ->
  Py.startswith n "handled_error" = true.
Proof.
  unfold Py.startswith; intros H.
  destruct (prefix_split _ _ H) as [r ->].
  apply (prefix_app "handled_error" ("_" ++ r)).
Qed.

(** The rename leaves a directory named [handled_error...] alone. *)
Lemma renaming_noop (d : AiDir) (w : World) :
  Py.startswith (path d) "handled_error" = true ->
  renaming_to_handled_error d w = Eff.Done d w.
Proof.
  intros H. unfold renaming_to_handled_error.
  now rewrite handled_error_name_None.
Qed.

(** The rename never raises; after it, a second rename changes
    nothing. *)
Lemma renaming_twice (d : AiDir) (w : World) :
  exists d1 w1,
    renaming_to_handled_error d w = Eff.Done d1 w1 /\
    renaming_to_handled_error d1 w1 = Eff.Done d1 w1.
Proof.
  unfold renaming_to_handled_error at 1.
  destruct (handled_error_name (path d)) as [new|] eqn:E.
  - unfold Eff.bind, Eff.get.
    destruct (os_rename (path d) new (dirs w)) as [e|ds'] eqn:R.
    + exists d, w. split; [reflexivity|].
      unfold renaming_to_handled_error. rewrite E.
      unfold Eff.bind, Eff.get. now rewrite R.
    + exists (with_path new d), (set_dirs ds' w). split; [reflexivity|].
      apply renaming_noop. simpl.
      apply startswith_longer. eapply handled_error_name_prefix; eauto.
  - exists d, w. split; [reflexivity|].
    unfold renaming_to_handled_error. now rewrite E.
Qed.

Lemma remove_all_inferred (rest : string) :
  Py.remove_all "inferred_" ("inferred_" ++ rest)
  = Py.remove_all "inferred_" rest.
Proof.
  unfold Py.remove_all.
  assert (E : String.prefix "inferred_" ("inferred_" ++ rest) = true)
    by apply prefix_app.
  cbn [Py.remove_all_from append] in *. rewrite E. reflexivity.
Qed.

Lemma remove_all_from_absent (old s : string) :
  (forall i, String.prefix old (Py.drop i s) = false) ->
  Py.remove_all_from old 0 s = s.
Proof.
  induction s as [|c s IH]; intros H; [reflexivity|].
  cbn [Py.remove_all_from].
  pose proof (H 0%nat) as H0. cbn [Py.drop] in H0. rewrite H0. f_equal.
  apply IH. intros i. exact (H (S i)).
Qed.

Lemma remove_all_absent (rest : string) :
  (forall i, String.prefix "inferred_" (Py.drop i rest) = false) ->
  Py.remove_all "inferred_" rest = rest.
Proof. intros H. unfold Py.remove_all. now apply remove_all_from_absent. Qed.

(** The name given to [inferred_<rest>]. *)
Lemma handled_error_name_inferred (rest : string) :
  handled_error_name ("inferred_" ++ rest)
  = Some ("handled_error_" ++ Py.remove_all "inferred_" rest).
Proof.
  unfold handled_error_name.
  rewrite !stem_startswith by reflexivity.
  replace (Py.startswith ("inferred_" ++ rest) "handled_error") with false
    by reflexivity.
  replace (Py.startswith ("inferred_" ++ rest) "inferred") with true
    by (symmetry; exact (prefix_app "inferred" ("_" ++ rest))).
  now rewrite remove_all_inferred.
Qed.

Lemma find_dir_moved (src dst : string) (ds : list Folder) (f : Folder) :
  src <> dst ->
  find_dir src ds = Some f -> find_dir dst ds = None ->
  find_dir dst (update_dir src (renamed dst) ds) = Some (renamed dst f) /\
  find_dir src (update_dir src (renamed dst) ds) = None.
Proof.
  intros Hne H1 H2. split.
  - revert H1 H2. unfold find_dir, update_dir.
    induction ds as [|g ds IH]; simpl; [discriminate|].
    destruct (String.eqb (name g) src) eqn:Es.
    + intros H _. injection H as ->. simpl. now rewrite String.eqb_refl.
    + destruct (String.eqb (name g) dst) eqn:Ed; [discriminate|].
      intros H1 H2. now apply IH.
  - assert (E : String.eqb dst src = false)
      by (apply String.eqb_neq; congruence).
    clear H1 H2. unfold find_dir, update_dir.
    induction ds as [|h ds IH]; simpl; [reflexivity|].
    destruct (String.eqb (name h) src) eqn:Eh; simpl.
    + now rewrite E.
    + now rewrite Eh.
Qed.

(** C10 (as amended).  Renaming to [handled_error_], on the scan
    directory.  A directory whose name already starts with
    [handled_error] is not renamed: its path and the scan directory stay
    as they are.  The operation never raises, and applying it a second
    time changes nothing more than the first time did.  A directory
    [inferred_<rest>] that no other process holds is moved, the new name
    being free: it is found, with all its contents, under
    [handled_error_] followed by [<rest>] with the text [inferred_] taken
    out, and no longer under its old name; the new name is not
    [handled_error_inferred_<rest>].  The new name starts with
    [handled_error_handled_error_] exactly when that remainder itself
    starts with [handled_error_]. *)
Theorem C10_rename_to_handled_is_idempotent :
  (forall d w, Py.startswith (path d) "handled_error" = true ->
     renaming_to_handled_error d w = Eff.Done d w) /\
  (forall d w, exists d1 w1,
     renaming_to_handled_error d w = Eff.Done d1 w1 /\
     renaming_to_handled_error d1 w1 = Eff.Done d1 w1) /\
  (forall d w f rest,
     path d = "inferred_" ++ rest ->
     find_dir (path d) (dirs w) = Some f ->
     let new := "handled_error_" ++ Py.remove_all "inferred_" rest in
     can_rename f new (dirs w) = true ->
     exists w',
       renaming_to_handled_error d w = Eff.Done (with_path new d) w' /\
       find_dir new (dirs w') = Some (renamed new f) /\
       find_dir (path d) (dirs w') = None /\
       new <> "handled_error_" ++ path d /\
       Py.startswith new "handled_error_handled_error_"
       = Py.startswith (Py.remove_all "inferred_" rest) "handled_error_").
Proof.
  split; [|split].
  - intros d w H. now apply renaming_noop.
  - apply renaming_twice.
  - intros d w f rest Hp Hf new Hc.
    assert (Hn : handled_error_name (path d) = Some new)
      by (rewrite Hp; apply handled_error_name_inferred).
    assert (Hne : path d <> new) by (rewrite Hp; discriminate).
    unfold can_rename in Hc. apply andb_true_iff in Hc.
    destruct Hc as [Hu Hfree]. apply negb_true_iff in Hu.
    destruct (find_dir new (dirs w)) eqn:En; [discriminate|].
    destruct (find_dir_moved (path d) new (dirs w) f Hne Hf En) as [H1 H2].
    exists (set_dirs (update_dir (path d) (renamed new) (dirs w)) w).
    split; [|split; [exact H1|split; [exact H2|split]]].
    + unfold renaming_to_handled_error. rewrite Hn.
      unfold Eff.bind, Eff.get, os_rename. rewrite Hf, Hu, En. reflexivity.
    + rewrite Hp. intros H. injection H as H.
      pose proof (length_remove_all_from "inferred_" rest 0) as L.
      unfold Py.remove_all in H. rewrite H in L. simpl in L. lia.
    + reflexivity.
Qed.

(** A finished job in a scan directory of its own. *)
Lemma C10_witness :
  exists w',
    renaming_to_handled_error (new_AiDir "inferred_1.2.840.7")
      Scenario.one_share
    = Eff.Done
        (with_path "handled_error_1.2.840.7" (new_AiDir "inferred_1.2.840.7"))
        w' /\
    find_dir "handled_error_1.2.840.7" (dirs w')
    = Some (renamed "handled_error_1.2.840.7"
              (Scenario.job_folder "inferred_1.2.840.7" Scenario.to_one_share
                 ["rtstruct.dcm"])) /\
    find_dir "inferred_1.2.840.7" (dirs w') = None.
Proof.
  destruct (proj2 (proj2 C10_rename_to_handled_is_idempotent)
              (new_AiDir "inferred_1.2.840.7") Scenario.one_share
              (Scenario.job_folder "inferred_1.2.840.7" Scenario.to_one_share
                 ["rtstruct.dcm"])
              "1.2.840.7" eq_refl eq_refl eq_refl)
    as (w' & H1 & H2 & H3 & _).
  exists w'. split; [exact H1|]. split; [exact H2|exact H3].
Defined.

(** A finished job whose identifier starts with [handled_error_]: the
    share refuses the copy, the job is renamed, and its directory gets
    the prefix [handled_error_] twice. *)
Lemma C10_counterexample :
  exists w',
    scan_directory Scenario.return_config Scenario.share_down
      (Scenario.return_world
         [Scenario.job_folder "inferred_handled_error_1.2.840.7"
            Scenario.to_one_share ["rtstruct.dcm"]])
    = Eff.Done tt w' /\
    map name (dirs w') = ["handled_error_handled_error_1.2.840.7"] /\
    Py.startswith "handled_error_handled_error_1.2.840.7"
      "handled_error_handled_error_" = true.
Proof.
  eexists. split; [vm_compute; reflexivity|]. split; reflexivity.
Qed.

End Names.

Section LogText.

Import ReturnService.

(** What [censor_pt_id] returns for a path that ends in its final
    component. *)
Lemma censor_pt_id_shape (dir nm : string) :
  censor_pt_id {| path_str := dir ++ nm; path_name := nm |}
  = dir ++ Py.take (String.length nm - String.length nm / 2) nm
        ++ Py.repeat_char "*" (String.length nm / 2).
Proof.
  unfold censor_pt_id, Py.slice_to, Py.str_mul, Py.len.
  cbn [path_str path_name].
  rewrite length_app.
  assert (Hn : (String.length nm / 2 <= String.length nm)%nat)
    by (apply Nat.Div0.div_le_upper_bound; lia).
  assert (Hz : Z.of_nat (String.length nm) / 2
               = Z.of_nat (String.length nm / 2))
    by (rewrite Nat2Z.inj_div; reflexivity).
  rewrite Hz.
  replace (Z.of_nat (String.length dir + String.length nm)
           - Z.of_nat (String.length nm / 2) <? 0) with false
    by (symmetry; apply Z.ltb_ge; lia).
  rewrite Z.min_l by lia.
  replace (Z.to_nat (Z.of_nat (String.length dir + String.length nm)
                     - Z.of_nat (String.length nm / 2)))
    with (String.length dir
          + (String.length nm - String.length nm / 2))%nat by lia.
  rewrite take_app, length_app, length_take.
  replace (Z.to_nat
             (Z.of_nat (String.length dir + String.length nm)
              - Z.of_nat
                  (String.length dir
                   + Nat.min (String.length nm - String.length nm / 2)
                       (String.length nm))))
    with (String.length nm / 2)%nat by lia.
  apply append_assoc.
Qed.

(** The text [censor_pt_id] gives for a path has the length of the
    path; everything up to the final path component, and the leading
    characters of that component, are unchanged; the trailing [n / 2]
    characters of the final component, [n] being its length and the
    division rounding down, are replaced by stars. *)
Lemma censor_pt_id_masks_half_of_name :
  forall dir nm : string,
    let p := {| path_str := dir ++ nm; path_name := nm |} in
    censor_pt_id p
      = dir ++ Py.take (String.length nm - String.length nm / 2) nm
            ++ Py.repeat_char "*" (String.length nm / 2) /\
    String.length (censor_pt_id p) = String.length (path_str p).
Proof.
  intros dir nm p. unfold p. rewrite censor_pt_id_shape.
  split; [reflexivity|].
  cbn [path_str]. rewrite !length_app, length_take, length_repeat_char.
  assert ((String.length nm / 2 <= String.length nm)%nat)
    by (apply Nat.Div0.div_le_upper_bound; lia).
  lia.
Qed.

(** C8 (the code at the failing input).  One finished job whose
    structure set belongs to the patient [7], to be copied to the share
    [\\srv\returns].  The patient folder is [\\srv\returns\7];
    [censor_pt_id] replaces [1 // 2 = 0] characters of its name, so the
    text it gives is the real path, and the two messages that the copy
    of the structure set logs hold the path with the patient identifier
    in full. *)
Theorem C8_one_character_id_is_logged_in_full :
  path_name (join_path "\\srv\returns" "7") = "7" /\
  censor_pt_id (join_path "\\srv\returns" "7")
  = path_str (join_path "\\srv\returns" "7") /\
  censor_pt_id (join_path "\\srv\returns" "7") = "\\srv\returns\7" /\
  exists w',
    scan_directory Scenario.return_config Scenario.patient_seven
      Scenario.one_share = Eff.Done tt w' /\
    In (Log "Copying rtstruct.dcm to \\srv\returns\7") (trace w') /\
    In (Log "Successfully copied RTStruct to \\srv\returns\7") (trace w').
Proof.
  split; [reflexivity|]. split; [reflexivity|]. split; [reflexivity|].
  eexists. split; [vm_compute; reflexivity|].
  split; simpl; auto.
Qed.

End LogText.

(* ================================================================== *)
(** * The watchdog: priorities and the choice of the next job *)
(* ================================================================== *)

Section NextJob.

Import Watchdog.

(** [load] on a valid directory whose configuration file yields no level,
    because no line names one or because [int] rejected the text: the
    level is 10 and the directory stays valid. *)
Lemma load_default_nicelevel (d : AiDir) (w : World) (f : Folder)
    (lines : list string) (exn : option Py.Exn) :
  valid d = true -> nicelevel d = None ->
  find_dir (path d) (dirs w) = Some f -> ai_config f = Some lines ->
  read_nicelevel lines None = (None, exn) ->
  (exn = None \/ exn = Some Py.ValueError) ->
  exists d', load d w = Eff.Done d' w /\
             nicelevel d' = Some 10 /\ valid d' = true /\
             state d' = state d /\ path d' = path d.
Proof.
  intros Hv Hn Hf Hc Hr He. unfold load. rewrite Hv. simpl.
  unfold Eff.bind, Eff.get. rewrite Hf, Hc, Hn, Hr.
  destruct He as [->| ->]; simpl; eexists; repeat split.
Qed.

(** A level written without quotes makes [load] raise [IndexError]. *)
Lemma load_unquoted_raises (d : AiDir) (w : World) (f : Folder)
    (lines : list string) (lvl : option Z) :
  valid d = true ->
  find_dir (path d) (dirs w) = Some f -> ai_config f = Some lines ->
  read_nicelevel lines (nicelevel d) = (lvl, Some Py.IndexError) ->
  load d w = Eff.Raised Py.IndexError w.
Proof.
  intros Hv Hf Hc Hr. unfold load. rewrite Hv. simpl.
  unfold Eff.bind, Eff.get. rewrite Hf, Hc, Hr. reflexivity.
Qed.

Lemma string_leb_trans (a b c : string) :
  String.leb a b = true -> String.leb b c = true -> String.leb a c = true.
Proof.
  unfold String.leb. revert b c.
  induction a as [|x a IH]; intros [|y b] [|z c]; simpl;
    try reflexivity; try discriminate.
  unfold Ascii.compare.
  destruct (N.compare_spec (N_of_ascii x) (N_of_ascii y));
    destruct (N.compare_spec (N_of_ascii y) (N_of_ascii z));
    destruct (N.compare_spec (N_of_ascii x) (N_of_ascii z));
    intros L1 L2; try reflexivity; try discriminate; try lia.
  eapply IH; eassumption.
Qed.

Lemma key_leb_trans (a b c : Z * string) :
  key_leb a b = true -> key_leb b c = true -> key_leb a c = true.
Proof.
  unfold key_leb.
  destruct (Z.ltb_spec (fst a) (fst b)), (Z.ltb_spec (fst b) (fst a)),
    (Z.ltb_spec (fst b) (fst c)), (Z.ltb_spec (fst c) (fst b)),
    (Z.ltb_spec (fst a) (fst c)), (Z.ltb_spec (fst c) (fst a));
    intros L1 L2; try reflexivity; try discriminate; try lia.
  eapply string_leb_trans; eassumption.
Qed.

Lemma key_leb_total (a b : Z * string) :
  key_leb a b = true \/ key_leb b a = true.
Proof.
  unfold key_leb.
  destruct (Z.ltb_spec (fst a) (fst b)), (Z.ltb_spec (fst b) (fst a));
    auto; try lia.
  apply String.leb_total.
Qed.

Lemma key_leb_refl (a : Z * string) : key_leb a a = true.
Proof. destruct (key_leb_total a a); assumption. Qed.

(** The head of the sorted list is the first directory with a least
    key. *)
Lemma sorted_head (l : list AiDir) : hd_error (sorted l) = first_least l.
Proof.
  induction l as [|x l IH]; [reflexivity|].
  change (sorted (x :: l)) with (insert_by_key x (sorted l)).
  cbn [first_least]. rewrite <- IH.
  destruct (sorted l) as [|y s]; [reflexivity|].
  cbn [insert_by_key hd_error].
  destruct (key_leb (sort_key x) (sort_key y)); reflexivity.
Qed.

Lemma first_least_None (l : list AiDir) : first_least l = None -> l = [].
Proof.
  destruct l as [|y l]; [reflexivity|]. cbn [first_least].
  destruct (first_least l); [destruct (key_leb _ _)|]; discriminate.
Qed.

Lemma first_least_is_least (l : list AiDir) (m : AiDir) :
  first_least l = Some m ->
  In m l /\ forall x, In x l -> key_leb (sort_key m) (sort_key x) = true.
Proof.
  revert m; induction l as [|y l IH]; intros m; [discriminate|].
  cbn [first_least]. destruct (first_least l) as [m'|] eqn:E.
  - destruct (IH m' eq_refl) as [Hin Hmin].
    destruct (key_leb (sort_key y) (sort_key m')) eqn:K;
      intros H; injection H as <-.
    + split; [now left|]. intros x [<-|Hx]; [apply key_leb_refl|].
      eapply key_leb_trans; [exact K|now apply Hmin].
    + split; [now right|]. intros x [<-|Hx]; [|now apply Hmin].
      destruct (key_leb_total (sort_key m') (sort_key y)); congruence.
  - intros H; injection H as <-. rewrite (first_least_None l E).
    split; [now left|]. intros x [<-|[]]. apply key_leb_refl.
Qed.

(** What [load_ready] chooses: among the directories it found ready and
    valid, the first of those with the least pair of level and printed
    modification time. *)
Lemma load_ready_choice (s s' : AiSharedDir) (w w' : World) :
  load_ready s w = Eff.Done s' w' ->
  ready_dirs s' <> [] ->
  exists m,
    ready_to_infer s' = Some m /\ In m (ready_dirs s') /\
    forall x, In x (ready_dirs s') ->
              key_leb (sort_key m) (sort_key x) = true.
Proof.
  unfold load_ready, Eff.bind. intros H Hne.
  destruct (Eff.for_each _ _ _ w) as [[ready errors] w1|]; [|discriminate].
  unfold Eff.ret in H. injection H as <- <-. cbn [ready_dirs ready_to_infer] in *.
  destruct ready as [|r0 ready]; [now elim Hne|].
  rewrite sorted_head.
  destruct (first_least (r0 :: ready)) as [m|] eqn:E.
  - exists m. split; [reflexivity|]. now apply first_least_is_least.
  - apply first_least_None in E. discriminate.
Qed.

(** C1 (the code at the failing input).  Three ready jobs with levels
    10, 1 and 1; of the two jobs of level 1, [ready_B] was modified one
    day after [ready_C].  The poll activates [ready_B], the younger job:
    the texts [Fri Nov  7 10:00:00 2025] and [Thu Nov  6 10:00:00 2025]
    are compared, not the times. *)
Theorem C1_tie_is_broken_on_ctime_text :
  let w := Scenario.three_ready in
  map st_mtime (dirs w) = [1762335000; 1762509600; 1762423200] /\
  Py.ctime 0 1762509600 = "Fri Nov  7 10:00:00 2025" /\
  Py.ctime 0 1762423200 = "Thu Nov  6 10:00:00 2025" /\
  exists w',
    poll Scenario.watchdog_config w = Eff.Done tt w' /\
    map name (dirs w') = ["ready_A"; "active_B"; "ready_C"] /\
    launched w'
      = [["python"; "D:\inference\main.py"; "--folder";
          "D:\shared\active_B"]].
Proof.
  cbv zeta. split; [reflexivity|]. split; [reflexivity|].
  split; [reflexivity|].
  eexists. split; [vm_compute; reflexivity|].
  split; reflexivity.
Qed.

(** C2 (the code at the failing input).  One ready job whose
    configuration file holds the line [NiceLevel:5]: the poll raises
    [IndexError], and the worker, whatever the number of rounds it was to
    make, returns in its first round, leaving the job as it was. *)
Theorem C2_unquoted_level_ends_the_worker :
  let w := Scenario.unquoted_level in
  poll Scenario.watchdog_config w = Eff.Raised Py.IndexError w /\
  forall rounds,
    watchdog_worker Scenario.watchdog_config (S rounds) w
    = (Crashed Py.IndexError 0, w).
Proof.
  cbv zeta.
  assert (E : poll Scenario.watchdog_config Scenario.unquoted_level
              = Eff.Raised Py.IndexError Scenario.unquoted_level)
    by (vm_compute; reflexivity).
  split; [exact E|].
  intros rounds. unfold watchdog_worker. cbn [worker_from]. now rewrite E.
Qed.

End NextJob.

(* ================================================================== *)
(** * The return service: what a transmission leaves behind *)
(* ================================================================== *)

Section Transmission.

Import ReturnService Eff.

Variable config : ReturnserviceConfig.
Variable oracle : Oracle.

(** Files that may travel: [P] holds of each of them. *)
Variable P : File -> Prop.

Local Abbreviation moves_only := (ReturnService.moves_only P).
Local Abbreviation extends := (ReturnService.extends P).
Local Abbreviation run_ok := (ReturnService.run_ok P).

Lemma extends_refl (w : World) : extends w w.
Proof.
  repeat split. exists []. split; [now rewrite app_nil_r|constructor].
Qed.

Lemma extends_trans (w1 w2 w3 : World) :
  extends w1 w2 -> extends w2 w3 -> extends w1 w3.
Proof.
  intros (Hd & Hc & t & Ht & Hm) (Hd' & Hc' & t' & Ht' & Hm').
  repeat split; try congruence.
  exists (t ++ t')%list. split.
  - rewrite Ht', Ht. now rewrite app_assoc.
  - apply Forall_app; split; assumption.
Qed.

Lemma run_ret {A} (w : World) (Q : A -> Prop) (a : A) :
  Q a -> run_ok w Q (ret a w).
Proof. intros H; split; [apply extends_refl|exact H]. Qed.

Lemma run_raise {A} (w : World) (Q : A -> Prop) (e : Py.Exn) :
  run_ok w Q (raise e w).
Proof. apply extends_refl. Qed.

Lemma run_lift {A} (w : World) (Q : A -> Prop) (r : Py.Exn + A) :
  (forall a, r = inr a -> Q a) -> run_ok w Q (lift r w).
Proof.
  intros H. destruct r as [e|a].
  - exact (run_raise w Q e).
  - exact (run_ret w Q a (H a eq_refl)).
Qed.

Lemma run_weaken {A} (w : World) (Q Q' : A -> Prop) (o : Outcome World A) :
  (forall a, Q a -> Q' a) -> run_ok w Q o -> run_ok w Q' o.
Proof. intros H. destruct o; simpl; [|auto]. intros [? ?]; auto. Qed.

Lemma run_from {A} (w0 w : World) (Q : A -> Prop) (o : Outcome World A) :
  extends w0 w -> run_ok w Q o -> run_ok w0 Q o.
Proof.
  intros H. destruct o; simpl.
  - intros [? ?]; split; [eapply extends_trans; eauto|assumption].
  - intros ?; eapply extends_trans; eauto.
Qed.

Lemma run_bind {A B} (w : World) (Q : A -> Prop) (Q' : B -> Prop)
    (c : M World A) (k : A -> M World B) :
  run_ok w Q (c w) ->
  (forall a w1, Q a -> run_ok w1 Q' (k a w1)) ->
  run_ok w Q' (bind c k w).
Proof.
  unfold bind. intros Hc Hk. destruct (c w) as [a w1|e w1]; simpl in *.
  - destruct Hc as [He Ha]. eapply run_from; eauto.
  - exact Hc.
Qed.

Lemma run_get (w : World) : run_ok w (fun _ => True) (get w).
Proof. split; [apply extends_refl|exact I]. Qed.

Lemma run_emit (w : World) (e : Event) :
  (forall f, transmitted e = Some f -> P f) ->
  run_ok w (fun _ => True) (emit e w).
Proof.
  intros H. split; [|exact I]. repeat split.
  exists [e]. split; [reflexivity|]. constructor; [exact H|constructor].
Qed.

Lemma run_add_share (w : World) (dir : string) :
  run_ok w (fun _ => True) (add_share dir w).
Proof.
  split; [|exact I]. repeat split. exists []. simpl.
  split; [now rewrite app_nil_r|constructor].
Qed.

Lemma flagged_refl (d : AiDir) : flagged d d.
Proof. now left. Qed.

Lemma flagged_failed (d : AiDir) : flagged d (failed d).
Proof. now right. Qed.

Lemma flagged_trans (d1 d2 d3 : AiDir) :
  flagged d1 d2 -> flagged d2 d3 -> flagged d1 d3.
Proof.
  intros [->| ->] [->| ->]; try (now left); right; reflexivity.
Qed.

Lemma run_for_each {A} (l : list A) (body : A -> AiDir -> M World AiDir) :
  (forall x d w, run_ok w (flagged d) (body x d w)) ->
  forall d w, run_ok w (flagged d) (for_each l body d w).
Proof.
  intros Hb. induction l as [|x l IH]; intros d w; simpl.
  - apply run_ret, flagged_refl.
  - eapply run_bind; [apply Hb|].
    intros d1 w1 H1. eapply run_weaken; [|apply IH].
    intros d2 H2. eapply flagged_trans; eauto.
Qed.

#[local] Hint Resolve flagged_refl flagged_failed : core.

Lemma copy_file_to_dir_ok (file_path : File) (return_dir : Path)
    (scan : bool) (d : AiDir) (w : World) :
  P file_path ->
  run_ok w (flagged d) (copy_file_to_dir oracle file_path return_dir scan d w).
Proof.
  intros HP. unfold copy_file_to_dir.
  eapply run_bind; [apply run_emit; discriminate|intros ? ? _].
  eapply run_bind;
    [apply run_emit; intros f E; injection E as <-; exact HP|intros ? ? _].
  destruct (copy2 oracle file_path (path_str return_dir)) as [[]|].
  all: try (eapply run_bind; [apply run_emit; discriminate|intros ? ? _];
            apply run_ret; auto).
  destruct scan.
  - eapply run_bind with (Q := fun _ => True);
      [apply run_ret; exact I|intros ? ? _].
    apply run_ret; auto.
  - eapply run_bind; [apply run_emit; discriminate|intros ? ? _].
    apply run_ret; auto.
Qed.

Hypothesis source_images_move : forall f, place f = InDcmInput -> P f.

Ltac emits := eapply run_bind; [apply run_emit; try discriminate|intros ? ? _].
Ltac reads := eapply run_bind; [apply run_get|intros ? ? _].

Lemma copy_scan_to_dir_ok (return_dir : Path) (d : AiDir) (w : World) :
  run_ok w (flagged d) (copy_scan_to_dir oracle return_dir d w).
Proof.
  unfold copy_scan_to_dir. reads.
  destruct (scan_files _ d) as [e|files].
  - emits. apply run_ret; auto.
  - eapply run_bind.
    + apply run_for_each. intros dcm d0 wd.
      apply copy_file_to_dir_ok. now apply source_images_move.
    + intros d1 wa H1. emits. apply run_ret; exact H1.
Qed.

Lemma send_struct_ok (struct_path : File) (return_address : Dict)
    (d : AiDir) (w : World) :
  P struct_path ->
  run_ok w (flagged d) (send_struct config oracle struct_path return_address d w).
Proof.
  intros HP. unfold send_struct.
  destruct (node_address _ return_address) as [e|[[ip port] aet]];
    [apply run_ret; auto|].
  emits.
  destruct (associate oracle ip port aet); try (apply run_ret; auto).
  destruct (dcmread oracle struct_path) as [e|].
  - destruct (Py.is_OSError e); [|apply run_raise].
    emits. apply run_ret; auto.
  - eapply run_bind;
      [apply run_emit; intros f E; injection E as <-; exact HP|intros ? ? _].
    destruct (send_c_store oracle ip port aet struct_path) as [[]|e].
    + emits. apply run_ret; auto.
    + emits. apply run_ret; auto.
    + apply run_raise.
Qed.

Lemma send_scan_ok (return_address : Dict) (d : AiDir) (w : World) :
  run_ok w (flagged d) (send_scan oracle return_address d w).
Proof.
  unfold send_scan.
  destruct (node_address _ return_address) as [e|[[ip port] aet]];
    [apply run_ret; auto|].
  emits.
  destruct (associate oracle ip port aet); try (apply run_ret; auto).
  reads.
  destruct (scan_files _ d) as [e|files].
  - emits. apply run_ret; auto.
  - eapply run_bind.
    + apply run_for_each. intros dcm d0 wd.
      destruct (dcmread oracle _) as [e|]; [apply run_raise|].
      eapply run_bind;
        [apply run_emit; intros f E; injection E as <-;
         now apply source_images_move|intros ? ? _].
      destruct (send_c_store oracle ip port aet _) as [[]|e];
        apply run_ret; auto.
    + intros d1 wa H1. emits. apply run_ret; exact H1.
Qed.

Lemma send_to_directory_ok (struct_path : File) (return_dir_dict : Dict)
    (d : AiDir) (w : World) :
  P struct_path ->
  run_ok w (flagged d)
    (send_to_directory config oracle struct_path return_dir_dict d w).
Proof.
  intros HP. unfold send_to_directory.
  eapply run_bind with (Q := fun _ => True);
    [apply run_lift; trivial|intros patient wp _].
  eapply run_bind with (Q := fun _ => True);
    [apply run_lift; trivial|intros v1 wv _].
  reads.
  eapply run_bind with (Q := fun _ => True).
  - destruct (existsb _ _); [apply run_ret; exact I|].
    emits. destruct (mkdir oracle _) as [[]|]; try apply run_raise.
    + emits. apply run_ret; exact I.
    + eapply run_bind; [apply run_add_share|intros ? ? _].
      apply run_ret; exact I.
  - intros made wm _. destruct made; simpl; [|apply run_ret; auto].
    eapply run_bind; [now apply copy_file_to_dir_ok|].
    intros d1 wb H1. destruct (send_scan_flag _ _ _).
    + eapply run_weaken; [|apply copy_scan_to_dir_ok].
      intros d2 H2. eapply flagged_trans; eauto.
    + apply run_ret; exact H1.
Qed.

Lemma send_to_node_ok (struct_path : File) (return_dicom_node : Dict)
    (d : AiDir) (w : World) :
  P struct_path ->
  run_ok w (flagged d)
    (send_to_node config oracle struct_path return_dicom_node d w).
Proof.
  intros HP. unfold send_to_node.
  eapply run_bind; [now apply send_struct_ok|].
  intros d1 wa H1. destruct (send_scan_flag _ _ _).
  - eapply run_weaken; [|apply send_scan_ok].
    intros d2 H2. eapply flagged_trans; eauto.
  - apply run_ret; exact H1.
Qed.

Lemma flagged_dicts (d d' : AiDir) :
  flagged d d' ->
  path d' = path d /\ error_message d' = error_message d /\
  return_dicom_node_dict d' = return_dicom_node_dict d /\
  return_directory_dict d' = return_directory_dict d /\
  valid d' = valid d /\
  (transmission_failed d = true -> transmission_failed d' = true).
Proof. intros [->| ->]; simpl; repeat split; auto. Qed.

(** The two loops change nothing in the scan directory, whether they
    come to their end or an exception leaves them, and they move the
    structure set and source images only. *)
Lemma fan_out_ok (struct_path : File) (d : AiDir) (w : World) :
  P struct_path ->
  run_ok w (flagged d) (fan_out config oracle struct_path d w).
Proof.
  intros HP. unfold fan_out, groups_of.
  eapply run_bind with (Q := fun _ => True).
  { destruct (return_directory_dict d); [apply run_ret; exact I|apply run_raise]. }
  intros directories wa _.
  eapply run_bind.
  { apply run_for_each. intros; now apply send_to_directory_ok. }
  intros d1 wb H1.
  eapply run_bind with (Q := fun _ => True).
  { destruct (return_dicom_node_dict d1); [apply run_ret; exact I|apply run_raise]. }
  intros nodes wc _.
  eapply run_weaken; [|apply run_for_each; intros; now apply send_to_node_ok].
  intros d2 H2. eapply flagged_trans; eauto.
Qed.

End Transmission.

(* ================================================================== *)
(** * The return service: when a transmission succeeds *)
(* ================================================================== *)

Section Success.

Import ReturnService Eff.

Variable config : ReturnserviceConfig.
Variable oracle : Oracle.

(** The world the transmission starts in and the job it is made for. *)
Variable w0 : World.
Variable d0 : AiDir.

Local Abbreviation Inv := (underway oracle w0).

Lemma mark_mark (a b : bool) (d : AiDir) :
  mark b (mark a d) = mark (a && b) d.
Proof. destruct a, b; reflexivity. Qed.

Lemma mark_path (a : bool) (d : AiDir) : path (mark a d) = path d.
Proof. destruct a; reflexivity. Qed.

Lemma mark_nodes (a : bool) (d : AiDir) :
  return_dicom_node_dict (mark a d) = return_dicom_node_dict d.
Proof. destruct a; reflexivity. Qed.

Lemma mark_flag (a : bool) (d : AiDir) :
  transmission_failed (mark a d) = orb (transmission_failed d) (negb a).
Proof. destruct a; simpl; [now rewrite orb_false_r|now rewrite orb_true_r]. Qed.

Lemma underway_refl : Inv w0.
Proof. repeat split; auto. Qed.

Lemma underway_same (w w' : World) :
  Inv w -> dirs w' = dirs w -> clock w' = clock w ->
  return_shares w' = return_shares w -> Inv w'.
Proof.
  intros (H1 & H2 & H3 & H4) Hd Hc Hs. unfold underway.
  rewrite Hd, Hc, Hs. auto.
Qed.

Lemma underway_scan_files (w : World) (d : AiDir) :
  Inv w -> path d = path d0 -> scan_files w d = scan_files w0 d0.
Proof. intros (H & _) Hp. unfold scan_files. now rewrite H, Hp. Qed.

Lemma existsb_In (x : string) (l : list string) :
  existsb (String.eqb x) l = true <-> In x l.
Proof.
  rewrite existsb_exists. split.
  - intros (y & Hy & E). apply String.eqb_eq in E. now subst.
  - intros H. exists x. split; [exact H|apply String.eqb_refl].
Qed.

Lemma underway_folder (w : World) (dir : string) :
  Inv w -> folder_there oracle w dir = folder_there oracle w0 dir.
Proof.
  intros (_ & _ & H3 & H4). unfold folder_there.
  destruct (existsb (String.eqb dir) (return_shares w)) eqn:E.
  - apply existsb_In in E. destruct (H4 _ E) as [H| ->].
    + apply existsb_In in H. now rewrite H.
    + cbn [is_none]. now rewrite !orb_true_r.
  - destruct (existsb (String.eqb dir) (return_shares w0)) eqn:E0;
      [|reflexivity].
    apply existsb_In in E0. apply H3, existsb_In in E0. congruence.
Qed.

Lemma settles_bind (a b : bool) (d : AiDir) (c : M World AiDir)
    (k : AiDir -> M World AiDir) (w : World) :
  settles a Inv d (c w) ->
  (forall w1, Inv w1 -> settles b Inv (mark a d) (k (mark a d) w1)) ->
  settles (a && b) Inv d (bind c k w).
Proof.
  unfold bind. intros Hc Hk. destruct (c w) as [d1 w1|e w1]; simpl in Hc.
  - destruct Hc as [-> Hi]. specialize (Hk w1 Hi).
    destruct (k (mark a d) w1) as [d2 w2|e w2]; simpl in *.
    + destruct Hk as [-> Hi2]. split; [apply mark_mark|exact Hi2].
    + rewrite Hk. apply andb_false_r.
  - now rewrite Hc.
Qed.

Lemma for_each_settles {A} (l : list A) (ok : A -> bool)
    (body : A -> AiDir -> M World AiDir) :
  (forall x d w, In x l -> Inv w -> path d = path d0 ->
                 settles (ok x) Inv d (body x d w)) ->
  forall d w, Inv w -> path d = path d0 ->
              settles (forallb ok l) Inv d (for_each l body d w).
Proof.
  induction l as [|x l IH]; intros Hb d w Hi Hp.
  - simpl. split; [reflexivity|exact Hi].
  - cbn [forallb for_each]. apply settles_bind.
    + apply Hb; [now left|exact Hi|exact Hp].
    + intros w1 Hi1. apply IH; [|exact Hi1|now rewrite mark_path].
      intros y d1 w2 Hy. apply Hb. now right.
Qed.

Lemma copy_file_to_dir_settles (f : File) (dir : Path) (scan : bool)
    (d : AiDir) (w : World) :
  Inv w ->
  settles (copied oracle f (path_str dir)) Inv d
    (copy_file_to_dir oracle f dir scan d w).
Proof.
  intros Hi. unfold copy_file_to_dir, copied, bind, emit, modify, ret.
  destruct (copy2 oracle f (path_str dir)) as [[]|]; destruct scan; simpl;
    (split; [reflexivity|eapply underway_same; eauto]).
Qed.

Lemma copy_scan_to_dir_settles (dir : Path) (d : AiDir) (w : World) :
  Inv w -> path d = path d0 ->
  settles (scan_copied oracle w0 d0 (path_str dir)) Inv d
    (copy_scan_to_dir oracle dir d w).
Proof.
  intros Hi Hp. unfold copy_scan_to_dir, scan_copied.
  unfold bind at 1. unfold get at 1.
  rewrite (underway_scan_files w d Hi Hp).
  destruct (scan_files w0 d0) as [e|files].
  - unfold bind, emit, modify, ret. simpl.
    split; [reflexivity|eapply underway_same; eauto].
  - rewrite <- (andb_true_r (forallb _ files)). apply settles_bind.
    + rewrite Hp. apply for_each_settles; [|exact Hi|exact Hp].
      intros dcm d1 w1 _ Hi1 _. now apply copy_file_to_dir_settles.
    + intros w1 Hi1. unfold bind, emit, modify, ret. simpl.
      split; [reflexivity|eapply underway_same; eauto].
Qed.

Lemma send_to_directory_settles (struct_path : File) (g : Dict) (d : AiDir)
    (w : World) :
  Inv w -> path d = path d0 ->
  settles (share_succeeds config oracle struct_path w0 d0 g) Inv d
    (send_to_directory config oracle struct_path g d w).
Proof.
  intros Hi Hp. unfold send_to_directory, share_succeeds.
  destruct (patient_id oracle struct_path) as [e|patient];
    [reflexivity|].
  unfold bind at 1. unfold lift at 1. unfold ret at 1.
  destruct (dict_get (return_directory_str config) g) as [e|v1];
    [reflexivity|].
  unfold bind at 1. unfold lift at 1. unfold ret at 1.
  unfold bind at 1. unfold get at 1.
  set (dir := join_path v1 patient).
  rewrite <- (underway_folder w (path_str dir) Hi).
  assert (Hrest : forall w1, Inv w1 ->
            settles
              (copied oracle struct_path (path_str dir) &&
               (if send_scan_flag oracle
                     (return_directory_str config ++ "SendScan") g
                then scan_copied oracle w0 d0 (path_str dir) else true))
              Inv d
              ((d1 <- copy_file_to_dir oracle struct_path dir false d ;;
                if send_scan_flag oracle
                     (return_directory_str config ++ "SendScan") g
                then copy_scan_to_dir oracle dir d1
                else ret d1) w1)).
  { intros w1 Hi1. apply settles_bind.
    - now apply copy_file_to_dir_settles.
    - intros w2 Hi2. destruct (send_scan_flag oracle _ g).
      + apply copy_scan_to_dir_settles; [exact Hi2|now rewrite mark_path].
      + split; [reflexivity|exact Hi2]. }
  unfold folder_there. unfold bind at 1.
  destruct (existsb (String.eqb (path_str dir)) (return_shares w)) eqn:Ex.
  - unfold ret at 1. cbn [negb orb andb]. now apply Hrest.
  - unfold bind at 1. unfold emit at 1. unfold modify at 1. cbn [orb].
    destruct (mkdir oracle (path_str dir)) as [e|] eqn:Em.
    + cbn [is_none andb].
      destruct e; try reflexivity.
      unfold bind, emit, modify, ret. simpl.
      split; [reflexivity|eapply underway_same; eauto].
    + cbn [is_none andb]. unfold bind at 1. unfold add_share at 1.
      unfold modify at 1. unfold ret at 1. cbn [negb].
      apply Hrest. destruct Hi as (H1 & H2 & H3 & H4).
      repeat split; simpl; try assumption.
      * intros x Hx. apply in_or_app. left. now apply H3.
      * intros x Hx. apply in_app_or in Hx. destruct Hx as [Hx|[<-|[]]].
        -- now apply H4.
        -- now right.
Qed.

Lemma send_struct_settles (struct_path : File) (g : Dict) (d : AiDir)
    (w : World) :
  Inv w ->
  settles (struct_stored config oracle struct_path g) Inv d
    (send_struct config oracle struct_path g d w).
Proof.
  intros Hi. unfold send_struct, struct_stored, stored.
  destruct (node_address (return_dicom_str config) g) as [e|[[ip port] aet]].
  { split; [reflexivity|exact Hi]. }
  unfold bind, emit, modify, ret, raise.
  destruct (associate oracle ip port aet); simpl;
    try (split; [reflexivity|eapply underway_same; eauto]).
  destruct (dcmread oracle struct_path) as [e|]; simpl.
  - destruct (Py.is_OSError e); [|reflexivity].
    split; [reflexivity|eapply underway_same; eauto].
  - destruct (send_c_store oracle ip port aet struct_path) as [[]|e]; simpl;
      try reflexivity;
      (split; [reflexivity|eapply underway_same; eauto]).
Qed.

Lemma send_scan_settles (g : Dict) (d : AiDir) (w : World) :
  Inv w -> path d = path d0 ->
  settles (scan_stored oracle w0 d0 g) Inv d (send_scan oracle g d w).
Proof.
  intros Hi Hp. unfold send_scan, scan_stored.
  destruct (node_address "ReturnDicomNode" g) as [e|[[ip port] aet]].
  { split; [reflexivity|exact Hi]. }
  unfold bind at 1. unfold emit at 1. unfold modify at 1.
  match goal with
  | |- context [match associate oracle ip port aet with _ => _ end ?w1] =>
      assert (Hi1 : Inv w1) by (eapply underway_same; eauto)
  end.
  destruct (associate oracle ip port aet); cbn [is_established andb] in *;
    try (split; [reflexivity|exact Hi1]).
  unfold bind at 1. unfold get at 1.
  rewrite (underway_scan_files _ d Hi1 Hp).
  destruct (scan_files w0 d0) as [e|files].
  - unfold bind, emit, modify, ret. simpl.
    split; [reflexivity|eapply underway_same; eauto].
  - rewrite <- (andb_true_r (forallb _ files)). apply settles_bind.
    + rewrite Hp. apply for_each_settles; [|exact Hi1|exact Hp].
      intros dcm d1 w1 _ Hi2 _. unfold stored.
      destruct (dcmread oracle _) as [e|]; [reflexivity|].
      unfold bind, emit, modify, ret. cbn [is_none andb].
      destruct (send_c_store oracle ip port aet _) as [[]|e]; simpl;
        (split; [reflexivity|eapply underway_same; eauto]).
    + intros w1 Hi2. unfold bind, emit, modify, ret. simpl.
      split; [reflexivity|eapply underway_same; eauto].
Qed.

Lemma send_to_node_settles (struct_path : File) (g : Dict) (d : AiDir)
    (w : World) :
  Inv w -> path d = path d0 ->
  settles (node_succeeds config oracle struct_path w0 d0 g) Inv d
    (send_to_node config oracle struct_path g d w).
Proof.
  intros Hi Hp. unfold send_to_node, node_succeeds. apply settles_bind.
  - now apply send_struct_settles.
  - intros w1 Hi1. destruct (send_scan_flag oracle _ g).
    + apply send_scan_settles; [exact Hi1|now rewrite mark_path].
    + split; [reflexivity|exact Hi1].
Qed.

(** The two loops return the job marked by the success of all the
    destinations; when they raise, one destination did not succeed. *)
Lemma fan_out_settles (struct_path : File) (shares nodes : Groups)
    (d : AiDir) (w : World) :
  Inv w -> path d = path d0 ->
  return_directory_dict d = Some shares ->
  return_dicom_node_dict d = Some nodes ->
  settles (all_succeed config oracle struct_path w0 d0 shares nodes) Inv d
    (fan_out config oracle struct_path d w).
Proof.
  intros Hi Hp Hs Hn. unfold fan_out, all_succeed, groups_of. rewrite Hs.
  unfold bind at 1. unfold ret at 1. apply settles_bind.
  - apply for_each_settles; [|exact Hi|exact Hp].
    intros g d1 w1 _ Hi1 Hp1. now apply send_to_directory_settles.
  - intros w1 Hi1. rewrite mark_nodes, Hn.
    unfold bind at 1. unfold ret at 1.
    apply for_each_settles; [|exact Hi1|now rewrite mark_path].
    intros g d1 w2 _ Hi2 Hp2. now apply send_to_node_settles.
Qed.

End Success.

(* ================================================================== *)
(** * The return service: the end of a job directory *)
(* ================================================================== *)

Section JobEnd.

Import ReturnService Eff.

Lemma bind_Done_inv {W A B} (c : M W A) (k : A -> M W B) (w w' : W) (b : B) :
  bind c k w = Done b w' ->
  exists a w1, c w = Done a w1 /\ k a w1 = Done b w'.
Proof.
  unfold bind. destruct (c w) as [a w1|e w1]; [|discriminate].
  intros H. exists a, w1. split; [reflexivity|exact H].
Qed.

Lemma find_dir_name (n : string) (ds : list Folder) (f : Folder) :
  find_dir n ds = Some f -> name f = n.
Proof.
  unfold find_dir. intros H. apply find_some in H. destruct H as [_ H].
  now apply String.eqb_eq.
Qed.

Lemma find_dir_old_name (src dst : string) (ds : list Folder) :
  src <> dst -> find_dir src (update_dir src (renamed dst) ds) = None.
Proof.
  intros Hne. unfold find_dir, update_dir.
  assert (E : String.eqb dst src = false)
    by (apply String.eqb_neq; congruence).
  induction ds as [|h ds IH]; simpl; [reflexivity|].
  destruct (String.eqb (name h) src) eqn:Eh; simpl.
  - now rewrite E.
  - now rewrite Eh.
Qed.

Lemma find_dir_renamed (src dst : string) (ds : list Folder) (f : Folder) :
  src <> dst ->
  find_dir src ds = Some f -> find_dir dst ds = None ->
  find_dir dst (update_dir src (renamed dst) ds) = Some (renamed dst f) /\
  find_dir src (update_dir src (renamed dst) ds) = None.
Proof.
  intros Hne H1 H2. split; [|now apply find_dir_old_name].
  revert H1 H2. unfold find_dir, update_dir.
  induction ds as [|g ds IH]; simpl; [discriminate|].
  destruct (String.eqb (name g) src) eqn:Es.
  - intros H _. injection H as ->. simpl. now rewrite String.eqb_refl.
  - destruct (String.eqb (name g) dst) eqn:Ed; [discriminate|].
    intros H1 H2. now apply IH.
Qed.

Lemma find_dir_removed (n : string) (ds : list Folder) :
  find_dir n (remove_dir n ds) = None.
Proof.
  unfold find_dir, remove_dir. induction ds as [|g ds IH]; simpl; [reflexivity|].
  destruct (String.eqb (name g) n) eqn:E; simpl; [exact IH|].
  now rewrite E.
Qed.

(** A name the scan takes for a finished job is renamed, and to a
    different name. *)
Lemma inferred_name_handled (n : string) :
  is_inferred_name n = true ->
  exists new, handled_error_name n = Some new /\ new <> n /\
              Py.startswith new "handled_error_" = true /\
              is_inferred_name new = false /\ is_error_name new = false.
Proof.
  intros H.
  assert (Hh : Py.startswith n "handled_error" = false).
  { unfold is_inferred_name, Py.startswith in *.
    destruct n as [|c r]; [discriminate|].
    change (Py.lower (String c r))
      with (String (Py.lower_char c) (Py.lower r)) in H.
    cbn [String.prefix] in H.
    destruct (ascii_dec "i" (Py.lower_char c)) as [E|]; [|discriminate].
    cbn [String.prefix]. destruct (ascii_dec "h" c) as [<-|]; [|reflexivity].
    vm_compute in E. discriminate. }
  unfold handled_error_name. rewrite !stem_startswith by reflexivity.
  rewrite Hh.
  assert (K : forall x, let new := "handled_error_" ++ x in
               new <> n /\ Py.startswith new "handled_error_" = true /\
               is_inferred_name new = false /\ is_error_name new = false).
  { intros x new. split; [|split; [exact (prefix_app "handled_error_" x)|
                                  split; reflexivity]].
    intros E. subst n.
    assert (Py.startswith new "handled_error" = true)
      by (apply startswith_longer; exact (prefix_app "handled_error_" x)).
    congruence. }
  destruct (Py.startswith n "inferred"); eexists; (split; [reflexivity|]);
    apply K.
Qed.

(** What [renaming_to_handled_error] leaves behind for a directory that
    is to get the name [new]. *)
Lemma renaming_outcome (d : AiDir) (w : World) (f : Folder) (new : string) :
  find_dir (path d) (dirs w) = Some f ->
  handled_error_name (path d) = Some new -> new <> path d ->
  exists d' w',
    renaming_to_handled_error d w = Done d' w' /\
    transmission_failed d' = transmission_failed d /\
    error_message d' = error_message d /\
    trace w' = trace w /\
    if can_rename f new (dirs w)
    then path d' = new /\
         find_dir new (dirs w') = Some (renamed new f) /\
         find_dir (path d) (dirs w') = None
    else path d' = path d /\ dirs w' = dirs w.
Proof.
  intros Hf Hn Hne. unfold renaming_to_handled_error. rewrite Hn.
  unfold bind, get, os_rename, can_rename. rewrite Hf.
  destruct (in_use f); simpl; [exists d, w; auto 10|].
  destruct (find_dir new (dirs w)) eqn:En; [exists d, w; auto 10|].
  eexists _, _. split; [reflexivity|]. simpl.
  destruct (find_dir_renamed (path d) new (dirs w) f) as [H1 H2]; auto.
  repeat split; auto.
Qed.

Lemma find_dir_update (n : string) (g : Folder -> Folder)
    (ds : list Folder) :
  (forall f, name (g f) = name f) ->
  find_dir n (update_dir n g ds) = option_map g (find_dir n ds).
Proof.
  intros Hg. unfold find_dir, update_dir.
  induction ds as [|h ds IH]; simpl; [reflexivity|].
  destruct (String.eqb (name h) n) eqn:E; simpl.
  - now rewrite Hg, E.
  - now rewrite E.
Qed.

(** What [delete_sent_folder] leaves behind; it never raises. *)
Lemma delete_sent_folder_outcome (oracle : Oracle) (d : AiDir) (w : World)
    (f : Folder) :
  find_dir (path d) (dirs w) = Some f ->
  exists w',
    delete_sent_folder oracle d w = Done tt w' /\
    trace w' = trace w /\
    dirs w' = if in_use f
              then update_dir (path d)
                     (left_of (rmtree_keeps oracle (path d)) (clock w))
                     (dirs w)
              else remove_dir (path d) (dirs w).
Proof.
  intros Hf. unfold delete_sent_folder, try_except, rmtree, bind, get.
  rewrite Hf. destruct (in_use f); eexists; repeat split.
Qed.




(** ** The error flow *)

Lemma find_dir_shell (n : string) (ds : list Folder) :
  find_dir n (map shell ds) = option_map shell (find_dir n ds).
Proof.
  unfold find_dir. induction ds as [|g ds IH]; simpl; [reflexivity|].
  destruct (String.eqb (name g) n); [reflexivity|exact IH].
Qed.

Lemma find_dir_same_shells (n : string) (ds ds' : list Folder) (f : Folder) :
  map shell ds' = map shell ds -> find_dir n ds = Some f ->
  exists f', find_dir n ds' = Some f' /\ shell f' = shell f.
Proof.
  intros Hm Hf.
  pose proof (find_dir_shell n ds') as H. rewrite Hm, find_dir_shell, Hf in H.
  destruct (find_dir n ds') as [f'|]; [|discriminate].
  exists f'. split; [reflexivity|]. simpl in H. congruence.
Qed.

Lemma find_dir_same_shells_None (n : string) (ds ds' : list Folder) :
  map shell ds' = map shell ds -> find_dir n ds = None ->
  find_dir n ds' = None.
Proof.
  intros Hm Hf.
  pose proof (find_dir_shell n ds') as H. rewrite Hm, find_dir_shell, Hf in H.
  destruct (find_dir n ds'); [discriminate|reflexivity].
Qed.

Lemma update_dir_shells (n : string) (g : Folder -> Folder) (ds : list Folder) :
  (forall f, shell (g f) = shell f) ->
  map shell (update_dir n g ds) = map shell ds.
Proof.
  intros Hg. unfold update_dir. induction ds as [|h ds IH]; simpl; [reflexivity|].
  rewrite IH. destruct (String.eqb (name h) n); [now rewrite Hg|reflexivity].
Qed.

Lemma shell_name (f f' : Folder) : shell f' = shell f -> name f' = name f.
Proof. intros H. change (name (shell f') = name (shell f)). now rewrite H. Qed.

Lemma shell_in_use (f f' : Folder) :
  shell f' = shell f -> in_use f' = in_use f.
Proof. intros H. change (in_use (shell f') = in_use (shell f)). now rewrite H. Qed.

Lemma can_rename_shells (f f' : Folder) (new : string) (ds ds' : list Folder) :
  shell f' = shell f -> map shell ds' = map shell ds ->
  can_rename f' new ds' = can_rename f new ds.
Proof.
  intros Hf Hm. unfold can_rename. rewrite (shell_in_use _ _ Hf). f_equal.
  destruct (find_dir new ds) as [g|] eqn:E.
  - destruct (find_dir_same_shells new ds ds' g Hm E) as (g' & -> & _).
    reflexivity.
  - now rewrite (find_dir_same_shells_None new ds ds' Hm E).
Qed.

Lemma shell_create_root_file (x : string) (now : Z) (f : Folder) :
  shell (create_root_file x now f) = shell f.
Proof.
  unfold create_root_file. destruct (existsb _ _); reflexivity.
Qed.

Lemma update_dir_twice (n : string) (g1 g2 : Folder -> Folder)
    (ds : list Folder) :
  (forall f, name (g1 f) = name f) ->
  update_dir n g2 (update_dir n g1 ds) = update_dir n (fun f => g2 (g1 f)) ds.
Proof.
  intros Hg. unfold update_dir. rewrite map_map. apply map_ext. intros f.
  destruct (String.eqb (name f) n) eqn:E; [now rewrite Hg, E|now rewrite E].
Qed.

Lemma update_dir_id (n : string) (ds : list Folder) :
  update_dir n (fun f => f) ds = ds.
Proof.
  unfold update_dir. rewrite <- (map_id ds) at 2. apply map_ext. intros f.
  now destruct (String.eqb (name f) n).
Qed.

Lemma written_to_refl (n : string) (now : Z) (w : World) :
  written_to n now w w.
Proof.
  repeat split. exists (fun f => f). rewrite update_dir_id. auto.
Qed.

Lemma written_to_trans (n : string) (now : Z) (w1 w2 w3 : World) :
  written_to n now w1 w2 -> written_to n now w2 w3 -> written_to n now w1 w3.
Proof.
  intros (Ht & Hc & Hs & g & Hd & Hsh & Hm)
         (Ht' & Hc' & Hs' & g' & Hd' & Hsh' & Hm').
  repeat split; try congruence.
  exists (fun f => g' (g f)). split; [|split].
  - rewrite Hd', Hd. apply update_dir_twice.
    intros f. now apply shell_name.
  - intros x. now rewrite Hsh', Hsh.
  - intros x. destruct (Hm' (g x)) as [E|E]; [|now right].
    rewrite E. apply Hm.
Qed.

(** One write into the directory [n]. *)
Lemma written_to_put (n : string) (now : Z) (g : Folder -> Folder)
    (w : World) :
  (forall x, shell (g x) = shell x) ->
  (forall x, st_mtime (g x) = st_mtime x \/ st_mtime (g x) = now) ->
  written_to n now w (set_dirs (update_dir n g (dirs w)) w).
Proof. intros Hs Hm. repeat split. exists g. auto. Qed.

Lemma written_to_find (n : string) (now : Z) (w w' : World) (f : Folder) :
  written_to n now w w' -> find_dir n (dirs w) = Some f ->
  map shell (dirs w') = map shell (dirs w) /\
  exists f', find_dir n (dirs w') = Some f' /\ shell f' = shell f /\
             (st_mtime f' = st_mtime f \/ st_mtime f' = now).
Proof.
  intros (_ & _ & _ & g & Hd & Hsh & Hm) Hf. rewrite Hd. split.
  - now apply update_dir_shells.
  - exists (g f). rewrite find_dir_update by (intros x; now apply shell_name).
    rewrite Hf. auto.
Qed.

Section ErrorFlow.

Variable config : ReturnserviceConfig.
Variable oracle : Oracle.

Lemma create_error_struct_writes (d : AiDir) (w w' : World)
    (p : option File) :
  create_error_struct oracle d w = Done p w' ->
  written_to (path d) (clock w) w w' /\
  match p with
  | Some x => job x = path d /\ place x = InRoot
  | None => True
  end.
Proof.
  unfold create_error_struct, bind, get.
  destruct (find_dir (path d) (dirs w)) as [f|];
    [|intros H; injection H as <- <-; split; [apply written_to_refl|exact I]].
  destruct (error_struct_saved oracle (path d) (error_message d));
    intros H; injection H as <- <-;
    [|split; [apply written_to_refl|exact I]].
  split; [|split; reflexivity].
  apply written_to_put.
  - intros x. apply shell_create_root_file.
  - intros x. unfold create_root_file. destruct (existsb _ _); simpl; auto.
Qed.

Lemma adjust_rtstruct_writes (filepath p' : File) (w w' : World) :
  adjust_rtstruct_dicom_information oracle filepath w = Done p' w' ->
  written_to (job filepath) (clock w) w w' /\
  job p' = job filepath /\ place p' = InRoot.
Proof.
  unfold adjust_rtstruct_dicom_information. intros H.
  apply bind_Done_inv in H. destruct H as (digits & w1 & Hl & H).
  destruct (sop_instance_digits oracle filepath) as [e|dg]; [discriminate|].
  cbv beta iota delta [lift ret] in Hl. injection Hl as <- <-.
  apply bind_Done_inv in H. destruct H as (w2 & w2' & Hg & H).
  cbv beta delta [get] in Hg. injection Hg as <- <-.
  apply bind_Done_inv in H. destruct H as ([] & w3 & Hput & H).
  cbv beta delta [put] in Hput. injection Hput as <-.
  apply bind_Done_inv in H. destruct H as (w5 & w5' & Hg & H).
  cbv beta delta [get] in Hg. injection Hg as <- <-.
  apply bind_Done_inv in H. destruct H as ([] & w4 & Hrm & H).
  cbv beta delta [ret] in H. injection H as <- <-. split; [|split; reflexivity].
  eapply written_to_trans.
  - apply written_to_put.
    + intros x. apply shell_create_root_file.
    + intros x. unfold create_root_file. destruct (existsb _ _); simpl; auto.
  - destruct (find_dir (job filepath) _) as [f|]; [|discriminate].
    destruct (existsb _ (root_files f)); [|discriminate].
    injection Hrm as <-.
    unfold written_to. cbn [trace clock return_shares dirs set_dirs].
    repeat (split; [reflexivity|]).
    eexists. split; [reflexivity|]. split; [reflexivity|].
    intros x. now right.
Qed.

(** Where [handle_error] leaves a job directory that is to get the
    name [new]. *)
Lemma handle_error_outcome (d d' : AiDir) (w w' : World) (f : Folder)
    (new : string) :
  find_dir (path d) (dirs w) = Some f ->
  handled_error_name (path d) = Some new -> new <> path d ->
  handle_error config oracle d w = Done d' w' ->
  error_message d' = error_message d /\
  nothing_from_dcmoutput w w' /\
  exists f1,
    shell f1 = shell f /\
    (st_mtime f1 = st_mtime f \/ st_mtime f1 = clock w) /\
    if can_rename f new (dirs w)
    then path d' = new /\ find_dir (path d) (dirs w') = None /\
         find_dir new (dirs w') = Some (renamed new f1)
    else path d' = path d /\ find_dir (path d) (dirs w') = Some f1.
Proof.
  intros Hf Hn Hne Hrun.
  (* the state in which the final rename is made *)
  assert (Hmid : exists d1 w1 w2,
            renaming_to_handled_error d1 w2 = Done d' w' /\
            path d1 = path d /\ error_message d1 = error_message d /\
            written_to (path d) (clock w) w w1 /\
            dirs w2 = dirs w1 /\
            exists t, trace w2 = (trace w1 ++ t)%list /\
                      moves_only (fun x => in_dcmoutput x = false) t).
  { unfold handle_error in Hrun.
    apply bind_Done_inv in Hrun. destruct Hrun as (w0 & w0' & Hg & Hrun).
    unfold get in Hg. injection Hg as <- <-. rewrite Hf in Hrun.
    assert (Hnil : exists t : list Event,
              trace w = (trace w ++ t)%list /\
              moves_only (fun x => in_dcmoutput x = false) t)
      by (exists []; split; [now rewrite app_nil_r|constructor]).
    destruct f as [fn fc fe fo fi fr fm fu]. destruct fi as [input|];
      [|exists d, w, w; split; [exact Hrun|]; split; [reflexivity|];
        split; [reflexivity|]; split; [apply written_to_refl|];
        split; [reflexivity|exact Hnil]].
    apply bind_Done_inv in Hrun. destruct Hrun as (p & w1 & Hc & Hrun).
    apply bind_Done_inv in Hrun. destruct Hrun as (d1 & w2 & Hs & Hrun).
    apply create_error_struct_writes in Hc. destruct Hc as [Hw1 Hp].
    destruct p as [p|].
    - destruct Hp as [Hj Hpl].
      apply bind_Done_inv in Hs. destruct Hs as (p' & w3 & Ha & Hs).
      apply adjust_rtstruct_writes in Ha. destruct Ha as (Hw3 & Hj' & Hpl').
      unfold send_struct_to_all_returns in Hs.
      apply bind_Done_inv in Hs. destruct Hs as (d2 & w5 & Hfan & Hret).
      unfold ret in Hret. injection Hret as <- <-.
      pose proof (fan_out_ok config oracle
                    (fun x => in_dcmoutput x = false)
                    (fun x E => ltac:(unfold in_dcmoutput; now rewrite E))
                    p' d w3
                    ltac:(unfold in_dcmoutput; now rewrite Hpl')) as Hok.
      rewrite Hfan in Hok.
      destruct Hok as [(Hd & _ & t & Ht & Hm) Hfl].
      apply flagged_dicts in Hfl. destruct Hfl as (Hpd & He & _).
      exists d2, w3, w5. split; [exact Hrun|]. split; [exact Hpd|].
      split; [exact He|]. split; [|split; [exact Hd|]].
      + eapply written_to_trans; [exact Hw1|].
        rewrite Hj in Hw3.
        replace (clock w) with (clock w1); [exact Hw3|].
        now destruct Hw1 as (_ & -> & _).
      + exists t. split; [exact Ht|exact Hm].
    - unfold ret in Hs. injection Hs as <- <-.
      exists d, w1, w1. split; [exact Hrun|]. split; [reflexivity|].
      split; [reflexivity|]. split; [exact Hw1|]. split; [reflexivity|].
      exists []. split; [now rewrite app_nil_r|constructor]. }
  destruct Hmid as (d1 & w1 & w2 & Hr & Hp & He & Hw & Hd2 & t & Ht & Hm).
  destruct (written_to_find _ _ _ _ f Hw Hf)
    as (Hsh & f1 & Hf1 & Hs1 & Hm1).
  rewrite <- Hd2 in Hf1. rewrite <- Hp in Hf1, Hn, Hne.
  destruct (renaming_outcome d1 w2 f1 new Hf1 Hn Hne)
    as (d3 & w3 & Hr3 & _ & He3 & Ht3 & Hres).
  rewrite Hr in Hr3. injection Hr3 as <- <-.
  split; [congruence|]. split.
  { exists t. split; [|exact Hm].
    rewrite Ht3, Ht. now destruct Hw as (-> & _). }
  exists f1. split; [exact Hs1|]. split; [exact Hm1|].
  rewrite (can_rename_shells f f1 new (dirs w) (dirs w2) Hs1) in Hres
    by (now rewrite Hd2).
  rewrite Hp in Hres.
  destruct (can_rename f new (dirs w)).
  - destruct Hres as (H1 & H2 & H3). auto.
  - destruct Hres as (H1 & H2). split; [assumption|].
    rewrite H2, <- Hp. exact Hf1.
Qed.

End ErrorFlow.

(** C4 (as amended).  A finished job whose [dcmoutput] folder holds no
    [.dcm] file, or more than one, and whose handling came to its end:
    the worker stores the message of the case, the two messages being
    different; what it does is [handle_error] on the job with that
    message; no file of [dcmoutput] is copied or stored anywhere; and the
    directory gets a name [handled_error_...], which neither the flow
    for finished jobs nor the flow for failed jobs picks up, unless
    another process holds the directory or a directory of the new name
    exists, in which case it keeps its name.  Either way the directory
    keeps its configuration and error files and its two folders; files
    lying directly in it may have come or gone, and its modification
    time is the old one or the time of the scan. *)
Theorem C4_no_single_result_file :
  forall (config : ReturnserviceConfig) (oracle : Oracle)
         (d d' : AiDir) (w w' : World) (f : Folder) (files : list string),
    is_inferred_name (path d) = true ->
    find_dir (path d) (dirs w) = Some f ->
    dcmoutput f = Some files ->
    List.length (filter is_dcm files) <> 1%nat ->
    initiate_sending_struct config oracle d w = Done d' w' ->
    let message := match filter is_dcm files with
                   | [] => no_struct_message
                   | _ => too_many_message
                   end in
    no_struct_message <> too_many_message /\
    initiate_sending_struct config oracle d w
      = handle_error config oracle (with_error_message message d) w /\
    error_message d' = Some message /\
    nothing_from_dcmoutput w w' /\
    exists new,
      handled_error_name (path d) = Some new /\
      Py.startswith new "handled_error_" = true /\
      is_inferred_name new = false /\ is_error_name new = false /\
      exists f1,
        shell f1 = shell f /\
        (st_mtime f1 = st_mtime f \/ st_mtime f1 = clock w) /\
        if can_rename f new (dirs w)
        then path d' = new /\ find_dir (path d) (dirs w') = None /\
             find_dir new (dirs w') = Some (renamed new f1)
        else path d' = path d /\ find_dir (path d) (dirs w') = Some f1.
Proof.
  intros config oracle d d' w w' f files Hi Hf Ho Hlen Hrun message.
  split; [discriminate|].
  assert (E : initiate_sending_struct config oracle d w
              = handle_error config oracle (with_error_message message d) w).
  { unfold initiate_sending_struct, bind, get. rewrite Hf.
    destruct f as [fn fc fe fo fi fr fm fu]. simpl in Ho. subst fo.
    unfold message. destruct (filter is_dcm files) as [|a [|b l]];
      [reflexivity|now elim Hlen|reflexivity]. }
  split; [exact E|]. rewrite E in Hrun.
  destruct (inferred_name_handled _ Hi) as (new & Hn & Hne & Hp & Hni & Hne').
  destruct (handle_error_outcome config oracle
              (with_error_message message d) d' w w' f new Hf Hn Hne Hrun)
    as (He & Ht & Hres).
  split; [exact He|]. split; [exact Ht|].
  exists new. repeat (split; [assumption|]). exact Hres.
Qed.

(** One job without structure set, one share: the job is quarantined;
    the placeholder was written into the directory, whose modification
    time is that of the scan. *)
Lemma C4_witness :
  exists d' w',
    initiate_sending_struct Scenario.return_config Scenario.all_fine
      Scenario.loaded_for_share Scenario.empty_output = Done d' w' /\
    error_message d' = Some no_struct_message /\
    map name (dirs w') = ["handled_error_1.2.840.7"] /\
    map st_mtime (dirs w') = [clock Scenario.empty_output] /\
    nothing_from_dcmoutput Scenario.empty_output w'.
Proof.
  eexists _, _. split; [vm_compute; reflexivity|].
  split; [reflexivity|]. split; [reflexivity|]. split; [reflexivity|].
  exact (proj1 (proj2 (proj2 (proj2
    (C4_no_single_result_file Scenario.return_config Scenario.all_fine
       Scenario.loaded_for_share _ Scenario.empty_output _
       (Scenario.job_folder "inferred_1.2.840.7" Scenario.to_one_share [])
       [] eq_refl eq_refl eq_refl
       (fun E : 0%nat = 1%nat =>
          eq_ind 0%nat (fun n => match n with O => True | S _ => False end)
            I 1%nat E)
       eq_refl))))).
Defined.

(** A job without structure set next to the quarantined directory of an
    earlier run: the rename is refused, the directory keeps its
    [inferred_] name, and the next scan goes through the error flow
    again, copying a second placeholder to the share. *)
Lemma C4_counterexample :
  exists w1 w2,
    scan_directory Scenario.return_config Scenario.all_fine
      Scenario.resubmitted_empty = Done tt w1 /\
    map name (dirs w1) = ["inferred_1.2.840.7"; "handled_error_1.2.840.7"] /\
    scan_directory Scenario.return_config Scenario.all_fine w1 = Done tt w2 /\
    map name (dirs w2) = ["inferred_1.2.840.7"; "handled_error_1.2.840.7"] /\
    List.length (filter moves_a_file (trace w1)) = 1%nat /\
    List.length (filter moves_a_file (trace w2)) = 2%nat.
Proof.
  eexists _, _. split; [vm_compute; reflexivity|].
  split; [reflexivity|]. split; [vm_compute; reflexivity|].
  repeat split.
Qed.

End JobEnd.

(* ================================================================== *)
(** * The return service: associations with network receivers *)
(* ================================================================== *)

Section Associations.

Import ReturnService Eff.

Variable config : ReturnserviceConfig.
Variable oracle : Oracle.

Lemma same_node_refl (ip : string) (port : Z) (aet : string) :
  same_node ip port aet ip port aet = true.
Proof.
  unfold same_node. now rewrite !String.eqb_refl, Z.eqb_refl.
Qed.

Lemma link_run_app (l : Link) (t1 t2 : list Event) :
  link_run l (t1 ++ t2)
  = match link_run l t1 with
    | Some l' => link_run l' t2
    | None => None
    end.
Proof.
  revert l; induction t1 as [|e t1 IH]; intros l; simpl; [reflexivity|].
  destruct (link_step l e); [apply IH|reflexivity].
Qed.

Lemma link_run_stores (ip : string) (port : Z) (aet : string)
    (files : list File) :
  link_run (Opened ip port aet) (map (CStore ip port aet) files)
  = Some (Opened ip port aet).
Proof.
  induction files as [|f files IH]; simpl; [reflexivity|].
  now rewrite same_node_refl.
Qed.

Lemma associations_app (t1 t2 : list Event) :
  associations (t1 ++ t2) = (associations t1 ++ associations t2)%list.
Proof. apply filter_app. Qed.

Lemma associations_stores (ip : string) (port : Z) (aet : string)
    (files : list File) :
  associations (map (CStore ip port aet) files) = [].
Proof. induction files; simpl; auto. Qed.

Lemma session_released (ip : string) (port : Z) (aet : string)
    (established : bool) (files : list File) :
  link_run Closed (session ip port aet established files) = Some Closed /\
  List.length (associations (session ip port aet established files)) = 1%nat.
Proof.
  unfold session. destruct established; simpl; [|auto].
  rewrite link_run_app, link_run_stores. simpl. rewrite same_node_refl.
  rewrite associations_app, associations_stores. auto.
Qed.

(** The trace of [send_struct] when it returns: nothing if the address
    is incomplete, else one session, which carries the structure set at
    most. *)
Lemma send_struct_trace (struct_path : File) (return_address : Dict)
    (d d' : AiDir) (w w' : World) :
  send_struct config oracle struct_path return_address d w = Done d' w' ->
  path d' = path d /\
  match node_address (return_dicom_str config) return_address with
  | inl _ => trace w' = trace w
  | inr (ip, port, aet) =>
      exists established files,
        trace w' = (trace w ++ session ip port aet established files)%list /\
        established = is_established (associate oracle ip port aet) /\
        Forall (fun f => f = struct_path) files
  end.
Proof.
  unfold send_struct.
  destruct (node_address _ return_address) as [e|[[ip port] aet]].
  - intros H; injection H as <- <-. split; reflexivity.
  - unfold bind, emit, modify, ret, raise.
    destruct (associate oracle ip port aet) eqn:Ea; simpl.
    + intros H; injection H as <- <-. split; [reflexivity|].
      exists false, []. repeat split. constructor.
    + destruct (dcmread oracle struct_path) as [e|].
      * destruct (Py.is_OSError e); [|discriminate].
        intros H; injection H as <- <-. split; [reflexivity|].
        exists true, []. simpl.
        split; [now rewrite <- app_assoc|]. split; [reflexivity|constructor].
      * destruct (send_c_store oracle ip port aet struct_path) as [[]|e];
          [| |discriminate];
          intros H; injection H as <- <-; (split; [reflexivity|]);
          exists true, [struct_path]; simpl;
          (split; [now rewrite <- !app_assoc|]);
          (split; [reflexivity|]); repeat constructor.
    + intros H; injection H as <- <-. split; [reflexivity|].
      exists false, []. repeat split. constructor.
Qed.

(** The loop of [send_scan] over the source images. *)
Lemma send_scan_loop_trace (ip : string) (port : Z) (aet : string)
    (job_name : string) (files : list string) (d d' : AiDir) (w w' : World) :
  for_each files
    (fun dcm d0 =>
       let dcm_path := {| job := job_name; place := InDcmInput; fname := dcm |} in
       match dcmread oracle dcm_path with
       | Some e => raise e
       | None =>
           emit (CStore ip port aet dcm_path) ;;;
           match send_c_store oracle ip port aet dcm_path with
           | StoreStatus true => ret d0
           | StoreStatus false => ret (failed d0)
           | StoreRaises _ => ret (failed d0)
           end
       end) d w = Done d' w' ->
  trace w'
  = (trace w
     ++ map (CStore ip port aet)
          (map (fun dcm => {| job := job_name; place := InDcmInput;
                              fname := dcm |}) files))%list.
Proof.
  revert d w; induction files as [|dcm files IH]; intros d w; simpl.
  - intros H; injection H as <- <-. now rewrite app_nil_r.
  - intros H. apply bind_Done_inv in H. destruct H as (d1 & w1 & Hb & Hrest).
    apply IH in Hrest. rewrite Hrest. clear Hrest IH.
    destruct (dcmread oracle _); [discriminate|].
    unfold bind, emit, modify, ret in Hb.
    destruct (send_c_store oracle ip port aet _) as [[]|e];
      injection Hb as <- <-; simpl; now rewrite <- app_assoc.
Qed.

(** The trace of [send_scan] when it returns: nothing if the address is
    incomplete, else one session, which carries source images of the
    job only. *)
Lemma send_scan_trace (return_address : Dict) (d d' : AiDir) (w w' : World) :
  send_scan oracle return_address d w = Done d' w' ->
  match node_address "ReturnDicomNode" return_address with
  | inl _ => trace w' = trace w
  | inr (ip, port, aet) =>
      exists established files,
        trace w' = (trace w ++ session ip port aet established files)%list /\
        established = is_established (associate oracle ip port aet) /\
        Forall (fun f => job f = path d /\ place f = InDcmInput) files
  end.
Proof.
  unfold send_scan.
  destruct (node_address _ return_address) as [e|[[ip port] aet]].
  - intros H; injection H as <- <-; reflexivity.
  - intros H. apply bind_Done_inv in H. destruct H as ([] & w1 & He & H).
    unfold emit, modify in He. injection He as <-.
    destruct (associate oracle ip port aet) eqn:Ea; simpl in H.
    + injection H as <- <-. exists false, []. repeat split. constructor.
    + apply bind_Done_inv in H. destruct H as (w2 & w2' & Hg & H).
      unfold get in Hg. injection Hg as <- <-.
      destruct (scan_files _ d) as [e|files].
      * unfold bind, emit, modify, ret in H. injection H as <- <-.
        exists true, []. simpl.
        split; [now rewrite <- app_assoc|]. split; [reflexivity|constructor].
      * apply bind_Done_inv in H. destruct H as (d1 & w3 & Hloop & H).
        apply send_scan_loop_trace in Hloop.
        unfold bind, emit, modify, ret in H. injection H as <- <-.
        eexists true, _. simpl. rewrite Hloop. simpl.
        rewrite <- !app_assoc. simpl. split; [reflexivity|].
        split; [reflexivity|].
        apply Forall_forall. intros f Hin. apply in_map_iff in Hin.
        destruct Hin as (dcm & <- & _). split; reflexivity.
    + injection H as <- <-. exists false, []. repeat split. constructor.
Qed.

Lemma associations_session (ip : string) (port : Z) (aet : string)
    (established : bool) (files : list File) :
  associations (session ip port aet established files)
  = [Associate ip port aet established].
Proof.
  unfold session. destruct established; simpl; [|reflexivity].
  now rewrite associations_app, associations_stores.
Qed.


End Associations.

Section AssociationsAtWork.

Import ReturnService Eff.



(** C6 (the code at the failing input).  One job, two network
    receivers; the store on the first receiver raises.  The exception
    leaves [send_struct] and the scan: no association is asked of the
    second receiver, the first association is not released, the job
    directory stays as it was, and the worker returns. *)
Theorem C6_store_exception_ends_the_fan_out :
  exists w',
    scan_directory Scenario.return_config Scenario.first_store_raises
      Scenario.two_nodes = Raised Py.ValueError w' /\
    trace w'
    = [Associate "10.0.0.1" 104 "PACS" true;
       CStore "10.0.0.1" 104 "PACS"
         {| job := "inferred_1.2.840.7"; place := InDcmOutput;
            fname := "rtstruct.dcm" |}] /\
    dirs w' = dirs Scenario.two_nodes /\
    forall rounds,
      returnservice_worker Scenario.return_config Scenario.first_store_raises
        (S rounds) Scenario.two_nodes
      = (Crashed Py.ValueError 0, w').
Proof.
  eexists.
  assert (E : scan_directory Scenario.return_config
                Scenario.first_store_raises Scenario.two_nodes
              = Raised Py.ValueError _) by (vm_compute; reflexivity).
  split; [exact E|]. split; [reflexivity|]. split; [reflexivity|].
  intros rounds. unfold returnservice_worker. cbn [worker_from].
  now rewrite E.
Qed.

End AssociationsAtWork.

(* ================================================================== *)
(** * The return service: failures that are flagged do not stop the
      fan-out *)
(* ================================================================== *)

Section FanOut.

Import ReturnService Eff.

Variable config : ReturnserviceConfig.
Variable oracle : Oracle.

Local Abbreviation any_file := (fun _ : File => True).
Local Abbreviation share_reached := (ReturnService.share_reached config oracle).
Local Abbreviation node_reached := (ReturnService.node_reached config).

Lemma made_since_later (w w1 w2 : World) (e : Event) :
  made_since w w1 e -> extends any_file w1 w2 -> made_since w w2 e.
Proof.
  intros (t & Ht & Hin) (_ & _ & t' & Ht' & _).
  exists (t ++ t')%list. split; [now rewrite Ht', Ht, app_assoc|].
  apply in_or_app; now left.
Qed.

Lemma made_since_earlier (w w1 w2 : World) (e : Event) :
  extends any_file w w1 -> made_since w1 w2 e -> made_since w w2 e.
Proof.
  intros (_ & _ & t & Ht & _) (t' & Ht' & Hin).
  exists (t ++ t')%list. split; [now rewrite Ht', Ht, app_assoc|].
  apply in_or_app; now right.
Qed.

Lemma extends_of_Done {A} (c : M World A) (Q : A -> Prop) (w w' : World) (a : A) :
  run_ok any_file w Q (c w) -> c w = Done a w' -> extends any_file w w'.
Proof. intros H E. rewrite E in H. exact (proj1 H). Qed.

(** A loop whose rounds each leave a mark [R] that later and earlier
    events do not erase leaves the mark of every round. *)
Lemma for_each_marks {A} (R : A -> World -> World -> Prop)
    (body : A -> AiDir -> M World AiDir) :
  (forall x d w, run_ok any_file w (flagged d) (body x d w)) ->
  (forall x d w d1 w1, body x d w = Done d1 w1 -> R x w w1) ->
  (forall x w w1 w2, R x w w1 -> extends any_file w1 w2 -> R x w w2) ->
  (forall x w w1 w2, extends any_file w w1 -> R x w1 w2 -> R x w w2) ->
  forall l d w d' w',
    for_each l body d w = Done d' w' ->
    forall x, In x l -> R x w w'.
Proof.
  intros Hok Hbody Hlater Hearlier.
  induction l as [|y l IH]; intros d w d' w' Hrun x Hin; [destruct Hin|].
  simpl in Hrun. apply bind_Done_inv in Hrun.
  destruct Hrun as (d1 & w1 & Hb & Hrest).
  destruct Hin as [<-|Hin].
  - eapply Hlater; [eapply Hbody; eauto|].
    eapply extends_of_Done; [|exact Hrest].
    apply (run_for_each any_file). exact Hok.
  - eapply Hearlier; [|eapply IH; eauto].
    eapply extends_of_Done; [apply Hok|exact Hb].
Qed.

Lemma send_to_directory_reaches (struct_path : File) (g : Dict)
    (d d1 : AiDir) (w w1 : World) :
  send_to_directory config oracle struct_path g d w = Done d1 w1 ->
  share_reached struct_path g w w1.
Proof.
  unfold send_to_directory. intros H.
  apply bind_Done_inv in H. destruct H as (patient & wa & Hp & H).
  destruct (patient_id oracle struct_path) as [e|pid] eqn:Epid;
    [discriminate|].
  injection Hp as <- <-.
  apply bind_Done_inv in H. destruct H as (v1 & wb & Hv & H).
  destruct (dict_get (return_directory_str config) g) as [e|v] eqn:Ev;
    [discriminate|].
  injection Hv as <- <-.
  exists pid, v. split; [exact Epid|]. split; [exact Ev|].
  apply bind_Done_inv in H. destruct H as (w0 & wc & Hg & H).
  unfold get in Hg. injection Hg as <- <-.
  apply bind_Done_inv in H. destruct H as (made & wm & Hm & H).
  assert (Hcopy : forall d0 w0 d2 w2,
            (d3 <- copy_file_to_dir oracle struct_path (join_path v pid) false d0 ;;
             if send_scan_flag oracle (return_directory_str config ++ "SendScan") g
             then copy_scan_to_dir oracle (join_path v pid) d3
             else ret d3) w0 = Done d2 w2 ->
            made_since w0 w2 (Copy struct_path (path_str (join_path v pid)))).
  { intros d0 w0 d2 w2 Hc.
    apply bind_Done_inv in Hc. destruct Hc as (d3 & w3 & Hc & Hs).
    assert (Hmade : made_since w0 w3
                      (Copy struct_path (path_str (join_path v pid)))).
    { unfold copy_file_to_dir, bind, emit, modify, ret in Hc.
      destruct (copy2 oracle struct_path _) as [[]|];
        injection Hc as <- <-; eexists; simpl;
        (split; [rewrite <- !app_assoc; reflexivity|simpl; auto]). }
    eapply made_since_later; [exact Hmade|].
    destruct (send_scan_flag oracle _ g).
    - eapply extends_of_Done; [|exact Hs].
      apply (copy_scan_to_dir_ok oracle any_file). trivial.
    - unfold ret in Hs. injection Hs as <- <-.
      apply extends_refl. }
  destruct (existsb _ (return_shares w)).
  - unfold ret in Hm. injection Hm as <- <-. simpl in H.
    right. eapply Hcopy; eauto.
  - left.
    apply bind_Done_inv in Hm. destruct Hm as ([] & we & He & Hm).
    unfold emit, modify in He. injection He as <-.
    match type of Hm with
    | _ ?wx = _ => apply (made_since_later w wx)
    end.
    + eexists; split; [reflexivity|now left].
    + assert (Hx : extends any_file
                     {| dirs := dirs w; return_shares := return_shares w;
                        clock := clock w;
                        trace := (trace w
                                  ++ [Mkdir (path_str (join_path v pid))])%list |}
                     wm).
      { destruct (mkdir oracle _) as [[]|]; try discriminate.
        - unfold bind, emit, modify, ret in Hm. injection Hm as <- <-.
          repeat split. eexists; split; [reflexivity|].
          repeat constructor; discriminate.
        - unfold bind, add_share, modify, ret in Hm. injection Hm as <- <-.
          repeat split. exists []; split; [now rewrite app_nil_r|constructor]. }
      eapply extends_trans; [exact Hx|].
      destruct made; simpl in H.
      * eapply extends_of_Done; [|exact H].
        eapply run_bind;
          [apply (copy_file_to_dir_ok oracle any_file); exact I|].
        intros d3 w3 H3. destruct (send_scan_flag oracle _ g).
        -- eapply run_weaken;
             [|apply (copy_scan_to_dir_ok oracle any_file); trivial].
           intros; exact I.
        -- apply run_ret; exact I.
      * unfold ret in H. injection H as <- <-. apply extends_refl.
Qed.

Lemma send_to_node_reaches (struct_path : File) (g : Dict)
    (d d1 : AiDir) (w w1 : World) :
  send_to_node config oracle struct_path g d w = Done d1 w1 ->
  node_reached g w w1.
Proof.
  unfold send_to_node. intros H ip port aet Ha.
  apply bind_Done_inv in H. destruct H as (d2 & w2 & Hs & H).
  pose proof (send_struct_trace config oracle _ _ _ _ _ _ Hs) as Ht.
  destruct Ht as [_ Ht].
  rewrite Ha in Ht. destruct Ht as (est & files & Ht & _).
  exists est. eapply made_since_later.
  - eexists; split; [exact Ht|]. unfold session. now left.
  - destruct (send_scan_flag oracle _ g).
    + eapply extends_of_Done; [|exact H].
      apply (send_scan_ok oracle any_file). trivial.
    + unfold ret in H. injection H as <- <-. apply extends_refl.
Qed.

(** When the two loops come to their end, every return share and every
    network receiver of the job has been tried, whatever was flagged on
    the way; and the flag, once set, stays set. *)
Lemma fan_out_reaches_every_destination (struct_path : File)
    (d d' : AiDir) (w w' : World) (shares nodes : Groups) :
  return_directory_dict d = Some shares ->
  return_dicom_node_dict d = Some nodes ->
  fan_out config oracle struct_path d w = Done d' w' ->
  (forall g, In g (values shares) -> share_reached struct_path g w w') /\
  (forall g, In g (values nodes) -> node_reached g w w') /\
  (transmission_failed d = true -> transmission_failed d' = true).
Proof.
  intros Hs Hn H. unfold fan_out in H. rewrite Hs in H.
  apply bind_Done_inv in H. destruct H as (l1 & w1 & Hl1 & H).
  injection Hl1 as <- <-.
  apply bind_Done_inv in H. destruct H as (d1 & w2 & Hloop1 & H).
  pose proof (run_for_each any_file (values shares)
                (send_to_directory config oracle struct_path)
                (fun x d0 w0 => send_to_directory_ok config oracle any_file
                                  (fun _ _ => I) struct_path x d0 w0 I) d w)
    as Hok1.
  rewrite Hloop1 in Hok1. destruct Hok1 as [Hx1 Hf1].
  apply flagged_dicts in Hf1. destruct Hf1 as (_ & _ & Hnd & _ & _ & Hfl1).
  rewrite Hnd, Hn in H.
  apply bind_Done_inv in H. destruct H as (l2 & w3 & Hl2 & Hloop2).
  injection Hl2 as <- <-.
  pose proof (run_for_each any_file (values nodes)
                (send_to_node config oracle struct_path)
                (fun x d0 w0 => send_to_node_ok config oracle any_file
                                  (fun _ _ => I) struct_path x d0 w0 I) d1 w2)
    as Hok2.
  rewrite Hloop2 in Hok2. destruct Hok2 as [Hx2 Hf2].
  apply flagged_dicts in Hf2. destruct Hf2 as (_ & _ & _ & _ & _ & Hfl2).
  split; [|split; [|auto]].
  - intros g Hin.
    assert (R1 : share_reached struct_path g w w2).
    { eapply (for_each_marks (share_reached struct_path)); eauto.
      - intros; now apply send_to_directory_ok.
      - intros; eapply send_to_directory_reaches; eauto.
      - intros x wa wb wc (pt & v1 & E1 & E2 & [M|M]) Hx;
          exists pt, v1; repeat split; auto;
          [left|right]; eapply made_since_later; eauto.
      - intros x wa wb wc Hx (pt & v1 & E1 & E2 & [M|M]);
          exists pt, v1; repeat split; auto;
          [left|right]; eapply made_since_earlier; eauto. }
    destruct R1 as (pt & v1 & E1 & E2 & [M|M]);
      exists pt, v1; repeat split; auto;
      [left|right]; eapply made_since_later; eauto.
  - intros g Hin.
    assert (R2 : node_reached g w2 w').
    { eapply (for_each_marks node_reached); eauto.
      - intros; now apply send_to_node_ok.
      - intros; eapply send_to_node_reaches; eauto.
      - intros x wa wb wc R Hx ip port aet Ha.
        destruct (R ip port aet Ha) as (est & M).
        exists est; eapply made_since_later; eauto.
      - intros x wa wb wc Hx R ip port aet Ha.
        destruct (R ip port aet Ha) as (est & M).
        exists est; eapply made_since_earlier; eauto. }
    intros ip port aet Ha. destruct (R2 ip port aet Ha) as (est & M).
    exists est. eapply made_since_earlier; eauto.
Qed.

(** A loop in one round of which the flag is set ends with the flag
    set. *)
Lemma for_each_flag {A} (body : A -> AiDir -> M World AiDir) (x : A) :
  (forall y d w, run_ok any_file w (flagged d) (body y d w)) ->
  (forall d w d1 w1, body x d w = Done d1 w1 -> transmission_failed d1 = true) ->
  forall l d w d' w',
    In x l -> for_each l body d w = Done d' w' ->
    transmission_failed d' = true.
Proof.
  intros Hok Hx. induction l as [|y l IH]; intros d w d' w' Hin Hrun;
    [destruct Hin|].
  simpl in Hrun. apply bind_Done_inv in Hrun.
  destruct Hrun as (d1 & w1 & Hb & Hrest).
  destruct Hin as [->|Hin]; [|eapply IH; eauto].
  pose proof (run_for_each any_file l body Hok d1 w1) as H.
  rewrite Hrest in H. destruct H as [_ Hf].
  apply flagged_dicts in Hf. apply Hf. eapply Hx; eauto.
Qed.

(** A return share that refuses the copy of the structure set sets the
    flag of the job. *)
Lemma send_to_directory_flags (struct_path : File) (g : Dict)
    (d d1 : AiDir) (w w1 : World) (patient v1 : string) (e : Py.Exn) :
  patient_id oracle struct_path = inr patient ->
  dict_get (return_directory_str config) g = inr v1 ->
  copy2 oracle struct_path (path_str (join_path v1 patient)) = Some e ->
  send_to_directory config oracle struct_path g d w = Done d1 w1 ->
  transmission_failed d1 = true.
Proof.
  intros Hp Hv Hc H. unfold send_to_directory in H. rewrite Hp, Hv in H.
  apply bind_Done_inv in H. destruct H as (pt & wa & E1 & H).
  injection E1 as <- <-.
  apply bind_Done_inv in H. destruct H as (vv & wb & E2 & H).
  injection E2 as <- <-.
  apply bind_Done_inv in H. destruct H as (w0 & wc & Hg & H).
  apply bind_Done_inv in H. destruct H as (made & wm & Hm & H).
  destruct made; simpl in H; [|injection H as <- <-; reflexivity].
  apply bind_Done_inv in H. destruct H as (d2 & w2 & Hcp & H).
  assert (F : transmission_failed d2 = true).
  { unfold copy_file_to_dir, bind, emit, modify, ret in Hcp. rewrite Hc in Hcp.
    destruct e; injection Hcp as <- <-; reflexivity. }
  destruct (send_scan_flag oracle _ g).
  - pose proof (copy_scan_to_dir_ok oracle any_file (fun _ _ => I)
                  (join_path v1 patient) d2 w2) as Hok.
    rewrite H in Hok. destruct Hok as [_ Hf].
    apply flagged_dicts in Hf. now apply Hf.
  - injection H as <- <-. exact F.
Qed.

(** A receiver that answers the store of the structure set with an
    empty status, or whose association is not established, sets the flag
    of the job; a receiver that takes the structure set leaves the flag
    of [send_struct] as it was. *)
Lemma send_struct_flag (struct_path : File) (g : Dict)
    (d d1 : AiDir) (w w1 : World) (ip : string) (port : Z) (aet : string) :
  node_address (return_dicom_str config) g = inr (ip, port, aet) ->
  send_struct config oracle struct_path g d w = Done d1 w1 ->
  d1 = (if andb (is_established (associate oracle ip port aet))
             (match dcmread oracle struct_path,
                    send_c_store oracle ip port aet struct_path with
              | None, StoreStatus true => true
              | _, _ => false
              end)
        then d else failed d).
Proof.
  intros Ha H. unfold send_struct in H. rewrite Ha in H.
  unfold bind, emit, modify, ret, raise in H.
  destruct (associate oracle ip port aet); simpl in *;
    try (injection H as <- <-; reflexivity).
  destruct (dcmread oracle struct_path) as [e|].
  - destruct (Py.is_OSError e); [|discriminate].
    injection H as <- <-; reflexivity.
  - destruct (send_c_store oracle ip port aet struct_path) as [[]|e];
      [| |discriminate]; injection H as <- <-; reflexivity.
Qed.

(** The part of the fan-out that holds: when the two loops come to
    their end, a share that refused the structure set has set the flag,
    and every other share and receiver has been tried all the same. *)
Lemma fan_out_share_failure (struct_path : File) (d d' : AiDir)
    (w w' : World) (shares nodes : Groups) (g : Dict)
    (patient v1 : string) (e : Py.Exn) :
  return_directory_dict d = Some shares ->
  return_dicom_node_dict d = Some nodes ->
  In g (values shares) ->
  patient_id oracle struct_path = inr patient ->
  dict_get (return_directory_str config) g = inr v1 ->
  copy2 oracle struct_path (path_str (join_path v1 patient)) = Some e ->
  fan_out config oracle struct_path d w = Done d' w' ->
  transmission_failed d' = true /\
  (forall g', In g' (values shares) -> share_reached struct_path g' w w') /\
  (forall g', In g' (values nodes) -> node_reached g' w w').
Proof.
  intros Hs Hn Hin Hp Hv Hc H.
  destruct (fan_out_reaches_every_destination struct_path d d' w w'
              shares nodes Hs Hn H) as (R1 & R2 & _).
  split; [|split; assumption].
  unfold fan_out in H. rewrite Hs in H.
  apply bind_Done_inv in H. destruct H as (l1 & w1 & Hl1 & H).
  injection Hl1 as <- <-.
  apply bind_Done_inv in H. destruct H as (d1 & w2 & Hloop1 & H).
  assert (F1 : transmission_failed d1 = true).
  { eapply (for_each_flag (send_to_directory config oracle struct_path) g);
      [| |exact Hin|exact Hloop1].
    - intros; now apply send_to_directory_ok.
    - intros d0 w0 d2 w3 Hb. eapply send_to_directory_flags; eauto. }
  pose proof (fan_out_ok config oracle any_file (fun _ _ => I)
                struct_path d w I) as Hok.
  apply bind_Done_inv in H. destruct H as (l2 & w3 & Hl2 & Hloop2).
  pose proof (run_for_each any_file l2
                (send_to_node config oracle struct_path)
                (fun x d0 w0 => send_to_node_ok config oracle any_file
                                  (fun _ _ => I) struct_path x d0 w0 I) d1 w3)
    as Hok2.
  rewrite Hloop2 in Hok2. destruct Hok2 as [_ Hf2].
  apply flagged_dicts in Hf2. now apply Hf2.
Qed.

End FanOut.

(* ================================================================== *)
(** * Computations that end in a related world *)
(* ================================================================== *)

Section Ends.

Import Eff.

Variable W : Type.
Variable R : W -> W -> Prop.
Hypothesis R_refl : forall w, R w w.
Hypothesis R_trans : forall w1 w2 w3, R w1 w2 -> R w2 w3 -> R w1 w3.

Lemma ends_ret {A} (Q : A -> Prop) (a : A) (w : W) :
  Q a -> ends R Q w (ret a w).
Proof. intros H; split; [apply R_refl|exact H]. Qed.

Lemma ends_raise {A} (Q : A -> Prop) (e : Py.Exn) (w : W) :
  ends R Q w (raise e w).
Proof. split; [apply R_refl|exact I]. Qed.

Lemma ends_get (w : W) : ends R (fun x => x = w) w (get w).
Proof. split; [apply R_refl|reflexivity]. Qed.

Lemma ends_lift {A} (Q : A -> Prop) (r : Py.Exn + A) (w : W) :
  (forall a, r = inr a -> Q a) -> ends R Q w (lift r w).
Proof.
  intros H. destruct r as [e|a]; [apply ends_raise|apply ends_ret; auto].
Qed.

Lemma ends_weaken {A} (Q Q' : A -> Prop) (w : W) (o : Outcome W A) :
  (forall a, Q a -> Q' a) -> ends R Q w o -> ends R Q' w o.
Proof. intros H [H1 H2]. split; [exact H1|]. destruct o; auto. Qed.

Lemma ends_bind {A B} (Q : A -> Prop) (Q' : B -> Prop)
    (c : M W A) (k : A -> M W B) (w : W) :
  ends R Q w (c w) ->
  (forall a w1, Q a -> R w w1 -> ends R Q' w1 (k a w1)) ->
  ends R Q' w (bind c k w).
Proof.
  unfold bind. intros [H1 H2] Hk. destruct (c w) as [a w1|e w1]; simpl in *.
  - destruct (Hk a w1 H2 H1) as [K1 K2]. split; [|exact K2].
    eapply R_trans; eauto.
  - split; [exact H1|exact I].
Qed.

Lemma ends_for_each {A B} (Inv : B -> Prop) (l : list A)
    (body : A -> B -> M W B) :
  (forall x b w, In x l -> Inv b -> ends R Inv w (body x b w)) ->
  forall b w, Inv b -> ends R Inv w (for_each l body b w).
Proof.
  induction l as [|x l IH]; intros Hb b w Hi; simpl.
  - now apply ends_ret.
  - eapply ends_bind.
    + apply Hb; [now left|exact Hi].
    + intros b1 w1 H1 _. apply IH; [|exact H1].
      intros; apply Hb; [now right|assumption].
Qed.

End Ends.

(* ================================================================== *)
(** * The watchdog: what a round does to the scan directory *)
(* ================================================================== *)

Section WatchdogFrame.

Import Watchdog Eff.

Lemma watchdog_find_dir_In (n : string) (ds : list Folder) (f : Folder) :
  find_dir n ds = Some f -> In f ds /\ name f = n.
Proof.
  unfold find_dir. intros H. apply find_some in H. destruct H as [H1 H2].
  split; [exact H1|now apply String.eqb_eq].
Qed.

Lemma reshapes_refl (Src Dst : string -> Prop) (w : World) :
  reshapes Src Dst w w.
Proof.
  repeat split. exists (fun f => f). split; [now rewrite map_id|].
  intros f; now left.
Qed.

Lemma reshapes_trans (Src Dst : string -> Prop) (w1 w2 w3 : World) :
  reshapes Src Dst w1 w2 -> reshapes Src Dst w2 w3 -> reshapes Src Dst w1 w3.
Proof.
  intros (U1 & C1 & h1 & E1 & H1) (U2 & C2 & h2 & E2 & H2).
  split; [congruence|]. split; [congruence|].
  exists (fun f => h2 (h1 f)). split.
  - rewrite E2, E1. now rewrite map_map.
  - intros f. destruct (H1 f) as [->|(S1 & K1)]; [apply H2|].
    destruct (H2 (h1 f)) as [->|(S2 & K2)]; right; split; auto.
Qed.

Lemma reshapes_mono (Src Dst Src' Dst' : string -> Prop) (w w' : World) :
  (forall n, Src n -> Src' n) -> (forall n, Dst n -> Dst' n) ->
  reshapes Src Dst w w' -> reshapes Src' Dst' w w'.
Proof.
  intros HS HD (U & C & h & E & H). repeat split; try assumption.
  exists h. split; [exact E|]. intros f.
  destruct (H f) as [K|(K1 & [K2|K2])]; auto.
Qed.

Lemma reshapes_keeps (Src Dst : string -> Prop) (w w' : World) (g : Folder) :
  reshapes Src Dst w w' -> In g (dirs w) -> ~ Src (name g) -> In g (dirs w').
Proof.
  intros (_ & _ & h & E & H) Hin Hn. rewrite E.
  destruct (H g) as [K|(K & _)]; [|contradiction].
  rewrite <- K. now apply in_map.
Qed.

Lemma reshapes_find (Src Dst : string -> Prop) (w w' : World) (n : string) :
  reshapes Src Dst w w' -> ~ Src n -> ~ Dst n ->
  find_dir n (dirs w') = find_dir n (dirs w).
Proof.
  intros (_ & _ & h & E & H) HS HD. rewrite E. clear E. unfold find_dir.
  induction (dirs w) as [|f ds IH]; [reflexivity|]. simpl.
  destruct (H f) as [K|(K1 & K2)].
  - rewrite K. now rewrite IH.
  - assert (E1 : String.eqb (name f) n = false).
    { apply String.eqb_neq. intros <-. contradiction. }
    assert (E2 : String.eqb (name (h f)) n = false).
    { apply String.eqb_neq. intros <-. destruct K2; contradiction. }
    now rewrite E1, E2.
Qed.

Lemma reshapes_length (Src Dst : string -> Prop) (w w' : World) :
  reshapes Src Dst w w' -> List.length (dirs w') = List.length (dirs w).
Proof. intros (_ & _ & h & E & _). rewrite E. apply length_map. Qed.

Lemma reshapes_update (Src Dst : string -> Prop) (n : string)
    (g : Folder -> Folder) (w : World) :
  Src n ->
  (forall f, name f = n -> Src (name (g f)) \/ Dst (name (g f))) ->
  reshapes Src Dst w (set_dirs (update_dir n g (dirs w)) w).
Proof.
  intros HS Hg. repeat split.
  exists (fun f => if String.eqb (name f) n then g f else f).
  split; [reflexivity|]. intros f.
  destruct (String.eqb (name f) n) eqn:E; [|now left].
  apply String.eqb_eq in E. right. split; [now rewrite E|]. now apply Hg.
Qed.

Lemma quiet_refl (Src Dst : string -> Prop) (w : World) : quiet Src Dst w w.
Proof. split; [apply reshapes_refl|reflexivity]. Qed.

Lemma quiet_trans (Src Dst : string -> Prop) (w1 w2 w3 : World) :
  quiet Src Dst w1 w2 -> quiet Src Dst w2 w3 -> quiet Src Dst w1 w3.
Proof.
  intros [H1 L1] [H2 L2]. split; [eapply reshapes_trans; eauto|congruence].
Qed.

Lemma quiet_mono (Src Dst Src' Dst' : string -> Prop) (w w' : World) :
  (forall n, Src n -> Src' n) -> (forall n, Dst n -> Dst' n) ->
  quiet Src Dst w w' -> quiet Src' Dst' w w'.
Proof. intros HS HD [H L]. split; [eapply reshapes_mono; eauto|exact L]. Qed.

(** ** Names *)

Lemma ready_name_first (n : string) :
  is_ready_name n = true ->
  exists c r, n = String c r /\ Py.lower_char c = "r"%char.
Proof.
  unfold is_ready_name, Py.startswith. destruct n as [|c r]; [discriminate|].
  change (Py.lower (String c r)) with (String (Py.lower_char c) (Py.lower r)).
  cbn [String.prefix].
  destruct (ascii_dec "r" (Py.lower_char c)) as [E|]; [|discriminate].
  intros _. now exists c, r.
Qed.

Lemma ready_name_not_error (n : string) :
  is_ready_name n = true -> Py.startswith n "error_" = false.
Proof.
  intros H. destruct (ready_name_first n H) as (c & r & -> & E).
  unfold Py.startswith. cbn [String.prefix].
  destruct (ascii_dec "e" c) as [<-|]; [|reflexivity].
  vm_compute in E. discriminate.
Qed.

Lemma ready_name_not_active (n : string) :
  is_ready_name n = true -> Py.startswith n "active_" = false.
Proof.
  intros H. destruct (ready_name_first n H) as (c & r & -> & E).
  unfold Py.startswith. cbn [String.prefix].
  destruct (ascii_dec "a" c) as [<-|]; [|reflexivity].
  vm_compute in E. discriminate.
Qed.

Lemma classify_READY (n : string) (marker : bool) :
  classify n marker = READY -> marker = false /\ is_ready_name n = true.
Proof.
  unfold classify, is_ready_name. destruct marker; [discriminate|].
  destruct (Py.startswith (Py.lower n) "active_"); [discriminate|].
  destruct (Py.startswith (Py.lower n) "ready_"); [auto|].
  destruct (Py.startswith (Py.lower n) "error_"); [discriminate|].
  destruct (Py.startswith (Py.lower n) "receiving_"); [discriminate|].
  destruct (Py.startswith (Py.lower n) "handled_"); [discriminate|].
  destruct (Py.startswith (Py.lower n) "inferred_"); discriminate.
Qed.

Lemma classify_error_name (x : string) (marker : bool) :
  classify ("error_" ++ x) marker = ERROR.
Proof.
  destruct marker; [reflexivity|]. unfold classify, Py.startswith.
  change (Py.lower ("error_" ++ x)) with ("error_" ++ Py.lower x).
  replace (String.prefix "error_" ("error_" ++ Py.lower x)) with true
    by (symmetry; apply prefix_app).
  reflexivity.
Qed.

Lemma classify_active_name (x : string) :
  classify ("active_" ++ x) false = ACTIVE.
Proof.
  unfold classify, Py.startswith.
  change (Py.lower ("active_" ++ x)) with ("active_" ++ Py.lower x).
  replace (String.prefix "active_" ("active_" ++ Py.lower x)) with true
    by (symmetry; apply prefix_app).
  reflexivity.
Qed.

Lemma pre_validate_path (d : AiDir) (ds : list Folder) :
  path (pre_validate d ds) = path d.
Proof.
  unfold pre_validate.
  destruct (negb (path_exists (path d) ds)); [reflexivity|].
  destruct (state d); simpl; try reflexivity;
    destruct (negb (ai_config_exists (path d) ds)); reflexivity.
Qed.

Lemma new_AiDir_path (f : string) (ds : list Folder) :
  path (new_AiDir f ds) = f.
Proof. unfold new_AiDir. now rewrite pre_validate_path. Qed.

(** ** The operations on one directory *)

Local Abbreviation ready_names := (fun n : string => is_ready_name n = true).
Local Abbreviation any_name := (fun _ : string => True).
Local Abbreviation error_names :=
  (fun n : string => Py.startswith n "error_" = true).

Lemma find_dir_update_same (n : string) (g : Folder -> Folder)
    (ds : list Folder) (f : Folder) :
  find_dir n ds = Some f -> name (g f) = n ->
  find_dir n (update_dir n g ds) = Some (g f).
Proof.
  unfold find_dir, update_dir. induction ds as [|a ds IH]; simpl; [discriminate|].
  destruct (String.eqb (name a) n) eqn:E.
  - intros H Hg. injection H as <-. simpl. now rewrite Hg, String.eqb_refl.
  - intros H Hg. simpl. rewrite E. now apply IH.
Qed.

Lemma find_dir_update_named (src dst : string) (ds : list Folder) (f : Folder) :
  find_dir src ds = Some f -> find_dir dst ds = None ->
  find_dir dst (update_dir src (named dst) ds) = Some (named dst f).
Proof.
  unfold find_dir, update_dir. induction ds as [|a ds IH]; simpl; [discriminate|].
  destruct (String.eqb (name a) src) eqn:E.
  - intros H _. injection H as <-. simpl. now rewrite String.eqb_refl.
  - destruct (String.eqb (name a) dst) eqn:E'; [discriminate|].
    intros H1 H2. simpl. rewrite ?E'. now apply IH.
Qed.

Lemma os_rename_inr (src dst : string) (ds ds' : list Folder) :
  os_rename src dst ds = inr ds' ->
  exists f, find_dir src ds = Some f /\ in_use f = false /\
            find_dir dst ds = None /\ ds' = update_dir src (named dst) ds.
Proof.
  unfold os_rename. destruct (find_dir src ds) as [f|]; [|discriminate].
  destruct (in_use f) eqn:U; [discriminate|].
  destruct (find_dir dst ds); [discriminate|].
  intros H; injection H as <-. exists f. auto.
Qed.

Lemma write_error_file_ends (Src Dst : string -> Prop) (n : string)
    (text : option string) (w : World) :
  Src n ->
  ends (quiet Src Dst) (fun _ => True) w (write_error_file n text w).
Proof.
  intros HS. unfold write_error_file, bind, get.
  destruct text as [t|]; [|split; [apply quiet_refl|exact I]].
  destruct (find_dir n (dirs w)); [|split; [apply quiet_refl|exact I]].
  split; [|exact I]. split; [|reflexivity].
  apply reshapes_update; [exact HS|]. intros f' E. left. simpl. now rewrite E.
Qed.

Lemma write_error_file_marks (n : string) (text : option string)
    (w w' : World) :
  write_error_file n text w = Done tt w' ->
  error_file_exists n (dirs w') = true.
Proof.
  unfold write_error_file, bind, get.
  destruct text as [t|]; [|discriminate].
  destruct (find_dir n (dirs w)) as [f|] eqn:E; [|discriminate].
  intros H. injection H as <-. unfold error_file_exists. simpl.
  erewrite find_dir_update_same; [|exact E|].
  - reflexivity.
  - simpl. now destruct (watchdog_find_dir_In _ _ _ E).
Qed.

Lemma rename_cases (d : AiDir) (new : string) (w : World) :
  (exists e, os_rename (path d) new (dirs w) = inl e /\
     rename d new w
     = Done (false, with_state ERROR
               (with_error (Some "E2_01 Could not rename directory") d)) w) \/
  (exists ds', os_rename (path d) new (dirs w) = inr ds' /\
     rename d new w = Done (true, with_path new d) (set_dirs ds' w)).
Proof.
  unfold rename, bind, get.
  destruct (os_rename (path d) new (dirs w)); [left|right]; eexists;
    split; reflexivity.
Qed.

Lemma rename_ends (Src Dst : string -> Prop) (d : AiDir) (new : string)
    (w : World) :
  Src (path d) -> Dst new ->
  ends (quiet Src Dst) (fun r => fst r = false -> path (snd r) = path d) w
    (rename d new w).
Proof.
  intros HS HD.
  destruct (rename_cases d new w) as [(e & _ & ->)|(ds' & Hos & ->)].
  - split; [apply quiet_refl|reflexivity].
  - split; [|discriminate]. split; [|reflexivity].
    destruct (os_rename_inr _ _ _ _ Hos) as (f & _ & _ & _ & ->).
    apply reshapes_update; [exact HS|]. intros; now right.
Qed.

Lemma handle_error_ends (Src Dst : string -> Prop) (d : AiDir) (w : World) :
  Src (path d) -> Dst ("error_" ++ Py.remove_all "ready_" (path d)) ->
  ends (quiet Src Dst) (fun _ => True) w (handle_error d w).
Proof.
  intros HS HD. unfold handle_error.
  eapply (ends_bind _ _ (quiet_trans Src Dst)) with (Q := fun _ => True).
  { destruct (write_error_to_file d).
    - now apply write_error_file_ends.
    - apply ends_ret; [apply quiet_refl|exact I]. }
  intros _ w1 _ _.
  eapply (ends_bind _ _ (quiet_trans Src Dst)); [now apply rename_ends|].
  intros [ok d'] w2 Hp _. simpl in Hp. destruct ok.
  - apply ends_ret; [apply quiet_refl|exact I].
  - eapply (ends_bind _ _ (quiet_trans Src Dst)) with (Q := fun _ => True).
    + apply write_error_file_ends. now rewrite Hp.
    + intros; apply ends_ret; [apply quiet_refl|exact I].
Qed.

Lemma load_result (d d' : AiDir) (w w' : World) :
  load d w = Done d' w' ->
  w' = w /\ path d' = path d /\ state d' = state d /\
  (valid d = false -> d' = d) /\
  (valid d = true -> valid d' = true /\ exists z, nicelevel d' = Some z).
Proof.
  unfold load. destruct (valid d) eqn:V; simpl.
  - unfold bind, get.
    destruct (find_dir (path d) (dirs w)) as [f|]; [|discriminate].
    destruct (ai_config f) as [lines|]; [|discriminate].
    destruct (read_nicelevel lines (nicelevel d)) as [lvl exn].
    assert (K : forall o : Outcome World AiDir,
              o = Done d' w' ->
              o = ret (with_valid true
                         (with_last_modified
                            (Some (Py.ctime (utc_offset w) (st_mtime f)))
                            match lvl with
                            | None => with_nicelevel (Some 10)
                                        (with_nicelevel lvl d)
                            | Some _ => with_nicelevel lvl d
                            end)) w ->
              w' = w /\ path d' = path d /\ state d' = state d /\
              (true = false -> d' = d) /\
              (true = true -> valid d' = true /\
                              exists z, nicelevel d' = Some z)).
    { intros o -> H. unfold ret in H. injection H as -> ->.
      repeat split; try discriminate; destruct lvl; simpl; eauto. }
    destruct exn as [e|].
    + destruct (is_ValueError e); [|discriminate].
      intros H. eapply K; [exact H|reflexivity].
    + intros H. eapply K; [exact H|reflexivity].
  - unfold ret. intros H; injection H as <- <-.
    repeat split; auto; discriminate.
Qed.

Lemma load_final (d : AiDir) (w : World) : final (load d w) = w.
Proof.
  unfold load. destruct (negb (valid d)); [reflexivity|].
  unfold bind, get.
  destruct (find_dir (path d) (dirs w)) as [f|]; [|reflexivity].
  destruct (ai_config f) as [lines|]; [|reflexivity].
  destruct (read_nicelevel lines (nicelevel d)) as [lvl exn].
  destruct exn as [e|]; [destruct (is_ValueError e)|]; reflexivity.
Qed.

Lemma AiDirState_eqb_eq (a b : AiDirState) :
  AiDirState_eqb a b = true <-> a = b.
Proof. destruct a, b; simpl; split; congruence. Qed.

(** ** The scan *)

Lemma scan_fold (ds : list Folder) (l : list Folder) (acc : AiSharedDir) :
  fold_left
    (fun s f => let d := new_AiDir (name f) ds in file_under (state d) d s)
    l acc
  = let ds' := map (fun f => new_AiDir (name f) ds) l in
    {| receiving_dirs := (receiving_dirs acc ++ in_state RECEIVING ds')%list;
       ready_dirs := (ready_dirs acc ++ in_state READY ds')%list;
       active_dirs := (active_dirs acc ++ in_state ACTIVE ds')%list;
       error_dirs := (error_dirs acc ++ in_state ERROR ds')%list;
       handled_dirs := (handled_dirs acc ++ in_state HANDLED ds')%list;
       inferred_dirs := (inferred_dirs acc ++ in_state INFERRED ds')%list;
       unknown_dirs := (unknown_dirs acc ++ in_state UNKNOWN ds')%list;
       ready_to_infer := ready_to_infer acc |}.
Proof.
  revert acc. induction l as [|f l IH]; intros acc.
  - simpl. rewrite !app_nil_r. now destruct acc.
  - cbn [fold_left]. rewrite IH. cbv zeta. cbn [map].
    unfold in_state, file_under. cbn [filter].
    destruct (state (new_AiDir (name f) ds)); simpl;
      rewrite <- ?app_assoc; reflexivity.
Qed.

Lemma scan_lists (w : World) :
  exists s, scan w = Done s w /\
    receiving_dirs s = in_state RECEIVING (found (dirs w)) /\
    ready_dirs s = in_state READY (found (dirs w)) /\
    active_dirs s = in_state ACTIVE (found (dirs w)) /\
    error_dirs s = in_state ERROR (found (dirs w)) /\
    handled_dirs s = in_state HANDLED (found (dirs w)) /\
    inferred_dirs s = in_state INFERRED (found (dirs w)) /\
    unknown_dirs s = in_state UNKNOWN (found (dirs w)) /\
    ready_to_infer s = None.
Proof.
  unfold scan, bind, get, ret. rewrite scan_fold.
  eexists. split; [reflexivity|]. simpl. repeat split.
Qed.

Lemma in_state_lengths (l : list AiDir) :
  (List.length (in_state RECEIVING l) + List.length (in_state READY l)
   + List.length (in_state ACTIVE l) + List.length (in_state ERROR l)
   + List.length (in_state HANDLED l) + List.length (in_state INFERRED l)
   + List.length (in_state UNKNOWN l))%nat = List.length l.
Proof.
  induction l as [|d l IH]; [reflexivity|].
  unfold in_state in *. cbn [filter].
  destruct (state d); simpl; lia.
Qed.

Lemma scan_ready_dirs (w : World) (d : AiDir) :
  In d (in_state READY (found (dirs w))) ->
  state d = READY /\ is_ready_name (path d) = true /\
  error_file_exists (path d) (dirs w) = false /\
  exists f, In f (dirs w) /\ d = new_AiDir (name f) (dirs w).
Proof.
  unfold in_state, found. intros H. apply filter_In in H.
  destruct H as [H1 H2]. apply AiDirState_eqb_eq in H2.
  apply in_map_iff in H1. destruct H1 as (f & <- & Hf).
  rewrite new_AiDir_path. rewrite new_AiDir_state in H2.
  destruct (classify_READY _ _ H2) as [Hm Hn].
  repeat split; try assumption.
  - now rewrite new_AiDir_state.
  - now exists f.
Qed.

(** ** Loading the ready directories *)

(** A directory of the ready list that [load_ready] quarantines. *)
Local Abbreviation rejected s :=
  (fun n : string =>
     exists d, In d (ready_dirs s) /\ path d = n /\
               (valid d = false \/ state d <> READY)).

(** A directory that [load_ready] keeps in the ready list. *)
Local Abbreviation kept s :=
  (fun r : AiDir =>
     exists d, In d (ready_dirs s) /\ valid d = true /\ path r = path d /\
               state d = READY /\ state r = READY /\ valid r = true /\
               exists z, nicelevel r = Some z).

Lemma load_ready_ends (s : AiSharedDir) (w : World) :
  ends (quiet (rejected s) error_names)
    (fun s' => (forall r, In r (ready_dirs s') -> kept s r) /\
               active_dirs s' = active_dirs s /\
               (ready_to_infer s = None ->
                forall r, ready_to_infer s' = Some r -> In r (ready_dirs s')))
    w (load_ready s w).
Proof.
  unfold load_ready.
  eapply (ends_bind _ _ (quiet_trans _ _))
    with (Q := fun acc : list AiDir * list AiDir =>
                 forall r, In r (fst acc) -> kept s r).
  - apply (ends_for_each _ _ (quiet_refl _ _) (quiet_trans _ _)).
    + intros x acc w0 Hx Hacc.
      eapply (ends_bind _ _ (quiet_trans _ _))
        with (Q := fun d1 => path d1 = path x /\ state d1 = state x /\
                             (valid x = false -> d1 = x) /\
                             (valid x = true ->
                              valid d1 = true /\
                              exists z, nicelevel d1 = Some z)).
      * pose proof (load_final x w0) as Hfin.
        destruct (load x w0) as [d1 w1|e w1] eqn:El; simpl in Hfin; subst w1.
        -- split; [apply quiet_refl|].
           destruct (load_result _ _ _ _ El) as (_ & H); exact H.
        -- split; [apply quiet_refl|exact I].
      * intros d1 w1 (Hp & Hst & Hinv & Hval) _.
        destruct (valid d1 && is_ready d1)%bool eqn:E.
        -- apply ends_ret; [apply quiet_refl|]. simpl. intros r Hr.
           apply in_app_or in Hr. destruct Hr as [Hr|[<-|[]]]; [now apply Hacc|].
           apply andb_prop in E. destruct E as [E1 E2].
           apply AiDirState_eqb_eq in E2.
           assert (Hvx : valid x = true).
           { destruct (valid x) eqn:V; [reflexivity|].
             rewrite (Hinv eq_refl) in E1. congruence. }
           destruct (Hval Hvx) as [_ Hz].
           exists x. repeat split; try assumption; congruence.
        -- eapply (ends_bind _ _ (quiet_trans _ _)) with (Q := fun _ => True).
           ++ apply handle_error_ends.
              ** exists x. split; [exact Hx|]. split; [now rewrite Hp|].
                 apply andb_false_iff in E. destruct E as [E|E].
                 --- left. destruct (valid x) eqn:V; [|reflexivity].
                     destruct (Hval eq_refl) as [Hv1 _]. congruence.
                 --- right. intros Hs. rewrite <- Hst in Hs.
                     unfold is_ready in E. rewrite Hs in E. discriminate.
              ** exact (prefix_app "error_" _).
           ++ intros d2 w2 _ _. apply ends_ret; [apply quiet_refl|exact Hacc].
    + intros r [].
  - intros [really_ready errors] w1 Hacc _.
    apply ends_ret; [apply quiet_refl|]. cbn [ready_dirs active_dirs ready_to_infer].
    split; [exact Hacc|]. split; [reflexivity|].
    intros Hnone r. destruct really_ready as [|r0 l]; [congruence|].
    rewrite sorted_head. intros H.
    now destruct (first_least_is_least _ _ H).
Qed.

(** ** One round *)

Lemma poll_outcome (c : WatchdogConfig) (w : World) :
  reshapes ready_names any_name w (final (poll c w)) /\
  (launched (final (poll c w)) = launched w \/
   (dry_run c = false /\ poll c w = Done tt (final (poll c w)) /\
    exists n f,
      launched (final (poll c w)) = (launched w ++ [command c n])%list /\
      Py.startswith n "active_" = true /\
      find_dir n (dirs (final (poll c w))) = Some f /\ error_txt f = None)).
Proof.
  destruct (scan_lists w) as (s & Hs & _ & Hready & _ & _ & _ & _ & _ & Hnone).
  assert (Hnames : forall d, In d (ready_dirs s) ->
            state d = READY /\ is_ready_name (path d) = true /\
            error_file_exists (path d) (dirs w) = false /\
            exists f, In f (dirs w) /\ d = new_AiDir (name f) (dirs w)).
  { intros d Hd. rewrite Hready in Hd. now apply scan_ready_dirs. }
  assert (Hmono : forall n, rejected s n -> is_ready_name n = true).
  { intros n (d & Hd & <- & _). now destruct (Hnames d Hd) as (_ & H & _). }
  pose proof (load_ready_ends s w) as HL.
  remember (poll c w) as o eqn:Ho.
  unfold poll, bind in Ho. rewrite Hs in Ho.
  destruct (has_active s);
    [subst o; split; [apply reshapes_refl|now left]|].
  destruct (has_ready s);
    [|subst o; split; [apply reshapes_refl|now left]].
  destruct (load_ready s w) as [s1 w1|e w1].
  2:{ subst o. destruct HL as [[HR HLa] _]. simpl in *.
      split; [|now left]. eapply reshapes_mono; [exact Hmono| |exact HR]. auto. }
  destruct HL as [[HR HLa] (HGood & _ & Hsel)]. simpl in HR, HLa.
  assert (HR' : reshapes ready_names any_name w w1)
    by (eapply reshapes_mono; [exact Hmono| |exact HR]; auto).
  destruct (ready_to_infer s1) as [r|] eqn:Er;
    [|subst o; split; [exact HR'|now left]].
  assert (Hin : In r (ready_dirs s1)) by (apply Hsel; auto).
  destruct (HGood r Hin) as (d & Hd & Hv & Hp & Hsd & Hsr & Hvr & z & Hz).
  destruct (Hnames d Hd) as (_ & Hrn & Hmark & f & Hf & Hdf).
  rewrite <- Hp in Hrn, Hmark.
  unfold activate in Ho.
  destruct (rename_cases r ("active_" ++ Py.remove_all "ready_" (path r)) w1)
    as [(e & Hos & Hre)|(ds' & Hos & Hre)]; rewrite Hre in Ho.
  - (* the rename was refused *)
    cbv beta iota in Ho.
    match type of Ho with
    | context [handle_error ?r' w1] =>
        pose proof (handle_error_ends ready_names any_name r' w1 Hrn I) as HE;
        destruct (handle_error r' w1) as [d2 w2|e2 w2]
    end; subst o; destruct HE as [[HR2 HL2] _]; simpl in *.
    + split; [eapply reshapes_trans; eauto|left; congruence].
    + split; [eapply reshapes_trans; eauto|left; congruence].
  - (* the directory carries its new name *)
    cbv beta iota in Ho.
    destruct (os_rename_inr _ _ _ _ Hos) as (f0 & Hf0 & Hu & Hfree & ->).
    set (new := "active_" ++ Py.remove_all "ready_" (path r)) in *.
    assert (HR2 : reshapes ready_names any_name w
                    (set_dirs (update_dir (path r) (named new) (dirs w1)) w1)).
    { eapply reshapes_trans; [exact HR'|].
      apply reshapes_update; [exact Hrn|]. intros; now right. }
    destruct (dry_run c) eqn:Edry.
    + subst o. split; [exact HR2|left; exact HLa].
    + unfold popen, bind, get in Ho. cbn [can_spawn set_dirs] in Ho.
      destruct (can_spawn w1) eqn:Esp.
      * subst o. cbn [final put]. split.
        -- destruct HR2 as (U & C & h & E & H).
           split; [exact U|]. split; [simpl in *; congruence|].
           exists h. split; [exact E|exact H].
        -- right. split; [reflexivity|]. split; [reflexivity|].
           exists new, (named new f0). cbn [launched dirs set_dirs].
           split; [now rewrite HLa|].
           split; [exact (prefix_app "active_" _)|].
           split; [now apply find_dir_update_named|].
           (* the directory had no error file when it was scanned *)
           assert (Hsame : find_dir (path r) (dirs w1)
                           = find_dir (path r) (dirs w)).
           { apply (reshapes_find (rejected s) error_names); [exact HR| |].
             - intros (d2 & Hd2 & Hp2 & Hbad).
               destruct (Hnames d2 Hd2) as (Hs2 & _ & _ & f2 & _ & Hdf2).
               assert (d2 = d).
               { rewrite Hdf2, Hdf. f_equal.
                 rewrite <- (new_AiDir_path (name f2) (dirs w)), <- Hdf2.
                 rewrite <- (new_AiDir_path (name f) (dirs w)), <- Hdf.
                 congruence. }
               subst d2. destruct Hbad; congruence.
             - rewrite (ready_name_not_error _ Hrn). discriminate. }
           rewrite Hf0 in Hsame. unfold error_file_exists in Hmark.
           rewrite <- Hsame in Hmark. simpl.
           destruct (error_txt f0); [discriminate|reflexivity].
      * subst o. split; [exact HR2|left; exact HLa].
Qed.

(** X1.  [AiDir.handle_error] leaves a directory that the next scan
    classifies as [ERROR]: renamed, its name starts with [error_]; if the
    rename was refused, it holds an [error.txt] with the message of the
    rename.  A quarantined job is not taken for a ready one again. *)
Theorem quarantined_directory_is_error :
  forall (d d' : AiDir) (w w' : World),
    handle_error d w = Done d' w' ->
    state (new_AiDir (path d') (dirs w')) = ERROR /\
    (path d' = path d \/
     path d' = "error_" ++ Py.remove_all "ready_" (path d)).
Proof.
  intros d d' w w' H. rewrite new_AiDir_state.
  unfold handle_error in H.
  apply bind_Done_inv in H. destruct H as ([] & w1 & _ & H).
  apply bind_Done_inv in H. destruct H as ([ok d1] & w2 & Hr & H).
  destruct (rename_cases d ("error_" ++ Py.remove_all "ready_" (path d)) w1)
    as [(e & _ & Hre)|(ds' & _ & Hre)]; rewrite Hre in Hr;
    injection Hr as <- <- <-.
  - apply bind_Done_inv in H. destruct H as ([] & w3 & Hw & H).
    unfold ret in H. injection H as <- <-.
    simpl in *. apply write_error_file_marks in Hw. rewrite Hw.
    split; [reflexivity|now left].
  - unfold ret in H. injection H as <- <-. simpl.
    split; [apply classify_error_name|now right].
Qed.

(** A ready job whose configuration file is missing, in a scan
    directory of its own. *)
Lemma quarantined_directory_is_error_witness :
  exists d' w',
    handle_error
      (new_AiDir "ready_7"
         [{| name := "ready_7"; error_txt := None; ai_config := None;
             st_mtime := 5; in_use := false |}])
      (Scenario.watchdog_world
         [{| name := "ready_7"; error_txt := None; ai_config := None;
             st_mtime := 5; in_use := false |}]) = Done d' w' /\
    state (new_AiDir (path d') (dirs w')) = ERROR.
Proof.
  eexists _, _. split; [vm_compute; reflexivity|].
  refine (proj1 (quarantined_directory_is_error
    (new_AiDir "ready_7"
       [{| name := "ready_7"; error_txt := None; ai_config := None;
           st_mtime := 5; in_use := false |}])
    _
    (Scenario.watchdog_world
       [{| name := "ready_7"; error_txt := None; ai_config := None;
           st_mtime := 5; in_use := false |}])
    _ _)).
  vm_compute. reflexivity.
Defined.

(** X2.  [AiSharedDir.scan] changes nothing in the world and files
    every sub-directory under exactly one of its seven lists, the one of
    the state of the directory, in listing order. *)
Theorem scan_files_each_directory_once :
  forall w : World,
    exists s,
      scan w = Done s w /\
      receiving_dirs s = in_state RECEIVING (found (dirs w)) /\
      ready_dirs s = in_state READY (found (dirs w)) /\
      active_dirs s = in_state ACTIVE (found (dirs w)) /\
      error_dirs s = in_state ERROR (found (dirs w)) /\
      handled_dirs s = in_state HANDLED (found (dirs w)) /\
      inferred_dirs s = in_state INFERRED (found (dirs w)) /\
      unknown_dirs s = in_state UNKNOWN (found (dirs w)) /\
      (List.length (receiving_dirs s) + List.length (ready_dirs s)
       + List.length (active_dirs s) + List.length (error_dirs s)
       + List.length (handled_dirs s) + List.length (inferred_dirs s)
       + List.length (unknown_dirs s))%nat = List.length (dirs w) /\
      map path (found (dirs w)) = map name (dirs w).
Proof.
  intros w.
  destruct (scan_lists w) as (s & Hs & H1 & H2 & H3 & H4 & H5 & H6 & H7 & _).
  exists s. repeat (split; [assumption|]). split.
  - rewrite H1, H2, H3, H4, H5, H6, H7, in_state_lengths.
    unfold found. apply length_map.
  - unfold found. rewrite map_map. apply map_ext. intros f.
    apply new_AiDir_path.
Qed.

Lemma worker_reshapes (c : WatchdogConfig) (rounds completed : nat)
    (w : World) :
  reshapes ready_names any_name w (snd (worker_from c completed rounds w)).
Proof.
  revert completed w. induction rounds as [|k IH]; intros completed w.
  - apply reshapes_refl.
  - cbn [worker_from]. destruct (poll_outcome c w) as [HR _].
    destruct (poll c w) as [[] w1|e w1]; simpl in HR.
    + eapply reshapes_trans; [exact HR|apply IH].
    + exact HR.
Qed.

(** X3.  The watchdog changes ready directories only: a directory
    whose name does not start with [ready_] (in any case of letters) is
    after a round what it was before, whether the round came to its end
    or raised, and so it is when the worker returns, after any number of
    rounds; and a round creates or deletes no directory. *)
Theorem watchdog_changes_ready_directories_only :
  forall (c : WatchdogConfig) (w : World) (g : Folder),
    In g (dirs w) -> is_ready_name (name g) = false ->
    In g (dirs (final (poll c w))) /\
    List.length (dirs (final (poll c w))) = List.length (dirs w) /\
    forall rounds, In g (dirs (snd (watchdog_worker c rounds w))).
Proof.
  intros c w g Hin Hn. destruct (poll_outcome c w) as [HR _].
  assert (Hno : ~ is_ready_name (name g) = true) by congruence.
  split; [eapply reshapes_keeps; [exact HR|exact Hin|exact Hno]|].
  split; [eapply reshapes_length; exact HR|].
  intros rounds. unfold watchdog_worker.
  eapply reshapes_keeps; [apply worker_reshapes|exact Hin|exact Hno].
Qed.

(** The round of three ready jobs next to a finished one. *)
Lemma watchdog_changes_ready_directories_only_witness :
  In (Scenario.ready_job "inferred_D" "1" 1762335000)
     (dirs (final (poll Scenario.watchdog_config
                     (Scenario.watchdog_world
                        (Scenario.ready_job "inferred_D" "1" 1762335000
                           :: dirs Scenario.three_ready))))).
Proof.
  refine (proj1 (watchdog_changes_ready_directories_only
    Scenario.watchdog_config
    (Scenario.watchdog_world
       (Scenario.ready_job "inferred_D" "1" 1762335000
          :: dirs Scenario.three_ready)) _ _ _)).
  - simpl. now left.
  - reflexivity.
Defined.

(** X4.  A round starts at most one process; the command it hands to
    [Popen] names a directory [active_...] that exists when the round
    ends; in a dry run no process is started at all. *)
Theorem poll_starts_at_most_one_process :
  forall (c : WatchdogConfig) (w : World),
    (launched (final (poll c w)) = launched w \/
     exists n,
       launched (final (poll c w)) = (launched w ++ [command c n])%list /\
       Py.startswith n "active_" = true /\
       path_exists n (dirs (final (poll c w))) = true) /\
    (dry_run c = true -> launched (final (poll c w)) = launched w).
Proof.
  intros c w. destruct (poll_outcome c w) as [_ [H|(Hd & _ & n & f & H1 & H2 & H3 & _)]].
  - split; [now left|auto].
  - split; [|congruence]. right. exists n. repeat split; try assumption.
    unfold path_exists. now rewrite H3.
Qed.

(** X5.  After a round that started a process, the next round finds the
    activated directory and does nothing: one job is inferred at a
    time. *)
Theorem started_job_blocks_the_next_round :
  forall (c c' : WatchdogConfig) (w w' : World),
    poll c w = Done tt w' -> launched w' <> launched w ->
    poll c' w' = Done tt w'.
Proof.
  intros c c' w w' Hrun Hl.
  destruct (poll_outcome c w) as [_ H]. rewrite Hrun in H. simpl in H.
  destruct H as [H|(_ & _ & n & f & _ & Hn & Hf & He)]; [contradiction|].
  destruct (scan_lists w') as (s & Hs & _ & _ & Ha & _).
  unfold poll, bind. rewrite Hs.
  assert (Hact : In (new_AiDir n (dirs w')) (active_dirs s)).
  { rewrite Ha. unfold in_state, found. apply filter_In. split.
    - destruct (watchdog_find_dir_In _ _ _ Hf) as [Hin Hnm].
      apply in_map_iff. exists f. now rewrite Hnm.
    - apply AiDirState_eqb_eq. rewrite new_AiDir_state.
      unfold error_file_exists. rewrite Hf, He.
      unfold Py.startswith in Hn. destruct (prefix_split _ _ Hn) as [x ->].
      apply classify_active_name. }
  unfold has_active. destruct (active_dirs s); [destruct Hact|reflexivity].
Qed.

(** After the round of three ready jobs, nothing more is started. *)
Lemma started_job_blocks_the_next_round_witness :
  exists w',
    poll Scenario.watchdog_config Scenario.three_ready = Done tt w' /\
    poll Scenario.watchdog_config w' = Done tt w'.
Proof.
  eexists. split; [vm_compute; reflexivity|].
  apply (started_job_blocks_the_next_round Scenario.watchdog_config
           Scenario.watchdog_config Scenario.three_ready).
  - vm_compute. reflexivity.
  - discriminate.
Defined.

(** X6.  What [load_ready] keeps and chooses: every directory left in
    the ready list is valid, ready and has a level; the directory chosen
    is one of them, and no directory of the list has a lower level. *)
Theorem load_ready_prefers_the_lowest_level :
  forall (s s' : AiSharedDir) (w w' : World),
    load_ready s w = Done s' w' -> ready_dirs s' <> [] ->
    exists m a,
      ready_to_infer s' = Some m /\ In m (ready_dirs s') /\
      nicelevel m = Some a /\
      forall x, In x (ready_dirs s') ->
        valid x = true /\ state x = READY /\
        exists b, nicelevel x = Some b /\ a <= b.
Proof.
  intros s s' w w' H Hne.
  destruct (load_ready_choice s s' w w' H Hne) as (m & Hm & Hin & Hleast).
  pose proof (load_ready_ends s w) as HL. rewrite H in HL.
  destruct HL as [_ (HGood & _)].
  destruct (HGood m Hin) as (_ & _ & _ & _ & _ & _ & _ & a & Ha).
  exists m, a. repeat (split; [assumption|]).
  intros x Hx.
  destruct (HGood x Hx) as (_ & _ & _ & _ & _ & Hsx & Hvx & b & Hb).
  repeat (split; [assumption|]). exists b. split; [assumption|].
  specialize (Hleast x Hx). unfold key_leb, sort_key in Hleast.
  rewrite Ha, Hb in Hleast. simpl in Hleast.
  destruct (Z.ltb_spec a b); [lia|].
  destruct (Z.ltb_spec b a); [discriminate|lia].
Qed.

(** The round of three ready jobs: the level chosen is 1. *)
Lemma load_ready_prefers_the_lowest_level_witness :
  let s := match scan Scenario.three_ready with
           | Done s _ => s
           | Raised _ _ => empty_shared
           end in
  exists s',
    load_ready s Scenario.three_ready = Done s' Scenario.three_ready /\
    exists m a,
      ready_to_infer s' = Some m /\ In m (ready_dirs s') /\
      nicelevel m = Some a /\
      forall x, In x (ready_dirs s') ->
        valid x = true /\ state x = READY /\
        exists b, nicelevel x = Some b /\ a <= b.
Proof.
  cbv zeta. eexists. split; [vm_compute; reflexivity|].
  apply (load_ready_prefers_the_lowest_level
           match scan Scenario.three_ready with
           | Done s _ => s
           | Raised _ _ => empty_shared
           end _ Scenario.three_ready Scenario.three_ready).
  - vm_compute. reflexivity.
  - discriminate.
Defined.

End WatchdogFrame.

(* ================================================================== *)
(** * The restart loop, for any limit *)
(* ================================================================== *)

Section RestartBudget.

Import Supervisor.

(** The check number [i] of a burst of failures, under the limit [m]. *)
Local Abbreviation burst_check m :=
  (fun i : nat =>
     {| seen := Z.of_nat i;
        backoff := if Z.of_nat i <? m
                   then Some (Z.min (2 ^ (Z.of_nat i + 1)) 60)
                   else None |}).

Lemma supervise_burst (m window t0 : Z) (deaths restarts : list Z) :
  (forall t, In t deaths -> t0 <= t < t0 + window) ->
  (forall t, In t restarts -> t0 <= t < t0 + window) ->
  Z.of_nat (List.length restarts) <= m ->
  supervise m window deaths restarts
  = (map (burst_check m)
       (seq (List.length restarts)
          (Nat.min (List.length deaths)
             (Z.to_nat m + 1 - List.length restarts))),
     m <? Z.of_nat (List.length restarts + List.length deaths)).
Proof.
  revert restarts. induction deaths as [|t later IH]; intros restarts Hd Hr Hk.
  - simpl. f_equal. symmetry. apply Z.ltb_ge. lia.
  - assert (Hrec : recent window t restarts = restarts).
    { apply recent_all. intros r Hin.
      pose proof (Hd t (or_introl eq_refl)). pose proof (Hr r Hin). lia. }
    cbn [supervise]. unfold on_worker_dead. rewrite Hrec.
    destruct (Z.geb_spec (Z.of_nat (List.length restarts)) m) as [Hge|Hlt].
    + assert (E : (Z.to_nat m + 1 - List.length restarts = 1)%nat) by lia.
      rewrite E. cbn [List.length].
      replace (Nat.min (S (List.length later)) 1) with 1%nat by lia.
      cbn [seq map].
      replace (Z.of_nat (List.length restarts) <? m) with false
        by (symmetry; apply Z.ltb_ge; lia).
      replace (m <? Z.of_nat (List.length restarts + S (List.length later)))
        with true by (symmetry; apply Z.ltb_lt; lia).
      reflexivity.
    + rewrite IH.
      * rewrite List.length_app. cbn [List.length].
        replace (Nat.min (S (List.length later))
                   (Z.to_nat m + 1 - List.length restarts))
          with (S (Nat.min (List.length later)
                     (Z.to_nat m + 1 - (List.length restarts + 1)))) by lia.
        cbn [seq map].
        replace (Z.of_nat (List.length restarts) <? m) with true
          by (symmetry; apply Z.ltb_lt; lia).
        replace (Z.of_nat (List.length restarts + 1))
          with (Z.of_nat (List.length restarts) + 1) by lia.
        replace (S (List.length restarts))
          with (List.length restarts + 1)%nat by lia.
        replace (List.length restarts + 1 + List.length later)%nat
          with (List.length restarts + S (List.length later))%nat by lia.
        reflexivity.
      * intros x Hx. apply Hd. now right.
      * intros x Hx. apply in_app_or in Hx. destruct Hx as [Hx|[<-|[]]].
        -- now apply Hr.
        -- apply Hd. now left.
      * rewrite List.length_app. cbn [List.length]. lia.
Qed.

(** X7.  For any limit [m] on the restarts: when the worker is found
    dead at clock readings that all lie within one window, the first [m]
    of them are answered by a restart, after a sleep of 2, 4, 8, ...
    seconds capped at 60, and the next one by the shutdown; with [m]
    readings or fewer the loop is not left. *)
Theorem restarts_within_one_window :
  forall (m window t0 : Z) (deaths : list Z),
    0 <= m ->
    (forall t, In t deaths -> t0 <= t < t0 + window) ->
    supervise m window deaths []
    = (map (burst_check m)
         (seq 0 (Nat.min (List.length deaths) (Z.to_nat m + 1))),
       m <? Z.of_nat (List.length deaths)).
Proof.
  intros m window t0 deaths Hm Hd.
  rewrite (supervise_burst m window t0 deaths []); try assumption.
  - cbn [List.length]. now rewrite Nat.sub_0_r.
  - intros t [].
Qed.

(** Three failures within a minute under a limit of two. *)
Lemma restarts_within_one_window_witness :
  supervise 2 360000000 [1000000; 5000000; 20000000] []
  = ([{| seen := 0; backoff := Some 2 |};
      {| seen := 1; backoff := Some 4 |};
      {| seen := 2; backoff := None |}], true).
Proof.
  refine (restarts_within_one_window 2 360000000 0
            [1000000; 5000000; 20000000] _ _).
  - lia.
  - simpl. intros t [<-|[<-|[<-|[]]]]; lia.
Defined.

(** X8.  Whenever the supervisor restarts the worker, it sleeps at
    least 2 and at most 60 seconds, 60 exactly from the sixth restart
    inside the window on; and the list of restarts it keeps never holds
    more entries than the limit. *)
Theorem backoff_is_bounded :
  forall (max_restarts window now : Z) (restarts : list Z)
         (b : Z) (restarts' : list Z),
    on_worker_dead max_restarts window now restarts = Restart b restarts' ->
    2 <= b <= 60 /\
    (b = 60 <-> 6 <= Z.of_nat (List.length restarts')) /\
    Z.of_nat (List.length restarts') <= max_restarts.
Proof.
  intros max_restarts window now restarts b restarts' H.
  destruct (restart_backoff _ _ _ _ _ _ H) as (Hr & Hb & Hlt & _).
  assert (Hlen : Z.of_nat (List.length restarts')
                 = Z.of_nat (List.length (recent window now restarts)) + 1).
  { rewrite Hr, List.length_app. cbn [List.length]. lia. }
  set (n := Z.of_nat (List.length restarts')) in *.
  assert (Hn : 1 <= n) by lia.
  assert (H2 : 2 <= 2 ^ n).
  { change 2 with (2 ^ 1) at 1. apply Z.pow_le_mono_r; lia. }
  split; [subst b; lia|]. split; [|lia].
  subst b. split.
  - intros E. destruct (Z.le_gt_cases 6 n) as [|Hs]; [assumption|].
    assert (2 ^ n <= 2 ^ 5) by (apply Z.pow_le_mono_r; lia).
    change (2 ^ 5) with 32 in *. lia.
  - intros H6. assert (2 ^ 6 <= 2 ^ n) by (apply Z.pow_le_mono_r; lia).
    change (2 ^ 6) with 64 in *. lia.
Qed.

(** The third restart within a window of six minutes. *)
Lemma backoff_is_bounded_witness :
  2 <= 8 <= 60 /\ (8 = 60 <-> 6 <= 3) /\ 3 <= 5.
Proof.
  exact (backoff_is_bounded 5 360000000 20000000 [1000000; 5000000] 8
           [1000000; 5000000; 20000000] eq_refl).
Defined.

End RestartBudget.

(* ================================================================== *)
(** * The return service: reading the configuration file of a job *)
(* ================================================================== *)

Section TextFacts.

Lemma append_empty_r (s : string) : s ++ "" = s.
Proof. induction s as [|c s IH]; simpl; [reflexivity|now rewrite IH]. Qed.

Lemma rev_string_app (a b : string) :
  Py.rev_string (a ++ b) = Py.rev_string b ++ Py.rev_string a.
Proof.
  induction a as [|c a IH]; simpl.
  - now rewrite append_empty_r.
  - rewrite IH. apply append_assoc.
Qed.

Lemma rev_string_involutive (s : string) : Py.rev_string (Py.rev_string s) = s.
Proof.
  induction s as [|c s IH]; simpl; [reflexivity|].
  rewrite rev_string_app. simpl. now rewrite IH.
Qed.

Lemma lstrip_app (x : string) (c : ascii) (y : string) :
  Py.is_space c = false ->
  Py.lstrip (x ++ String c y) = Py.lstrip x ++ String c y.
Proof.
  intros Hc. induction x as [|a x IH]; simpl.
  - now rewrite Hc.
  - destruct (Py.is_space a); [exact IH|reflexivity].
Qed.

Lemma lstrip_all_space (x y : string) :
  Py.all_space x = true -> Py.lstrip (x ++ y) = Py.lstrip y.
Proof.
  induction x as [|a x IH]; simpl; [reflexivity|].
  destruct (Py.is_space a); [exact IH|discriminate].
Qed.

Lemma all_space_rev (x : string) :
  Py.all_space x = true -> Py.all_space (Py.rev_string x) = true.
Proof.
  assert (K : forall a b, Py.all_space a = true -> Py.all_space b = true ->
                          Py.all_space (a ++ b) = true).
  { induction a as [|c a IH]; simpl; [auto|].
    intros b Ha Hb. apply andb_prop in Ha. destruct Ha as [-> Ha].
    simpl. now apply IH. }
  induction x as [|c x IH]; simpl; [reflexivity|].
  intros H. apply andb_prop in H. destruct H as [Hc Hx].
  apply K; [now apply IH|]. simpl. now rewrite Hc.
Qed.

(** White space after a character that is none survives up to that
    character. *)
Lemma rstrip_app (a : string) (c : ascii) (rest : string) :
  Py.is_space c = false ->
  Py.rstrip (a ++ String c rest) = a ++ String c (Py.rstrip rest).
Proof.
  intros Hc. unfold Py.rstrip.
  rewrite rev_string_app. cbn [Py.rev_string].
  rewrite append_assoc. cbn [append].
  rewrite lstrip_app by exact Hc.
  rewrite rev_string_app. cbn [Py.rev_string].
  rewrite rev_string_involutive, append_assoc. reflexivity.
Qed.

Lemma rstrip_all_space (a x : string) :
  Py.all_space x = true -> Py.rstrip (a ++ x) = Py.rstrip a.
Proof.
  intros H. unfold Py.rstrip. rewrite rev_string_app.
  now rewrite lstrip_all_space by (now apply all_space_rev).
Qed.

Lemma length_lstrip (s : string) :
  (String.length (Py.lstrip s) <= String.length s)%nat.
Proof.
  induction s as [|c s IH]; simpl; [lia|].
  destruct (Py.is_space c); simpl; lia.
Qed.

(** A text that [lstrip] leaves alone does not start with white
    space. *)
Lemma lstrip_fixed (s : string) (c : ascii) (y : string) :
  Py.lstrip s = s -> Py.is_space c = false ->
  Py.lstrip (s ++ String c y) = s ++ String c y.
Proof.
  intros Hs Hc. destruct s as [|a s]; simpl in *.
  - now rewrite Hc.
  - destruct (Py.is_space a); [|reflexivity].
    pose proof (length_lstrip s) as L. rewrite Hs in L. simpl in L. lia.
Qed.

Lemma has_char_app (c : ascii) (a b : string) :
  Py.has_char c (a ++ b) = orb (Py.has_char c a) (Py.has_char c b).
Proof.
  induction a as [|x a IH]; simpl; [reflexivity|].
  rewrite IH. now rewrite orb_assoc.
Qed.

Lemma split_nonempty (c : ascii) (s : string) : Py.split c s <> [].
Proof.
  destruct s as [|a s]; simpl; [discriminate|].
  destruct (Ascii.eqb a c); [discriminate|].
  destruct (Py.split c s); discriminate.
Qed.

Lemma split_no_sep (c : ascii) (s : string) :
  Py.has_char c s = false -> Py.split c s = [s].
Proof.
  induction s as [|a s IH]; simpl; [reflexivity|].
  destruct (Ascii.eqb a c); [discriminate|]. simpl.
  intros H. now rewrite IH.
Qed.

Lemma split_app_sep (c : ascii) (a r : string) :
  Py.has_char c a = false -> Py.split c (a ++ String c r) = a :: Py.split c r.
Proof.
  induction a as [|x a IH]; simpl.
  - now rewrite Ascii.eqb_refl.
  - destruct (Ascii.eqb x c); [discriminate|]. simpl.
    intros H. now rewrite IH.
Qed.

Lemma split1_no_sep (c : ascii) (s : string) :
  Py.has_char c s = false -> Py.split1 c s = [s].
Proof.
  induction s as [|a s IH]; simpl; [reflexivity|].
  destruct (Ascii.eqb a c); [discriminate|]. simpl.
  intros H. now rewrite IH.
Qed.

Lemma split1_app_sep (c : ascii) (a r : string) :
  Py.has_char c a = false -> Py.split1 c (a ++ String c r) = [a; r].
Proof.
  induction a as [|x a IH]; simpl.
  - now rewrite Ascii.eqb_refl.
  - destruct (Ascii.eqb x c); [discriminate|]. simpl.
    intros H. now rewrite IH.
Qed.

(** A text with a separator is cut in two. *)
Lemma split1_with_sep (c : ascii) (s : string) :
  Py.has_char c s = true -> exists a r, Py.split1 c s = [a; r].
Proof.
  induction s as [|x s IH]; simpl; [discriminate|].
  destruct (Ascii.eqb x c); [eauto|]. simpl. intros H.
  destruct (IH H) as (a & r & ->). eauto.
Qed.

(** Taking the quotes out of a text between quotes. *)
Lemma remove_quotes_from (q : ascii) (text rest : string) :
  Py.has_char q text = false ->
  Py.remove_all_from (String q EmptyString) 0 (text ++ String q rest)
  = text ++ Py.remove_all_from (String q EmptyString) 0 rest.
Proof.
  induction text as [|x text IH]; intros H.
  - cbn [append Py.remove_all_from String.prefix String.length Nat.sub].
    destruct (ascii_dec q q) as [_|N]; [|now elim N].
    destruct rest; reflexivity.
  - simpl in H. destruct (Ascii.eqb x q) eqn:E; [discriminate|]. simpl in H.
    cbn [append Py.remove_all_from String.prefix].
    destruct (ascii_dec q x) as [<-|_].
    + rewrite Ascii.eqb_refl in E. discriminate.
    + now rewrite IH.
Qed.

Lemma remove_quotes_free (q : ascii) (s : string) :
  Py.has_char q s = false ->
  Py.remove_all_from (String q EmptyString) 0 s = s.
Proof.
  induction s as [|x s IH]; intros H; [reflexivity|].
  simpl in H. destruct (Ascii.eqb x q) eqn:E; [discriminate|]. simpl in H.
  cbn [Py.remove_all_from String.prefix].
  destruct (ascii_dec q x) as [<-|_].
  - rewrite Ascii.eqb_refl in E. discriminate.
  - now rewrite IH.
Qed.

End TextFacts.

Section ConfigLines.

Import ReturnService Eff.

Lemma strip_app_space (x e : string) :
  Py.all_space e = true -> Py.strip (x ++ e) = Py.strip x.
Proof.
  intros He. unfold Py.strip. induction x as [|a x IH].
  - cbn [append]. replace (Py.lstrip e) with (Py.lstrip (e ++ ""))
      by (now rewrite append_empty_r).
    now rewrite lstrip_all_space.
  - cbn [append Py.lstrip]. destruct (Py.is_space a); [exact IH|].
    change (String a (x ++ e)) with (String a x ++ e).
    now apply rstrip_all_space.
Qed.

Lemma all_space_no_quote (e : string) :
  Py.all_space e = true -> Py.has_char Py.dquote e = false.
Proof.
  induction e as [|a e IH]; simpl; [reflexivity|].
  intros H. apply andb_prop in H. destruct H as [Ha He].
  rewrite (IH He), orb_false_r.
  destruct (Ascii.eqb a Py.dquote) eqn:E; [|reflexivity].
  apply Ascii.eqb_eq in E. subst a. vm_compute in Ha. discriminate.
Qed.

Lemma last_item_cons {A} (x : A) (l : list A) :
  exists y, Py.last_item (x :: l) = inr y.
Proof.
  unfold Py.last_item. destruct (rev (x :: l)) as [|y r] eqn:E; [|eauto].
  apply (f_equal (@List.length A)) in E. rewrite length_rev in E.
  discriminate.
Qed.

Lemma parse_name_total (s : string) :
  exists number value, parse_string_for_variable_name s = inr (number, value).
Proof.
  unfold parse_string_for_variable_name.
  destruct (Py.split ":" (Py.strip s)) as [|a l] eqn:E;
    [now apply split_nonempty in E|].
  cbn [Py.index nth_error].
  destruct (Py.split "_" a) as [|b m] eqn:E';
    [now apply split_nonempty in E'|].
  destruct (last_item_cons b m) as [y ->]. cbn [Py.index nth_error]. eauto.
Qed.

Lemma parse_name_of_line (key number rest : string) :
  Py.has_char ":" key = false -> Py.has_char "_" key = false ->
  Py.lstrip key = key ->
  Py.has_char ":" number = false -> Py.has_char "_" number = false ->
  parse_string_for_variable_name (key ++ "_" ++ number ++ ":" ++ rest)
  = inr (number, key).
Proof.
  intros Hk1 Hk2 Hk3 Hn1 Hn2. unfold parse_string_for_variable_name.
  assert (E : Py.strip (key ++ "_" ++ number ++ ":" ++ rest)
              = (key ++ "_" ++ number) ++ String ":" (Py.rstrip rest)).
  { unfold Py.strip.
    change (key ++ "_" ++ number ++ ":" ++ rest)
      with (key ++ String "_" (number ++ String ":" rest)).
    rewrite (lstrip_fixed key "_" _ Hk3 eq_refl).
    replace (key ++ String "_" (number ++ String ":" rest))
      with ((key ++ "_" ++ number) ++ String ":" rest)
      by (rewrite append_assoc; reflexivity).
    now rewrite rstrip_app. }
  rewrite E.
  rewrite split_app_sep.
  - cbn [Py.index nth_error].
    change (key ++ "_" ++ number) with (key ++ String "_" number).
    rewrite (split_app_sep "_" key number Hk2).
    rewrite (split_no_sep "_" number Hn2). reflexivity.
  - rewrite has_char_app, Hk1. simpl. exact Hn1.
Qed.

(** X9.  [parse_string_for_variable_name] never raises, and of a line
    [<name>_<number>:<text>] whose name and number hold neither [_] nor
    [:] and whose name does not start with white space it returns the
    number and the name. *)
Theorem variable_name_of_a_return_line :
  (forall s, exists number value,
     parse_string_for_variable_name s = inr (number, value)) /\
  (forall key number rest,
     Py.has_char ":" key = false -> Py.has_char "_" key = false ->
     Py.lstrip key = key ->
     Py.has_char ":" number = false -> Py.has_char "_" number = false ->
     parse_string_for_variable_name (key ++ "_" ++ number ++ ":" ++ rest)
     = inr (number, key)).
Proof. split; [apply parse_name_total|apply parse_name_of_line]. Qed.

(** The line of the address of the first network receiver. *)
Lemma variable_name_of_a_return_line_witness :
  parse_string_for_variable_name
    ("ReturnDicomNodeIP" ++ "_" ++ "1" ++ ":" ++ Scenario.quoted "10.0.0.1")
  = inr ("1", "ReturnDicomNodeIP").
Proof.
  refine (proj2 variable_name_of_a_return_line
            "ReturnDicomNodeIP" "1" (Scenario.quoted "10.0.0.1") _ _ _ _ _);
    reflexivity.
Defined.

Lemma parse_value_without_colon (s : string) :
  Py.has_char ":" s = false -> parse_string_for_value s = inl Py.IndexError.
Proof.
  intros H. unfold parse_string_for_value. now rewrite split1_no_sep.
Qed.

Lemma parse_value_with_colon (s : string) :
  Py.has_char ":" s = true -> exists v, parse_string_for_value s = inr v.
Proof.
  intros H. unfold parse_string_for_value.
  destruct (split1_with_sep _ _ H) as (a & r & ->). simpl. eauto.
Qed.

(** X10.  [parse_string_for_value] raises [IndexError] on a line
    without colon; otherwise it cuts the line at its first colon only, so
    that a value may hold colons of its own, takes every double quote out
    and strips the white space at both ends; of a line
    [<name>:"<text>"] followed by white space it returns the text,
    stripped. *)
Theorem value_of_a_return_line :
  (forall s, Py.has_char ":" s = false ->
     parse_string_for_value s = inl Py.IndexError) /\
  (forall key v, Py.has_char ":" key = false ->
     parse_string_for_value (key ++ ":" ++ v)
     = inr (Py.strip (Py.remove_all (String Py.dquote EmptyString) v))) /\
  (forall key text eol,
     Py.has_char ":" key = false -> Py.has_char Py.dquote text = false ->
     Py.all_space eol = true ->
     parse_string_for_value (key ++ ":" ++ Scenario.quoted text ++ eol)
     = inr (Py.strip text)).
Proof.
  split; [exact parse_value_without_colon|].
  assert (K : forall key v, Py.has_char ":" key = false ->
            parse_string_for_value (key ++ ":" ++ v)
            = inr (Py.strip (Py.remove_all (String Py.dquote EmptyString) v))).
  { intros key v Hk. unfold parse_string_for_value.
    change (key ++ ":" ++ v) with (key ++ String ":" v).
    now rewrite split1_app_sep. }
  split; [exact K|].
  intros key text eol Hk Ht He. rewrite K by exact Hk. f_equal.
  unfold Scenario.quoted, Py.remove_all.
  change (String Py.dquote (text ++ String Py.dquote "") ++ eol)
    with (String Py.dquote ((text ++ String Py.dquote "") ++ eol)).
  rewrite append_assoc.
  change (String Py.dquote "" ++ eol) with (String Py.dquote eol).
  cbn [Py.remove_all_from String.prefix String.length Nat.sub].
  destruct (ascii_dec Py.dquote Py.dquote) as [_|N]; [|now elim N].
  replace (String.prefix "" (text ++ String Py.dquote eol)) with true
    by (destruct (text ++ String Py.dquote eol); reflexivity).
  rewrite remove_quotes_from by exact Ht.
  rewrite remove_quotes_free by (now apply all_space_no_quote).
  now apply strip_app_space.
Qed.

(** A return share on a drive with a letter, the line ending in a line
    feed. *)
Lemma value_of_a_return_line_witness :
  parse_string_for_value
    ("ReturnDirectory_1" ++ ":" ++ Scenario.quoted "E:\returns"
       ++ String (ascii_of_nat 10) EmptyString)
  = inr (Py.strip "E:\returns").
Proof.
  refine (proj2 (proj2 value_of_a_return_line)
            "ReturnDirectory_1" "E:\returns"
            (String (ascii_of_nat 10) EmptyString) _ _ _);
    reflexivity.
Defined.

End ConfigLines.

Section ReturnAddresses.

Import ReturnService Eff.

(** ** Collecting the return addresses *)

Lemma collect_returns_colonless (config : ReturnserviceConfig)
    (lines : list string) (l : string) :
  In l lines -> is_return_line config l = true ->
  Py.has_char ":" l = false ->
  forall nodes dirs_,
    collect_returns config lines nodes dirs_ = inl Py.IndexError.
Proof.
  intros Hin Hl Hc. induction lines as [|h lines IH]; [destruct Hin|].
  intros nodes dirs_. cbn [collect_returns].
  destruct (parse_name_total h) as (number & value & ->).
  destruct (Py.has_char ":" h) eqn:Eh.
  - assert (Hrest : In l lines).
    { destruct Hin as [->|H]; [congruence|exact H]. }
    destruct (parse_value_with_colon h Eh) as (v & ->).
    destruct (Py.startswith h (return_dicom_str config)); [now apply IH|].
    destruct (Py.startswith h (return_directory_str config)); now apply IH.
  - rewrite (parse_value_without_colon h Eh).
    destruct (Py.startswith h (return_dicom_str config)) eqn:E1;
      [reflexivity|].
    destruct (Py.startswith h (return_directory_str config)) eqn:E2;
      [reflexivity|].
    apply IH. destruct Hin as [->|H]; [|exact H].
    unfold is_return_line in Hl. rewrite E1, E2 in Hl. discriminate.
Qed.

(** X11.  A line of a job's configuration file that starts with one of
    the two return prefixes and holds no colon makes [AiDir.load] raise
    [IndexError]; the exception leaves the visit of a finished or failed
    job, and when the job is the first directory of the listing it ends
    the worker in its first round, the scan directory as it was. *)
Theorem return_line_without_colon_raises :
  forall (config : ReturnserviceConfig) (oracle : Oracle) (w : World)
         (f : string) (folder : Folder) (lines : list string) (l : string),
    find_dir f (dirs w) = Some folder -> ai_config folder = Some lines ->
    In l lines -> is_return_line config l = true ->
    Py.has_char ":" l = false ->
    load config (new_AiDir f) w = Raised Py.IndexError w /\
    (is_inferred_name f = true \/ is_error_name f = true ->
     visit config oracle f w = Raised Py.IndexError w /\
     (hd_error (dirs w) = Some folder ->
      forall rounds,
        returnservice_worker config oracle (S rounds) w
        = (Crashed Py.IndexError 0, w))).
Proof.
  intros config oracle w f folder lines l Hf Hc Hin Hl Hcol.
  assert (Hload : load config (new_AiDir f) w = Raised Py.IndexError w).
  { unfold load, bind, get. cbn [path new_AiDir]. rewrite Hf, Hc.
    unfold get_all_returns.
    now rewrite (collect_returns_colonless config lines l Hin Hl Hcol). }
  split; [exact Hload|]. intros Hname.
  assert (Hvisit : visit config oracle f w = Raised Py.IndexError w).
  { unfold visit. unfold bind at 1. unfold get at 1. rewrite Hf.
    unfold bind at 1.
    destruct (is_inferred_name f) eqn:Ei.
    - unfold bind at 1. now rewrite Hload.
    - destruct Hname as [|He]; [discriminate|]. rewrite He.
      unfold ret at 1. unfold bind at 1. unfold bind at 1.
      now rewrite Hload. }
  split; [exact Hvisit|]. intros Hhd rounds.
  unfold returnservice_worker. cbn [worker_from].
  assert (Hscan : scan_directory config oracle w = Raised Py.IndexError w).
  { unfold scan_directory. unfold bind at 1. unfold get at 1.
    destruct (dirs w) as [|g ds] eqn:Ed; [discriminate|].
    injection Hhd as ->. cbn [map for_each].
    assert (name folder = f).
    { rewrite <- Ed in Hf. eapply find_dir_name; eauto. }
    subst f. unfold bind at 1. now rewrite Hvisit. }
  now rewrite Hscan.
Qed.

(** A finished job whose configuration file names a return share
    without colon. *)
Lemma return_line_without_colon_raises_witness :
  load Scenario.return_config (new_AiDir "inferred_1.2.840.7")
    (Scenario.return_world
       [Scenario.job_folder "inferred_1.2.840.7"
          ["ReturnDirectory_1 \\srv\returns"] ["rtstruct.dcm"]])
  = Raised Py.IndexError
      (Scenario.return_world
         [Scenario.job_folder "inferred_1.2.840.7"
            ["ReturnDirectory_1 \\srv\returns"] ["rtstruct.dcm"]]).
Proof.
  refine (proj1 (return_line_without_colon_raises Scenario.return_config
    Scenario.all_fine _ "inferred_1.2.840.7"
    (Scenario.job_folder "inferred_1.2.840.7"
       ["ReturnDirectory_1 \\srv\returns"] ["rtstruct.dcm"])
    ["ReturnDirectory_1 \\srv\returns"] "ReturnDirectory_1 \\srv\returns"
    _ _ _ _ _)).
  - reflexivity.
  - reflexivity.
  - simpl. now left.
  - reflexivity.
  - reflexivity.
Defined.

Lemma collect_returns_skips (config : ReturnserviceConfig)
    (lines : list string) :
  forall nodes dirs_,
    collect_returns config (filter (is_return_line config) lines) nodes dirs_
    = collect_returns config lines nodes dirs_.
Proof.
  induction lines as [|h lines IH]; intros nodes dirs_; [reflexivity|].
  cbn [filter]. unfold is_return_line at 1.
  destruct (Py.startswith h (return_dicom_str config)) eqn:E1.
  - cbn [orb collect_returns]. rewrite E1.
    destruct (parse_string_for_variable_name h) as [e|[number value]];
      [reflexivity|].
    destruct (parse_string_for_value h); [reflexivity|apply IH].
  - destruct (Py.startswith h (return_directory_str config)) eqn:E2.
    + cbn [orb collect_returns]. rewrite E1, E2.
      destruct (parse_string_for_variable_name h) as [e|[number value]];
        [reflexivity|].
      destruct (parse_string_for_value h); [reflexivity|apply IH].
    + cbn [orb collect_returns]. rewrite E1, E2. apply IH.
Qed.

Lemma get_all_returns_without_lines (config : ReturnserviceConfig)
    (lines : list string) (d : AiDir) :
  filter (is_return_line config) lines = [] ->
  get_all_returns config lines d = inr (with_returns [] [] d).
Proof.
  intros H. unfold get_all_returns.
  rewrite <- (collect_returns_skips config lines), H. reflexivity.
Qed.

(** X12.  Only the lines that start with one of the two return prefixes
    count for the return addresses of a job: [get_all_returns] gives the
    same dictionaries, or raises the same exception, when every other
    line is taken out of the configuration file; on a file without such a
    line it gives two empty dictionaries. *)
Theorem get_all_returns_reads_return_lines_only :
  forall (config : ReturnserviceConfig) (lines : list string) (d : AiDir),
    get_all_returns config (filter (is_return_line config) lines) d
    = get_all_returns config lines d /\
    (filter (is_return_line config) lines = [] ->
     get_all_returns config lines d = inr (with_returns [] [] d)).
Proof.
  intros config lines d. split.
  - unfold get_all_returns. now rewrite collect_returns_skips.
  - apply get_all_returns_without_lines.
Qed.

(** A configuration file that names the model only. *)
Lemma get_all_returns_reads_return_lines_only_witness :
  get_all_returns Scenario.return_config
    ["ModelName:" ++ Scenario.quoted "Prostate"] (new_AiDir "inferred_1")
  = inr (with_returns [] [] (new_AiDir "inferred_1")).
Proof.
  refine (proj2 (get_all_returns_reads_return_lines_only
                   Scenario.return_config
                   ["ModelName:" ++ Scenario.quoted "Prostate"]
                   (new_AiDir "inferred_1")) _).
  reflexivity.
Defined.

(** ** The nested dictionaries *)

Lemma dict_get_set_same {V} (k : string) (v : V) (d : list (string * V)) :
  dict_get k (dict_set k v d) = inr v.
Proof.
  induction d as [|[k' v'] d IH]; simpl.
  - now rewrite String.eqb_refl.
  - destruct (String.eqb k' k) eqn:E; simpl.
    + now rewrite String.eqb_refl.
    + now rewrite E.
Qed.

Lemma dict_get_set_other {V} (k k0 : string) (v : V)
    (d : list (string * V)) :
  k0 <> k -> dict_get k0 (dict_set k v d) = dict_get k0 d.
Proof.
  intros Hne. assert (Ek : String.eqb k k0 = false)
    by (apply String.eqb_neq; congruence).
  induction d as [|[k' v'] d IH]; simpl.
  - now rewrite Ek.
  - destruct (String.eqb k' k) eqn:E; simpl.
    + apply String.eqb_eq in E. subst k'. now rewrite Ek.
    + destruct (String.eqb k' k0); [reflexivity|exact IH].
Qed.

Lemma dict_get_error {V} (k : string) (d : list (string * V)) (e : Py.Exn) :
  dict_get k d = inl e -> e = Py.KeyError.
Proof.
  induction d as [|[k' v'] d IH]; simpl; [congruence|].
  destruct (String.eqb k' k); [discriminate|exact IH].
Qed.

(** X13.  The assignment [d[number][value] = v] of [get_all_returns],
    with its [except KeyError] that creates the group: afterwards
    [d[number][value]] is [v], and every other entry of every group is
    what it was, a missing one still missing. *)
Theorem set_nested_sets_one_entry :
  forall (number value v : string) (d : Groups),
    nested_get number value (set_nested number value v d) = inr v /\
    forall number' value',
      (number', value') <> (number, value) ->
      nested_get number' value' (set_nested number value v d)
      = nested_get number' value' d.
Proof.
  intros number value v d. unfold nested_get, set_nested. split.
  - destruct (dict_get number d) as [e|inner];
      rewrite dict_get_set_same; [simpl; now rewrite String.eqb_refl|].
    apply dict_get_set_same.
  - intros number' value' Hne.
    destruct (String.eqb_spec number' number) as [->|Hn].
    + assert (Hv : value' <> value) by congruence.
      destruct (dict_get number d) as [e|inner] eqn:E;
        rewrite dict_get_set_same.
      * simpl. replace (String.eqb value value') with false
          by (symmetry; apply String.eqb_neq; congruence).
        now rewrite (dict_get_error _ _ _ E).
      * now apply dict_get_set_other.
    + destruct (dict_get number d) as [e|inner];
        now rewrite dict_get_set_other.
Qed.

(** The second key of the first receiver. *)
Lemma set_nested_sets_one_entry_witness :
  nested_get "1" "ReturnDicomNodeIP"
    (set_nested "1" "ReturnDicomNodePort" "104"
       [("1", [("ReturnDicomNodeIP", "10.0.0.1")])])
  = nested_get "1" "ReturnDicomNodeIP"
      [("1", [("ReturnDicomNodeIP", "10.0.0.1")])].
Proof.
  refine (proj2 (set_nested_sets_one_entry "1" "ReturnDicomNodePort" "104"
                   [("1", [("ReturnDicomNodeIP", "10.0.0.1")])])
            "1" "ReturnDicomNodeIP" _).
  discriminate.
Defined.

End ReturnAddresses.

(* ================================================================== *)
(** * The return service: the directories it leaves alone *)
(* ================================================================== *)

Section DeliveryFrame.

Import ReturnService Eff.

Variable config : ReturnserviceConfig.
Variable oracle : Oracle.

Local Abbreviation own := (fun n : string => is_own_name n = true).
Local Abbreviation any_file := (fun _ : File => True).

Lemma keeps_refl (Own : string -> Prop) (w : World) : keeps Own w w.
Proof. intros g H _. exact H. Qed.

Lemma keeps_trans (Own : string -> Prop) (w1 w2 w3 : World) :
  keeps Own w1 w2 -> keeps Own w2 w3 -> keeps Own w1 w3.
Proof. intros H1 H2 g Hg Hn. apply H2; [now apply H1|exact Hn]. Qed.

Lemma keeps_same_dirs (Own : string -> Prop) (w w' : World) :
  dirs w' = dirs w -> keeps Own w w'.
Proof. intros E g H _. now rewrite E. Qed.

Lemma keeps_update (Own : string -> Prop) (n : string)
    (h : Folder -> Folder) (w : World) :
  Own n -> keeps Own w (set_dirs (update_dir n h (dirs w)) w).
Proof.
  intros Ho g Hg Hn. cbn [dirs set_dirs]. unfold update_dir.
  apply in_map_iff. exists g. split; [|exact Hg].
  destruct (String.eqb (name g) n) eqn:E; [|reflexivity].
  apply String.eqb_eq in E. rewrite E in Hn. contradiction.
Qed.

Lemma keeps_remove (Own : string -> Prop) (n : string) (w : World) :
  Own n -> keeps Own w (set_dirs (remove_dir n (dirs w)) w).
Proof.
  intros Ho g Hg Hn. cbn [dirs set_dirs]. unfold remove_dir.
  apply filter_In. split; [exact Hg|].
  destruct (String.eqb (name g) n) eqn:E; [|reflexivity].
  apply String.eqb_eq in E. rewrite E in Hn. contradiction.
Qed.

(** A computation that only adds events keeps every directory. *)
Lemma run_ok_ends (Own : string -> Prop) {A} (Q : A -> Prop) (w : World)
    (o : Outcome World A) :
  run_ok any_file w Q o -> ends (keeps Own) Q w o.
Proof.
  destruct o as [a w'|e w']; simpl.
  - intros [(Hd & _) Hq]. split; [now apply keeps_same_dirs|exact Hq].
  - intros (Hd & _). split; [now apply keeps_same_dirs|exact I].
Qed.

Local Abbreviation kret := (ends_ret World (keeps own) (keeps_refl own)).
Local Abbreviation kbind := (ends_bind World (keeps own) (keeps_trans own)).

(** ** Names *)

Lemma lower_first (n p : string) (c : ascii) :
  Py.startswith (Py.lower n) (String c p) = true ->
  exists a r, n = String a r /\ Py.lower_char a = c.
Proof.
  unfold Py.startswith. destruct n as [|a r]; [discriminate|].
  change (Py.lower (String a r)) with (String (Py.lower_char a) (Py.lower r)).
  cbn [String.prefix].
  destruct (ascii_dec c (Py.lower_char a)) as [E|]; [|discriminate].
  intros _. now exists a, r.
Qed.

Lemma handled_name_is_own (x : string) :
  is_own_name ("handled_error_" ++ x) = true.
Proof.
  unfold is_own_name, is_handled_error_name, Py.startswith.
  change (Py.lower ("handled_error_" ++ x))
    with ("handled_error" ++ String "_" (Py.lower x)).
  rewrite prefix_app. now rewrite !orb_true_r.
Qed.

Lemma renamed_is_own (n new : string) :
  handled_error_name n = Some new -> is_own_name new = true.
Proof.
  intros H. apply handled_error_name_prefix in H.
  unfold Py.startswith in H. destruct (prefix_split _ _ H) as [x ->].
  apply handled_name_is_own.
Qed.

Lemma handled_name_only (f : string) :
  is_handled_error_name f = true ->
  is_inferred_name f = false /\ is_error_name f = false.
Proof.
  intros H. destruct (lower_first _ _ _ H) as (a & r & -> & E).
  unfold is_inferred_name, is_error_name, Py.startswith.
  change (Py.lower (String a r)) with (String (Py.lower_char a) (Py.lower r)).
  rewrite E. split; reflexivity.
Qed.

Lemma error_name_only (f : string) :
  is_error_name f = true ->
  is_inferred_name f = false /\ is_handled_error_name f = false /\
  Py.startswith f "handled_error" = false /\
  Py.startswith f "inferred" = false.
Proof.
  intros H. destruct (lower_first _ _ _ H) as (a & r & -> & E).
  unfold is_inferred_name, is_handled_error_name, Py.startswith.
  change (Py.lower (String a r)) with (String (Py.lower_char a) (Py.lower r)).
  rewrite E. repeat split; try reflexivity; cbn [String.prefix].
  - destruct (ascii_dec "h" a) as [<-|]; [|reflexivity].
    vm_compute in E. discriminate.
  - destruct (ascii_dec "i" a) as [<-|]; [|reflexivity].
    vm_compute in E. discriminate.
Qed.

(** ** The operations on a job directory *)

Lemma rs_os_rename_inr (src dst : string) (ds ds' : list Folder) :
  os_rename src dst ds = inr ds' -> ds' = update_dir src (renamed dst) ds.
Proof.
  unfold os_rename. destruct (find_dir src ds) as [f|]; [|discriminate].
  destruct (in_use f); [discriminate|].
  destruct (find_dir dst ds); [discriminate|].
  intros H; now injection H as <-.
Qed.

Lemma rmtree_own (left : Entry -> bool) (n : string) (w : World) :
  own n -> ends (keeps own) (fun _ => True) w (rmtree left n w).
Proof.
  intros Ho. unfold rmtree, bind, get, put, raise.
  destruct (find_dir n (dirs w)) as [f|];
    [|split; [apply keeps_refl|exact I]].
  destruct (in_use f); (split; [|exact I]); simpl;
    [now apply keeps_update|now apply keeps_remove].
Qed.

(** [try: rmtree(n) except ...: log], as both deletions are written. *)
Lemma rmtree_caught_own (left : Entry -> bool) (n : string) (w : World) :
  own n ->
  ends (keeps own) (fun _ => True) w
    (try_except (rmtree left n) any_exn (fun _ => ret tt) w).
Proof.
  intros Ho. unfold try_except. pose proof (rmtree_own left n w Ho) as H.
  destruct (rmtree left n w) as [[] w'|e w']; exact H.
Qed.

Lemma renaming_keeps (d : AiDir) (w : World) :
  own (path d) ->
  ends (keeps own) (fun d' => own (path d')) w
    (renaming_to_handled_error d w).
Proof.
  intros Ho. unfold renaming_to_handled_error.
  destruct (handled_error_name (path d)) as [new|] eqn:E; [|now apply kret].
  unfold bind, get.
  destruct (os_rename (path d) new (dirs w)) as [e|ds'] eqn:R.
  - now apply kret.
  - apply rs_os_rename_inr in R. subst ds'. split.
    + simpl. now apply keeps_update.
    + simpl. eapply renamed_is_own; eauto.
Qed.

Lemma delete_sent_folder_keeps (d : AiDir) (w : World) :
  own (path d) ->
  ends (keeps own) (fun _ => True) w (delete_sent_folder oracle d w).
Proof. intros Ho. now apply rmtree_caught_own. Qed.

Lemma load_keeps (d : AiDir) (w : World) :
  own (path d) ->
  ends (keeps own) (fun d' => own (path d')) w (load config d w).
Proof.
  intros Ho. unfold load. unfold bind at 1. unfold get at 1.
  destruct (find_dir (path d) (dirs w)) as [f|]; [|now apply kret].
  destruct (ai_config f) as [lines|].
  - eapply kbind with (Q := fun d1 => own (path d1)).
    + apply (ends_lift World (keeps own) (keeps_refl own)).
      unfold get_all_returns. intros d1.
      destruct (collect_returns config lines [] []) as [e|[nodes dirs_]];
        [discriminate|].
      intros H. injection H as <-. exact Ho.
    + intros d1 w1 H1 _. destruct (andb _ _).
      * eapply kbind; [now apply renaming_keeps|].
        intros d2 w2 H2 _. now apply kret.
      * now apply kret.
  - eapply kbind; [now apply renaming_keeps|].
    intros d1 w1 H1 _. now apply kret.
Qed.

Lemma send_struct_to_all_returns_keeps (struct_path : File) (error : bool)
    (d : AiDir) (w : World) :
  own (path d) ->
  ends (keeps own) (fun d' => own (path d')) w
    (send_struct_to_all_returns config oracle struct_path error d w).
Proof.
  intros Ho. unfold send_struct_to_all_returns.
  eapply kbind with (Q := fun d1 => own (path d1)).
  - eapply ends_weaken;
      [|apply run_ok_ends;
        exact (fan_out_ok config oracle any_file (fun _ _ => I)
                 struct_path d w I)].
    intros d1 Hf. apply flagged_dicts in Hf. destruct Hf as [Hp _].
    simpl. now rewrite Hp.
  - intros d1 w1 H1 _. destruct error; [now apply kret|].
    destruct (transmission_failed d1); [now apply renaming_keeps|].
    eapply kbind; [now apply delete_sent_folder_keeps|].
    intros _ w2 _ _. now apply kret.
Qed.

Lemma handle_error_keeps (d : AiDir) (w : World) :
  own (path d) ->
  ends (keeps own) (fun d' => own (path d')) w
    (handle_error config oracle d w).
Proof.
  intros Ho. unfold handle_error. unfold bind at 1. unfold get at 1.
  destruct (find_dir (path d) (dirs w)) as [[fn fc fe fo fi fr fm fu]|] eqn:Ef;
    [|now apply renaming_keeps].
  destruct fi as [input|]; [|now apply renaming_keeps].
  eapply kbind with (Q := fun p => forall x, p = Some x -> job x = path d).
  - unfold create_error_struct, bind, get. rewrite Ef.
    destruct (error_struct_saved oracle (path d) (error_message d)).
    + split; [simpl; now apply keeps_update|].
      simpl. intros x H. now injection H as <-.
    + apply kret. discriminate.
  - intros p w1 Hp _.
    eapply kbind with (Q := fun d1 => own (path d1)).
    + destruct p as [x|]; [|now apply kret].
      eapply kbind with (Q := fun x' => job x' = path d).
      * unfold adjust_rtstruct_dicom_information.
        eapply kbind with (Q := fun _ => True).
        -- apply (ends_lift World (keeps own) (keeps_refl own)). trivial.
        -- intros digits w2 _ _. unfold bind, get, put, ret, raise.
           cbn [dirs set_dirs].
           assert (Hx : own (job x)) by (rewrite (Hp x eq_refl); exact Ho).
           pose proof (keeps_update own (job x)
                         (create_root_file
                            ("rtstruct_" ++ "1.2.826.0.1.3680043.9.7225."
                               ++ Py.take 30 digits ++ ".dcm") (clock w2))
                         w2 Hx) as K1.
           destruct (find_dir (job x) _) as [f|];
             [|split; [exact K1|exact I]].
           destruct (existsb _ (root_files f));
             [|split; [exact K1|exact I]].
           split; [|simpl; now apply Hp].
           eapply keeps_trans; [exact K1|].
           exact (keeps_update own (job x) _ _ Hx).
      * intros x' w2 _ _. now apply send_struct_to_all_returns_keeps.
    + intros d1 w2 H1 _. now apply renaming_keeps.
Qed.

Lemma initiate_sending_struct_keeps (d : AiDir) (w : World) :
  own (path d) ->
  ends (keeps own) (fun d' => own (path d')) w
    (initiate_sending_struct config oracle d w).
Proof.
  intros Ho. unfold initiate_sending_struct. unfold bind at 1. unfold get at 1.
  destruct (find_dir (path d) (dirs w)) as [[fn fc fe fo fi fr fm fu]|];
    [|now apply handle_error_keeps].
  destruct fo as [files|]; [|now apply handle_error_keeps].
  destruct (filter is_dcm files) as [|a [|b l]];
    try (now apply handle_error_keeps).
  eapply kbind with (Q := fun _ => True).
  - destruct (andb _ _); [|now apply kret].
    unfold archive_struct. destruct (archive_copies oracle _); [|now apply kret].
    split; [now apply keeps_same_dirs|exact I].
  - intros _ w1 _ _. now apply send_struct_to_all_returns_keeps.
Qed.

Lemma set_error_message_keeps (d : AiDir) (w : World) :
  own (path d) ->
  ends (keeps own) (fun r => own (path (snd r))) w (set_error_message d w).
Proof.
  intros Ho. unfold set_error_message. unfold bind at 1. unfold get at 1.
  assert (K : ends (keeps own) (fun r : bool * AiDir => own (path (snd r))) w
                ((d1 <- renaming_to_handled_error d ;; ret (false, d1)) w)).
  { eapply kbind; [now apply renaming_keeps|].
    intros d1 w1 H1 _. now apply kret. }
  destruct (find_dir (path d) (dirs w)) as [[fn fc fe fo fi fr fm fu]|];
    [|exact K].
  destruct fe as [[|first rest]|]; try exact K.
  now apply kret.
Qed.

Lemma delete_old_folder_keeps (f : string) (w : World) :
  own f ->
  ends (keeps own) (fun _ => True) w (delete_old_folder config oracle f w).
Proof.
  intros Ho. unfold delete_old_folder, bind, get.
  destruct (find_dir f (dirs w)) as [folder|];
    [|split; [apply keeps_refl|exact I]].
  destruct (_ <? _); [|now apply kret].
  now apply rmtree_caught_own.
Qed.

Lemma visit_keeps (f : string) (w : World) :
  ends (keeps own) (fun _ => True) w (visit config oracle f w).
Proof.
  unfold visit. unfold bind at 1. unfold get at 1.
  destruct (find_dir f (dirs w)); [|now apply kret].
  eapply kbind with (Q := fun _ => True).
  { destruct (is_inferred_name f) eqn:E; [|now apply kret].
    assert (Ho : own f) by (unfold is_own_name; now rewrite E).
    eapply kbind; [apply load_keeps; exact Ho|].
    intros d w1 Hd _. destruct (valid d); [|now apply kret].
    eapply kbind; [now apply initiate_sending_struct_keeps|].
    intros; now apply kret. }
  intros _ w1 _ _.
  eapply kbind with (Q := fun _ => True).
  { destruct (is_error_name f) eqn:E; [|now apply kret].
    assert (Ho : own f)
      by (unfold is_own_name; rewrite E; now rewrite orb_true_r).
    eapply kbind; [apply load_keeps; exact Ho|].
    intros d w2 Hd _. destruct (valid d); [|now apply kret].
    eapply kbind; [now apply set_error_message_keeps|].
    intros [ok d1] w3 H1 _. simpl in *. destruct ok; [|now apply kret].
    eapply kbind; [now apply handle_error_keeps|].
    intros; now apply kret. }
  intros _ w2 _ _.
  destruct (is_handled_error_name f) eqn:E; [|now apply kret].
  apply delete_old_folder_keeps.
  unfold is_own_name. rewrite E. now rewrite !orb_true_r.
Qed.

Lemma scan_directory_keeps (w : World) :
  keeps own w (final (scan_directory config oracle w)).
Proof.
  unfold scan_directory. unfold bind at 1. unfold get at 1.
  apply (ends_for_each World (keeps own) (keeps_refl own) (keeps_trans own)
           (fun _ => True)); [|exact I].
  intros f [] w1 _ _. apply visit_keeps.
Qed.

Lemma worker_keeps (rounds completed : nat) (w : World) :
  keeps own w (snd (worker_from config oracle completed rounds w)).
Proof.
  revert completed w. induction rounds as [|k IH]; intros completed w.
  - apply keeps_refl.
  - cbn [worker_from]. pose proof (scan_directory_keeps w) as H.
    destruct (scan_directory config oracle w) as [[] w1|e w1]; simpl in H.
    + eapply keeps_trans; [exact H|apply IH].
    + exact H.
Qed.

(** X14.  The return service changes directories of its own only: a
    directory whose name, in lower case, starts with none of
    [inferred_], [error_] and [handled_error] is after a scan what it was
    before, whether the scan came to its end or raised, and so it is when
    the worker returns, after any number of rounds.  The jobs the
    watchdog still owns are never renamed, deleted or written to. *)
Theorem return_service_changes_its_own_directories_only :
  forall (w : World) (g : Folder),
    In g (dirs w) -> is_own_name (name g) = false ->
    In g (dirs (final (scan_directory config oracle w))) /\
    forall rounds,
      In g (dirs (snd (returnservice_worker config oracle rounds w))).
Proof.
  intros w g Hin Hn.
  assert (Hno : ~ is_own_name (name g) = true) by congruence.
  split; [exact (scan_directory_keeps w g Hin Hno)|].
  intros rounds. exact (worker_keeps rounds 0 w g Hin Hno).
Qed.

End DeliveryFrame.

Section DeliveryFrameAtWork.

Import ReturnService Eff.

(** A job that is still being inferred, next to a finished one. *)
Lemma return_service_changes_its_own_directories_only_witness :
  In (Scenario.job_folder "active_1.2.840.9" Scenario.to_one_share [])
     (dirs (final (scan_directory Scenario.return_config Scenario.all_fine
                     (Scenario.return_world
                        (Scenario.job_folder "active_1.2.840.9"
                           Scenario.to_one_share []
                         :: dirs Scenario.one_share))))).
Proof.
  refine (proj1 (return_service_changes_its_own_directories_only
    Scenario.return_config Scenario.all_fine
    (Scenario.return_world
       (Scenario.job_folder "active_1.2.840.9" Scenario.to_one_share []
        :: dirs Scenario.one_share)) _ _ _)).
  - simpl. now left.
  - reflexivity.
Defined.

End DeliveryFrameAtWork.

(* ================================================================== *)
(** * The return service: quarantined and failed jobs *)
(* ================================================================== *)

Section Quarantine.

Import ReturnService Eff.

Variable config : ReturnserviceConfig.
Variable oracle : Oracle.

(** X15.  What a scan does to a directory [handled_error...]: nothing
    but [delete_old_folder], which sends no file and raises nothing.  A
    directory last modified at most [days_before_deletion] days ago
    stays as it is.  An older one is deleted when no other process holds
    it; when one does, [rmtree] is refused on the way and the directory
    stays under its name with the entries not yet removed. *)
Theorem old_quarantined_directory_is_deleted :
  forall (w : World) (f : string) (folder : Folder),
    find_dir f (dirs w) = Some folder ->
    is_handled_error_name f = true ->
    visit config oracle f w
    = Done tt
        (if days_before_deletion config * 86400 <? clock w - st_mtime folder
         then if in_use folder
              then set_dirs
                     (update_dir f
                        (left_of (rmtree_keeps oracle f) (clock w)) (dirs w))
                     w
              else set_dirs (remove_dir f (dirs w)) w
         else w).
Proof.
  intros w f folder Hf Hh.
  destruct (handled_name_only f Hh) as [Hi He].
  unfold visit. unfold bind at 1. unfold get at 1. rewrite Hf, Hi, He, Hh.
  unfold bind at 1. unfold ret at 1. unfold bind at 1. unfold ret at 1.
  unfold delete_old_folder. unfold bind at 1. unfold get at 1. rewrite Hf.
  destruct (_ <? _); [|reflexivity].
  unfold try_except, rmtree, bind, get. rewrite Hf.
  destruct (in_use folder); reflexivity.
Qed.

End Quarantine.

Section QuarantineAtWork.

Import ReturnService Eff.

(** A quarantined directory last modified forty days ago, which no
    process holds, is deleted. *)
Lemma old_quarantined_directory_is_deleted_witness :
  visit Scenario.return_config Scenario.all_fine "handled_error_1.2.840.7"
    (Scenario.forty_days_later
       [Scenario.job_folder "handled_error_1.2.840.7" Scenario.to_one_share
          ["rtstruct.dcm"]])
  = Done tt (Scenario.forty_days_later []).
Proof.
  exact (old_quarantined_directory_is_deleted Scenario.return_config
           Scenario.all_fine
           (Scenario.forty_days_later
              [Scenario.job_folder "handled_error_1.2.840.7"
                 Scenario.to_one_share ["rtstruct.dcm"]])
           "handled_error_1.2.840.7"
           (Scenario.job_folder "handled_error_1.2.840.7"
              Scenario.to_one_share ["rtstruct.dcm"])
           eq_refl eq_refl).
Defined.

End QuarantineAtWork.

Section ErrorFile.

Import ReturnService Eff.

Variable config : ReturnserviceConfig.
Variable oracle : Oracle.

Lemma error_name_handled (n : string) :
  is_error_name n = true ->
  handled_error_name n = Some ("handled_error_" ++ Py.remove_all "error_" n) /\
  "handled_error_" ++ Py.remove_all "error_" n <> n.
Proof.
  intros H. destruct (error_name_only n H) as (_ & _ & Hh & Hi).
  unfold handled_error_name. rewrite !stem_startswith by reflexivity.
  rewrite Hh, Hi. split; [reflexivity|].
  intros E. rewrite <- E in Hh.
  assert (K : Py.startswith ("handled_error_" ++ Py.remove_all "error_" n)
                "handled_error" = true).
  { apply startswith_longer. exact (prefix_app "handled_error_" _). }
  congruence.
Qed.

(** X16.  A failed job, named [error_...], whose error file is missing
    or empty: when the visit of the scan comes to its end, nothing was
    sent, copied or archived, and the directory carries the name
    [handled_error_...], unless another process holds it or that name is
    taken, in which case the scan directory is as it was. *)
Theorem failed_job_without_message_is_set_aside :
  forall (w w' : World) (f : string) (folder : Folder),
    is_error_name f = true ->
    find_dir f (dirs w) = Some folder ->
    (error_lines folder = None \/ error_lines folder = Some []) ->
    visit config oracle f w = Done tt w' ->
    trace w' = trace w /\
    let new := "handled_error_" ++ Py.remove_all "error_" f in
    if can_rename folder new (dirs w)
    then find_dir f (dirs w') = None /\
         find_dir new (dirs w') = Some (renamed new folder)
    else dirs w' = dirs w.
Proof.
  intros w w' f folder He Hf Hlines Hrun.
  destruct (error_name_only f He) as (Hi & Hh & _ & _).
  destruct (error_name_handled f He) as [Hn Hne].
  (* every way through the visit ends with the rename, made in [w] *)
  assert (Hren : exists d d', path d = f /\
                   renaming_to_handled_error d w = Done d' w').
  { unfold visit in Hrun.
    apply bind_Done_inv in Hrun. destruct Hrun as (w0 & w0' & Hg & Hrun).
    unfold get in Hg. injection Hg as <- <-. rewrite Hf, Hi, He, Hh in Hrun.
    apply bind_Done_inv in Hrun. destruct Hrun as ([] & w1 & H1 & Hrun).
    unfold ret in H1. injection H1 as <-.
    apply bind_Done_inv in Hrun. destruct Hrun as ([] & w2 & H2 & Hrun).
    unfold ret in Hrun. injection Hrun as <-.
    apply bind_Done_inv in H2. destruct H2 as (d & w3 & Hload & H2).
    unfold load in Hload.
    apply bind_Done_inv in Hload. destruct Hload as (w4 & w4' & Hg & Hload).
    unfold get in Hg. injection Hg as <- <-.
    cbn [path new_AiDir] in Hload. rewrite Hf in Hload.
    destruct (ai_config folder) as [lines|].
    - apply bind_Done_inv in Hload. destruct Hload as (d1 & w5 & Hl & Hload).
      unfold get_all_returns in Hl.
      destruct (collect_returns config lines [] []) as [e|[nodes dirs_]];
        [discriminate|].
      unfold lift, ret in Hl. injection Hl as <- <-.
      destruct (andb _ _).
      + apply bind_Done_inv in Hload.
        destruct Hload as (d2 & w6 & Hr & Hload).
        unfold ret in Hload. injection Hload as <- <-.
        simpl in H2. unfold ret in H2. injection H2 as <-.
        eexists _, _. split; [|exact Hr]. reflexivity.
      + unfold ret in Hload. injection Hload as <- <-.
        cbn [valid with_valid] in H2.
        apply bind_Done_inv in H2. destruct H2 as ([ok d2] & w6 & Hs & H2).
        unfold set_error_message in Hs.
        apply bind_Done_inv in Hs. destruct Hs as (w7 & w7' & Hg & Hs).
        unfold get in Hg. injection Hg as <- <-.
        cbn [path with_valid with_returns new_AiDir] in Hs. rewrite Hf in Hs.
        assert (Hs' : (d1 <- renaming_to_handled_error
                               (with_valid true
                                  (with_returns nodes dirs_ (new_AiDir f))) ;;
                       ret (false, d1)) w = Done (ok, d2) w6).
        { destruct folder as [fn fc fe fo fi fr fm fu]. simpl in Hlines.
          destruct Hlines as [->| ->]; exact Hs. }
        apply bind_Done_inv in Hs'. destruct Hs' as (d3 & w8 & Hr & Hs').
        unfold ret in Hs'. injection Hs' as <- <- <-.
        simpl in H2. unfold ret in H2. injection H2 as <-.
        eexists _, _. split; [|exact Hr]. reflexivity.
    - apply bind_Done_inv in Hload. destruct Hload as (d1 & w5 & Hr & Hload).
      unfold ret in Hload. injection Hload as <- <-.
      simpl in H2. unfold ret in H2. injection H2 as <-.
      eexists _, _. split; [|exact Hr]. reflexivity. }
  destruct Hren as (d & d' & Hp & Hr).
  rewrite <- Hp in Hf, Hn, Hne.
  destruct (renaming_outcome d w folder _ Hf Hn Hne)
    as (d2 & w2 & Hr2 & _ & _ & Ht & Hres).
  rewrite Hr in Hr2. injection Hr2 as <- <-.
  split; [exact Ht|]. cbv zeta. rewrite Hp in Hres.
  destruct (can_rename folder _ (dirs w)).
  - destruct Hres as (_ & H1 & H2). split; assumption.
  - destruct Hres as (_ & H1). exact H1.
Qed.

End ErrorFile.

Section ErrorFileAtWork.

Import ReturnService Eff.

(** A failed job with an error file of no line. *)
Lemma failed_job_without_message_is_set_aside_witness :
  exists w',
    visit Scenario.return_config Scenario.all_fine "error_1.2.840.8"
      (Scenario.return_world
         [{| name := "error_1.2.840.8";
             ai_config := Some Scenario.to_one_share;
             error_lines := Some []; dcmoutput := None;
             dcminput := Some ["ct1.dcm"]; root_files := [];
             st_mtime := 0; in_use := false |}]) = Done tt w' /\
    trace w' = [] /\ map name (dirs w') = ["handled_error_1.2.840.8"].
Proof.
  eexists. split; [vm_compute; reflexivity|].
  split; [|reflexivity].
  refine (proj1 (failed_job_without_message_is_set_aside
    Scenario.return_config Scenario.all_fine
    (Scenario.return_world
       [{| name := "error_1.2.840.8";
           ai_config := Some Scenario.to_one_share;
           error_lines := Some []; dcmoutput := None;
           dcminput := Some ["ct1.dcm"]; root_files := [];
           st_mtime := 0; in_use := false |}])
    _ "error_1.2.840.8" _ _ _ _ _)).
  - reflexivity.
  - reflexivity.
  - right. reflexivity.
  - vm_compute. reflexivity.
Defined.

End ErrorFileAtWork.

(* ================================================================== *)
(** * The return service: the archive folder *)
(* ================================================================== *)

Section ArchiveFolder.

Import ReturnService.

Lemma archive_loop_free (exists_ : string -> bool) (base : string)
    (fuel : nat) (i : Z) (p q : string) :
  archive_loop exists_ base fuel i p = Some q -> exists_ q = false.
Proof.
  revert i p. induction fuel as [|k IH]; intros i p; [discriminate|].
  cbn [archive_loop]. destruct (exists_ p) eqn:E.
  - apply IH.
  - intros H. injection H as <-. exact E.
Qed.

Lemma archive_loop_first (exists_ : string -> bool) (base : string) (k : Z) :
  (forall j, 1 <= j < k -> exists_ (base ++ "_" ++ fmt_02d j) = true) ->
  exists_ (base ++ "_" ++ fmt_02d k) = false ->
  forall (n : nat) (i : Z) (fuel : nat),
    1 <= i <= k -> k - i = Z.of_nat n -> (n < fuel)%nat ->
    archive_loop exists_ base fuel (i + 1) (base ++ "_" ++ fmt_02d i)
    = Some (base ++ "_" ++ fmt_02d k).
Proof.
  intros Hused Hfree. induction n as [|n IH]; intros i fuel Hi Hn Hfuel.
  - assert (i = k) by lia. subst i.
    destruct fuel as [|fuel]; [lia|]. cbn [archive_loop]. now rewrite Hfree.
  - destruct fuel as [|fuel]; [lia|]. cbn [archive_loop].
    rewrite Hused by lia. apply IH; lia.
Qed.

(** X17.  The folder [archive_struct] archives to: its name is the day,
    the patient ID ([Unknown] for a missing or empty one) and a number
    of two digits; the number is the first one, from 01 on, for which
    the archive directory holds no entry yet, so that no archive of an
    earlier job is written over. *)
Theorem archive_folder_gets_the_first_free_number :
  forall (exists_ : string -> bool) (today : string)
         (patient_id : option string),
    let base := struct_archive_directory_base_name today patient_id in
    (forall fuel p,
       struct_archive_path exists_ today patient_id fuel = Some p ->
       exists_ p = false) /\
    (forall k fuel,
       1 <= k ->
       (forall j, 1 <= j < k -> exists_ (base ++ "_" ++ fmt_02d j) = true) ->
       exists_ (base ++ "_" ++ fmt_02d k) = false ->
       (Z.to_nat k < fuel)%nat ->
       struct_archive_path exists_ today patient_id fuel
       = Some (base ++ "_" ++ fmt_02d k)).
Proof.
  intros exists_ today patient_id base. split.
  - intros fuel p H. unfold struct_archive_path in H.
    eapply archive_loop_free; eauto.
  - intros k fuel Hk Hused Hfree Hfuel. unfold struct_archive_path.
    fold base. destruct fuel as [|fuel]; [lia|]. cbn [archive_loop].
    destruct (Z.eq_dec k 1) as [->|Hne].
    + now rewrite Hfree.
    + rewrite Hused by lia.
      apply (archive_loop_first exists_ base k Hused Hfree
               (Z.to_nat (k - 1)) 1 fuel); lia.
Qed.

(** The third structure set of a patient on one day. *)
Lemma archive_folder_gets_the_first_free_number_witness :
  struct_archive_path
    (fun p => orb (String.eqb p "20251107_0101701234_01")
                  (String.eqb p "20251107_0101701234_02"))
    "20251107" (Some "0101701234") 4
  = Some "20251107_0101701234_03".
Proof.
  refine (proj2 (archive_folder_gets_the_first_free_number
                   (fun p => orb (String.eqb p "20251107_0101701234_01")
                                 (String.eqb p "20251107_0101701234_02"))
                   "20251107" (Some "0101701234")) 3 4%nat _ _ _ _).
  - lia.
  - intros j Hj. assert (E : j = 1 \/ j = 2) by lia.
    destruct E as [->| ->]; reflexivity.
  - reflexivity.
  - vm_compute. lia.
Defined.

End ArchiveFolder.

(* ================================================================== *)
(** * The return service: a destination that fails *)
(* ================================================================== *)

Section FailedDestination.

Import ReturnService Eff.

Variable config : ReturnserviceConfig.
Variable oracle : Oracle.

Local Abbreviation any_file := (fun _ : File => True).

(** A receiver that does not take the structure set sets the flag of
    the round made for it. *)
Lemma send_to_node_flags (struct_path : File) (g : Dict)
    (ip : string) (port : Z) (aet : string)
    (d d1 : AiDir) (w w1 : World) :
  node_address (return_dicom_str config) g = inr (ip, port, aet) ->
  (is_established (associate oracle ip port aet) = false \/
   send_c_store oracle ip port aet struct_path = StoreStatus false) ->
  send_to_node config oracle struct_path g d w = Done d1 w1 ->
  transmission_failed d1 = true.
Proof.
  intros Ha Hbad H. unfold send_to_node in H.
  apply bind_Done_inv in H. destruct H as (d0 & w0 & Hs & H).
  assert (F : transmission_failed d0 = true).
  { rewrite (send_struct_flag config oracle struct_path g d d0 w w0
               ip port aet Ha Hs).
    destruct Hbad as [->| ->]; [reflexivity|].
    destruct (is_established _); [|reflexivity].
    destruct (dcmread oracle struct_path); reflexivity. }
  destruct (send_scan_flag oracle _ g).
  - pose proof (send_scan_ok oracle any_file (fun _ _ => I) g d0 w0) as Hok.
    rewrite H in Hok. destruct Hok as [_ Hf].
    apply flagged_dicts in Hf. now apply Hf.
  - unfold ret in H. injection H as <- <-. exact F.
Qed.


End FailedDestination.

Section FailedDestinationAtWork.

Import ReturnService Eff.


End FailedDestinationAtWork.

(* ================================================================== *)
(** * The return service: what a return share can raise *)
(* ================================================================== *)

Section ShareRound.

Import ReturnService Eff.

Variable config : ReturnserviceConfig.
Variable oracle : Oracle.

Lemma copy_file_to_dir_returns (file_path : File) (return_dir : Path)
    (scan : bool) (d : AiDir) (w : World) :
  exists d' w', copy_file_to_dir oracle file_path return_dir scan d w
                = Done d' w'.
Proof.
  unfold copy_file_to_dir, bind, emit, modify, ret.
  destruct (copy2 oracle file_path (path_str return_dir)) as [e|].
  - destruct e; eauto.
  - destruct scan; eauto.
Qed.

Lemma for_each_returns {A B} (body : A -> B -> M World B) :
  (forall x b w, exists b' w', body x b w = Done b' w') ->
  forall l b w, exists b' w', for_each l body b w = Done b' w'.
Proof.
  intros Hb. induction l as [|x l IH]; intros b w; simpl.
  - unfold ret. eauto.
  - unfold bind. destruct (Hb x b w) as (b1 & w1 & ->). apply IH.
Qed.

Lemma copy_scan_to_dir_returns (return_dir : Path) (d : AiDir) (w : World) :
  exists d' w', copy_scan_to_dir oracle return_dir d w = Done d' w'.
Proof.
  unfold copy_scan_to_dir. unfold bind at 1. unfold get at 1.
  destruct (scan_files w d) as [e|files].
  - unfold bind, emit, modify, ret. eauto.
  - unfold bind at 1.
    destruct (for_each_returns
                (fun dcm d0 =>
                   copy_file_to_dir oracle
                     {| job := path d; place := InDcmInput; fname := dcm |}
                     return_dir true d0)
                (fun x b w0 => copy_file_to_dir_returns _ _ _ b w0)
                files d w) as (d1 & w1 & ->).
    unfold bind, emit, modify, ret. eauto.
Qed.

(** X19.  The round of [send_struct_to_all_returns] for one return
    share raises in three cases and in no other: reading the patient ID
    of the structure set raised; the group holds no return directory
    ([KeyError]); or the patient folder did not exist and [os.mkdir]
    raised something else than [FileNotFoundError].  Copying, of the
    structure set and of the scan, never raises.  The test
    [return_directory.exists()] is taken to answer. *)
Theorem share_round_raises_in_three_cases :
  forall (struct_path : File) (g : Dict) (d : AiDir) (w : World) (e : Py.Exn),
    (exists w', send_to_directory config oracle struct_path g d w
                = Raised e w') <->
    (patient_id oracle struct_path = inl e \/
     (exists patient,
        patient_id oracle struct_path = inr patient /\
        dict_get (return_directory_str config) g = inl e /\
        e = Py.KeyError) \/
     (exists patient v1,
        patient_id oracle struct_path = inr patient /\
        dict_get (return_directory_str config) g = inr v1 /\
        existsb (String.eqb (path_str (join_path v1 patient)))
          (return_shares w) = false /\
        mkdir oracle (path_str (join_path v1 patient)) = Some e /\
        e <> Py.FileNotFoundError)).
Proof.
  intros struct_path g d w e. unfold send_to_directory.
  destruct (patient_id oracle struct_path) as [e0|patient] eqn:Ep.
  { unfold bind, lift, raise. split.
    - intros (w' & H). injection H as <- _. now left.
    - intros [H|[(p & H & _)|(p & v & H & _)]]; try discriminate.
      injection H as <-. eauto. }
  unfold bind at 1. unfold lift at 1. unfold ret at 1.
  destruct (dict_get (return_directory_str config) g) as [e0|v1] eqn:Ev.
  { unfold bind, lift, raise. split.
    - intros (w' & H). injection H as <- _. right; left.
      exists patient. repeat split. eapply dict_get_error; eauto.
    - intros [H|[(p & _ & H & _)|(p & v & _ & H & _)]]; try discriminate.
      injection H as <-. eauto. }
  unfold bind at 1. unfold lift at 1. unfold ret at 1.
  unfold bind at 1. unfold get at 1.
  set (dir := path_str (join_path v1 patient)).
  (* after the folder is there, nothing raises *)
  assert (Hcopy : forall w0,
            exists d' w',
              (d1 <- copy_file_to_dir oracle struct_path
                       (join_path v1 patient) false d ;;
               if send_scan_flag oracle
                    (return_directory_str config ++ "SendScan") g
               then copy_scan_to_dir oracle (join_path v1 patient) d1
               else ret d1) w0 = Done d' w').
  { intros w0. unfold bind.
    destruct (copy_file_to_dir_returns struct_path (join_path v1 patient)
                false d w0) as (d1 & w1 & ->).
    destruct (send_scan_flag oracle _ g);
      [apply copy_scan_to_dir_returns|unfold ret; eauto]. }
  unfold bind at 1.
  destruct (existsb (String.eqb dir) (return_shares w)) eqn:Ex.
  { unfold ret at 1. cbn [negb].
    destruct (Hcopy w) as (d' & w' & ->). split.
    - intros (w0 & H). discriminate.
    - intros [H|[(p & _ & H & _)|(p & v & Hp & Hv & Hx & _)]];
        try discriminate.
      injection Hp as <-. injection Hv as <-. fold dir in Hx. congruence. }
  unfold bind at 1. unfold emit at 1. unfold modify at 1.
  destruct (mkdir oracle dir) as [e1|] eqn:Em.
  - assert (Hcase : e1 = Py.FileNotFoundError \/ e1 <> Py.FileNotFoundError)
      by (destruct e1; auto; right; discriminate).
    destruct Hcase as [->|Hne].
    + unfold bind, emit, modify, ret. cbn [negb]. split.
      * intros (w0 & H). discriminate.
      * intros [H|[(p & _ & H & _)|(p & v & Hp & Hv & _ & Hm & Hn)]];
          try discriminate.
        injection Hp as <-. injection Hv as <-. fold dir in Hm.
        rewrite Em in Hm. injection Hm as <-. now elim Hn.
    + destruct e1; try (now elim Hne); unfold raise; cbv beta iota;
        (split;
         [intros (w0 & H); injection H as <- _; right; right;
          exists patient, v1; repeat split; try assumption; discriminate
         |intros [H|[(p & _ & H & _)|(p & v & Hp & Hv & _ & Hm & _)]];
          try discriminate;
          injection Hp as <-; injection Hv as <-; fold dir in Hm;
          rewrite Em in Hm; injection Hm as <-; eauto]).
  - unfold bind at 1. unfold add_share at 1. unfold modify at 1.
    unfold ret at 1. cbn [negb].
    match goal with
    | |- (exists w', ?c ?w0 = _) <-> _ =>
        destruct (Hcopy w0) as (d' & w' & ->)
    end.
    split.
    + intros (w0 & H). discriminate.
    + intros [H|[(p & _ & H & _)|(p & v & Hp & Hv & _ & Hm & _)]];
        try discriminate.
      injection Hp as <-. injection Hv as <-. fold dir in Hm. congruence.
Qed.

End ShareRound.

Section ShareRoundAtWork.

Import ReturnService Eff.

(** A group that holds the scan switch of a share but not its path. *)
Lemma share_round_raises_in_three_cases_witness :
  exists w',
    send_to_directory Scenario.return_config Scenario.all_fine
      {| job := "inferred_1.2.840.7"; place := InDcmOutput;
         fname := "rtstruct.dcm" |}
      [("ReturnDirectorySendScan", "True")]
      Scenario.loaded_for_share Scenario.one_share
    = Raised Py.KeyError w'.
Proof.
  refine (proj2 (share_round_raises_in_three_cases
    Scenario.return_config Scenario.all_fine
    {| job := "inferred_1.2.840.7"; place := InDcmOutput;
       fname := "rtstruct.dcm" |}
    [("ReturnDirectorySendScan", "True")]
    Scenario.loaded_for_share Scenario.one_share Py.KeyError) _).
  right; left. exists "0101701234". repeat split.
Defined.

End ShareRoundAtWork.

(* ================================================================== *)
(** * The return service: a finished job without return address *)
(* ================================================================== *)

Section NoReturnAddress.

Import ReturnService Eff.

Variable config : ReturnserviceConfig.
Variable oracle : Oracle.

Lemma inferred_name_only (f : string) :
  is_inferred_name f = true ->
  is_error_name f = false /\ is_handled_error_name f = false.
Proof.
  intros H. destruct (lower_first _ _ _ H) as (a & r & -> & E).
  unfold is_error_name, is_handled_error_name, Py.startswith.
  change (Py.lower (String a r)) with (String (Py.lower_char a) (Py.lower r)).
  rewrite E. split; reflexivity.
Qed.

(** X20.  A finished job, named [inferred_...], whose configuration
    file is missing or names no return address: when the visit of the
    scan comes to its end, nothing was sent, copied or archived, and the
    directory carries a name [handled_error_...], unless another process
    holds it or that name is taken, in which case the scan directory is
    as it was. *)
Theorem job_without_return_address_is_set_aside :
  forall (w w' : World) (f : string) (folder : Folder),
    is_inferred_name f = true ->
    find_dir f (dirs w) = Some folder ->
    (ai_config folder = None \/
     exists lines, ai_config folder = Some lines /\
                   filter (is_return_line config) lines = []) ->
    visit config oracle f w = Done tt w' ->
    trace w' = trace w /\
    exists new,
      handled_error_name f = Some new /\
      Py.startswith new "handled_error_" = true /\
      if can_rename folder new (dirs w)
      then find_dir f (dirs w') = None /\
           find_dir new (dirs w') = Some (renamed new folder)
      else dirs w' = dirs w.
Proof.
  intros w w' f folder Hi Hf Hconf Hrun.
  destruct (inferred_name_only f Hi) as (He & Hh).
  destruct (inferred_name_handled f Hi) as (new & Hn & Hne & Hp & _).
  assert (Hren : exists d d', path d = f /\
                   renaming_to_handled_error d w = Done d' w').
  { unfold visit in Hrun.
    apply bind_Done_inv in Hrun. destruct Hrun as (w0 & w0' & Hg & Hrun).
    unfold get in Hg. injection Hg as <- <-. rewrite Hf, Hi, He, Hh in Hrun.
    apply bind_Done_inv in Hrun. destruct Hrun as ([] & w1 & H1 & Hrun).
    apply bind_Done_inv in Hrun. destruct Hrun as ([] & w2 & H2 & Hrun).
    unfold ret in H2, Hrun. injection H2 as <-. injection Hrun as <-.
    apply bind_Done_inv in H1. destruct H1 as (d & w3 & Hload & H1).
    unfold load in Hload.
    apply bind_Done_inv in Hload. destruct Hload as (w4 & w4' & Hg & Hload).
    unfold get in Hg. injection Hg as <- <-.
    cbn [path new_AiDir] in Hload. rewrite Hf in Hload.
    destruct Hconf as [Hc|(lines & Hc & Hnone)]; rewrite Hc in Hload.
    - apply bind_Done_inv in Hload. destruct Hload as (d1 & w5 & Hr & Hload).
      unfold ret in Hload. injection Hload as <- <-.
      simpl in H1. unfold ret in H1. injection H1 as <-.
      eexists _, _. split; [|exact Hr]. reflexivity.
    - pose proof (get_all_returns_without_lines config lines (new_AiDir f)
                    Hnone) as Hget.
      rewrite Hget in Hload. unfold lift in Hload.
      apply bind_Done_inv in Hload. destruct Hload as (d1 & w5 & Hl & Hload).
      unfold ret in Hl. injection Hl as <- <-.
      cbn [return_dicom_node_dict return_directory_dict with_returns
             is_empty andb] in Hload.
      apply bind_Done_inv in Hload. destruct Hload as (d2 & w6 & Hr & Hload).
      unfold ret in Hload. injection Hload as <- <-.
      simpl in H1. unfold ret in H1. injection H1 as <-.
      eexists _, _. split; [|exact Hr]. reflexivity. }
  destruct Hren as (d & d' & Hpd & Hr).
  rewrite <- Hpd in Hf, Hn, Hne.
  destruct (renaming_outcome d w folder new Hf Hn Hne)
    as (d2 & w2 & Hr2 & _ & _ & Ht & Hres).
  rewrite Hr in Hr2. injection Hr2 as <- <-.
  split; [exact Ht|]. exists new. rewrite Hpd in Hn.
  split; [exact Hn|]. split; [exact Hp|]. rewrite Hpd in Hres.
  destruct (can_rename folder new (dirs w)).
  - destruct Hres as (_ & H1 & H2). split; assumption.
  - destruct Hres as (_ & H1). exact H1.
Qed.

End NoReturnAddress.

Section NoReturnAddressAtWork.

Import ReturnService Eff.

(** A finished job whose configuration file names the model only. *)
Lemma job_without_return_address_is_set_aside_witness :
  exists w',
    visit Scenario.return_config Scenario.all_fine "inferred_1.2.840.7"
      (Scenario.return_world
         [Scenario.job_folder "inferred_1.2.840.7"
            ["ModelName:" ++ Scenario.quoted "Prostate"] ["rtstruct.dcm"]])
    = Done tt w' /\
    trace w' = [] /\ map name (dirs w') = ["handled_error_1.2.840.7"].
Proof.
  eexists. split; [vm_compute; reflexivity|].
  split; [|reflexivity].
  refine (proj1 (job_without_return_address_is_set_aside
    Scenario.return_config Scenario.all_fine
    (Scenario.return_world
       [Scenario.job_folder "inferred_1.2.840.7"
          ["ModelName:" ++ Scenario.quoted "Prostate"] ["rtstruct.dcm"]])
    _ "inferred_1.2.840.7" _ _ _ _ _)).
  - reflexivity.
  - reflexivity.
  - right. eexists. split; reflexivity.
  - vm_compute. reflexivity.
Defined.

End NoReturnAddressAtWork.

(* ================================================================== *)
(** * The return service: the files that leave a job directory *)
(* ================================================================== *)

Section Travel.

Import ReturnService Eff.

Variable config : ReturnserviceConfig.
Variable oracle : Oracle.

(** The structure set to be sent and the job it is sent for. *)
Variable struct_path : File.
Variable d : AiDir.

(** Whether some destination asks for the scan. *)
Variable scans : bool.

(** The files that may leave: the structure set and, when a
    destination asks for the scan, the [.dcm] files of [dcminput] of the
    job. *)
Local Abbreviation may_leave :=
  (fun x : File =>
     x = struct_path \/
     (scans = true /\ job x = path d /\ place x = InDcmInput /\
      is_dcm (fname x) = true)).

Local Abbreviation run_ok := (ReturnService.run_ok may_leave).

Ltac logs :=
  eapply run_bind; [apply run_emit; discriminate|intros ? ? _].

Lemma run_for_each_inv {A} (Inv : AiDir -> Prop) (l : list A)
    (body : A -> AiDir -> M World AiDir) :
  (forall x d0 w0, In x l -> Inv d0 -> run_ok w0 Inv (body x d0 w0)) ->
  forall d0 w0, Inv d0 -> run_ok w0 Inv (for_each l body d0 w0).
Proof.
  induction l as [|x l IH]; intros Hb d0 w0 Hi; simpl.
  - now apply run_ret.
  - eapply run_bind; [apply Hb; [now left|exact Hi]|].
    intros d1 w1 H1. apply IH; [|exact H1].
    intros; apply Hb; [now right|assumption].
Qed.

Lemma scan_files_dcm (w : World) (d0 : AiDir) (files : list string) :
  scan_files w d0 = inr files ->
  forall dcm, In dcm files -> is_dcm dcm = true.
Proof.
  unfold scan_files. destruct (find_dir (path d0) (dirs w)) as [f|];
    [|discriminate].
  destruct (dcminput f) as [l|]; [|discriminate].
  intros H dcm Hin. injection H as <-. apply filter_In in Hin. tauto.
Qed.

Lemma copy_scan_to_dir_travel (return_dir : Path) (d0 : AiDir) (w : World) :
  scans = true -> path d0 = path d ->
  run_ok w (flagged d0) (copy_scan_to_dir oracle return_dir d0 w).
Proof.
  intros Hs Hp. unfold copy_scan_to_dir.
  eapply run_bind; [apply run_get|intros w0 w1 _].
  destruct (scan_files w0 d0) as [e|files] eqn:E.
  - logs. apply run_ret. now right.
  - eapply run_bind.
    + apply (run_for_each_inv (flagged d0)); [|now left].
      intros dcm d1 w2 Hin H1.
      eapply run_weaken;
        [|apply (copy_file_to_dir_ok oracle may_leave)].
      * intros d2 H2. eapply flagged_trans; eauto.
      * right. repeat split; try assumption.
        eapply scan_files_dcm; eauto.
    + intros d1 w2 H1. logs. apply run_ret. exact H1.
Qed.

Lemma send_scan_travel (g : Dict) (d0 : AiDir) (w : World) :
  scans = true -> path d0 = path d ->
  run_ok w (flagged d0) (send_scan oracle g d0 w).
Proof.
  intros Hs Hp. unfold send_scan.
  destruct (node_address _ g) as [e|[[ip port] aet]];
    [apply run_ret; now right|].
  logs.
  destruct (associate oracle ip port aet); try (apply run_ret; now right).
  eapply run_bind; [apply run_get|intros wa wb _].
  destruct (scan_files wa d0) as [e|files] eqn:E.
  - logs. apply run_ret. now right.
  - eapply run_bind.
    + apply (run_for_each_inv (flagged d0)); [|now left].
      intros dcm d1 w2 Hin H1.
      destruct (dcmread oracle _) as [e|]; [apply run_raise|].
      eapply run_bind.
      * apply run_emit. intros x Hx. injection Hx as <-. right.
        repeat split; try assumption. eapply scan_files_dcm; eauto.
      * intros _ w3 _.
        destruct (send_c_store oracle ip port aet _) as [[]|e];
          apply run_ret; try exact H1;
          (eapply flagged_trans; [exact H1|now right]).
    + intros d1 w2 H1. logs. apply run_ret. exact H1.
Qed.

Lemma send_to_directory_travel (g : Dict) (d0 : AiDir) (w : World) :
  (send_scan_flag oracle (return_directory_str config ++ "SendScan") g = true
   -> scans = true) ->
  path d0 = path d ->
  run_ok w (flagged d0) (send_to_directory config oracle struct_path g d0 w).
Proof.
  intros Hflag Hp. unfold send_to_directory.
  eapply run_bind with (Q := fun _ => True);
    [apply run_lift; trivial|intros patient wp _].
  eapply run_bind with (Q := fun _ => True);
    [apply run_lift; trivial|intros v1 wv _].
  eapply run_bind; [apply run_get|intros w0 w1 _].
  eapply run_bind with (Q := fun _ => True).
  - destruct (existsb _ _); [apply run_ret; exact I|].
    logs. destruct (mkdir oracle _) as [[]|]; try apply run_raise.
    + logs. apply run_ret; exact I.
    + eapply run_bind; [apply run_add_share|intros ? ? _].
      apply run_ret; exact I.
  - intros made wm _. destruct made; simpl; [|apply run_ret; now right].
    eapply run_bind;
      [apply (copy_file_to_dir_ok oracle may_leave); now left|].
    intros d1 wb H1.
    destruct (send_scan_flag oracle _ g) eqn:F; [|apply run_ret; exact H1].
    eapply run_weaken; [|apply copy_scan_to_dir_travel].
    + intros d2 H2. eapply flagged_trans; eauto.
    + now apply Hflag.
    + apply flagged_dicts in H1. destruct H1 as [H1 _]. congruence.
Qed.

Lemma send_to_node_travel (g : Dict) (d0 : AiDir) (w : World) :
  (send_scan_flag oracle (return_dicom_str config ++ "SendScan") g = true
   -> scans = true) ->
  path d0 = path d ->
  run_ok w (flagged d0) (send_to_node config oracle struct_path g d0 w).
Proof.
  intros Hflag Hp. unfold send_to_node.
  eapply run_bind;
    [apply (send_struct_ok config oracle may_leave); now left|].
  intros d1 wa H1.
  destruct (send_scan_flag oracle _ g) eqn:F; [|apply run_ret; exact H1].
  eapply run_weaken; [|apply send_scan_travel].
  - intros d2 H2. eapply flagged_trans; eauto.
  - now apply Hflag.
  - apply flagged_dicts in H1. destruct H1 as [H1 _]. congruence.
Qed.

Lemma fan_out_travel (w : World) :
  (scans = false ->
   forall shares g,
     return_directory_dict d = Some shares -> In g (values shares) ->
     send_scan_flag oracle (return_directory_str config ++ "SendScan") g
     = false) ->
  (scans = false ->
   forall nodes g,
     return_dicom_node_dict d = Some nodes -> In g (values nodes) ->
     send_scan_flag oracle (return_dicom_str config ++ "SendScan") g
     = false) ->
  run_ok w (flagged d) (fan_out config oracle struct_path d w).
Proof.
  intros Hshares Hnodes. unfold fan_out, groups_of.
  destruct (return_directory_dict d) as [shares|] eqn:Es;
    [|apply run_raise].
  eapply run_bind with (Q := fun l => l = values shares);
    [now apply run_ret|intros l w1 ->].
  eapply run_bind.
  - apply (run_for_each_inv (flagged d)); [|now left].
    intros g d0 w0 Hin H0.
    eapply run_weaken; [|apply send_to_directory_travel].
    + intros d2 H2. eapply flagged_trans; eauto.
    + intros F. destruct scans; [reflexivity|].
      rewrite (Hshares eq_refl shares g eq_refl Hin) in F. discriminate.
    + apply flagged_dicts in H0. now destruct H0.
  - intros d1 w2 H1.
    assert (En : return_dicom_node_dict d1 = return_dicom_node_dict d).
    { apply flagged_dicts in H1. tauto. }
    rewrite En.
    destruct (return_dicom_node_dict d) as [nodes|] eqn:Ed;
      [|apply run_raise].
    eapply run_bind with (Q := fun l => l = values nodes);
      [now apply run_ret|intros l w3 ->].
    apply (run_for_each_inv (flagged d)); [|exact H1].
    intros g d0 w0 Hin H0.
    eapply run_weaken; [|apply send_to_node_travel].
    + intros d2 H2. eapply flagged_trans; eauto.
    + intros F. destruct scans; [reflexivity|].
      rewrite (Hnodes eq_refl nodes g eq_refl Hin) in F. discriminate.
    + apply flagged_dicts in H0. now destruct H0.
Qed.

End Travel.

Section TravelClaim.

Import ReturnService Eff.

Lemma extends_final {A} (P : File -> Prop) (Q : A -> Prop) (w : World)
    (o : Outcome World A) :
  run_ok P w Q o -> extends P w (final o).
Proof. destruct o; simpl; tauto. Qed.

Lemma extends_weaken (P P' : File -> Prop) (w w' : World) :
  (forall x, P x -> P' x) -> extends P w w' -> extends P' w w'.
Proof.
  intros H (Hd & Hc & t & Ht & Hm). repeat split; try assumption.
  exists t. split; [exact Ht|]. unfold moves_only in *.
  eapply Forall_impl; [|exact Hm]. intros e He x Hx. apply H. now apply He.
Qed.

(** X21.  What the two loops of [send_struct_to_all_returns] move,
    whether they come to their end or raise: the structure set and
    [.dcm] files of the [dcminput] folder of the job, nothing else and
    nothing of another job; the scan directory and the clock stay as
    they are.  When no destination has a [SendScan] entry that reads as
    true, the structure set is the only file copied or stored. *)
Theorem only_the_result_and_the_scan_leave :
  forall (config : ReturnserviceConfig) (oracle : Oracle)
         (struct_path : File) (d : AiDir) (w : World),
    extends
      (fun x => x = struct_path \/
                (job x = path d /\ place x = InDcmInput /\
                 is_dcm (fname x) = true))
      w (final (fan_out config oracle struct_path d w)) /\
    ((forall shares g,
        return_directory_dict d = Some shares -> In g (values shares) ->
        send_scan_flag oracle (return_directory_str config ++ "SendScan") g
        = false) ->
     (forall nodes g,
        return_dicom_node_dict d = Some nodes -> In g (values nodes) ->
        send_scan_flag oracle (return_dicom_str config ++ "SendScan") g
        = false) ->
     extends (fun x => x = struct_path) w
       (final (fan_out config oracle struct_path d w))).
Proof.
  intros config oracle struct_path d w. split.
  - eapply extends_weaken;
      [|eapply extends_final;
        apply (fan_out_travel config oracle struct_path d true w);
        discriminate].
    simpl. intros x [H|(_ & H)]; auto.
  - intros Hs Hn.
    eapply extends_weaken;
      [|eapply extends_final;
        apply (fan_out_travel config oracle struct_path d false w); auto].
    simpl. intros x [H|(H & _)]; [exact H|discriminate].
Qed.

(** One job, one share without [SendScan] entry: the structure set is
    the only file that leaves. *)
Lemma only_the_result_and_the_scan_leave_witness :
  extends
    (fun x => x = {| job := "inferred_1.2.840.7"; place := InDcmOutput;
                     fname := "rtstruct.dcm" |})
    Scenario.one_share
    (final (fan_out Scenario.return_config Scenario.all_fine
              {| job := "inferred_1.2.840.7"; place := InDcmOutput;
                 fname := "rtstruct.dcm" |}
              Scenario.loaded_for_share Scenario.one_share)).
Proof.
  refine (proj2 (only_the_result_and_the_scan_leave
    Scenario.return_config Scenario.all_fine
    {| job := "inferred_1.2.840.7"; place := InDcmOutput;
       fname := "rtstruct.dcm" |}
    Scenario.loaded_for_share Scenario.one_share) _ _).
  - intros shares g E Hin. injection E as <-. simpl in Hin.
    destruct Hin as [<-|[]]. reflexivity.
  - intros nodes g E Hin. injection E as <-. destruct Hin.
Defined.

End TravelClaim.
